(** * Buy-Sell2: the product API of [server.js]

    A shallow embedding of the request handlers of [src/server.js] (an Express
    application over a lowdb JSON file) and the properties of its product
    collection: id generation, validation and defaults on creation, the
    shallow-merge update, deletion, list filtering and sorting, and the seed.

    JavaScript values are embedded as an inductive type; a JavaScript number is
    an IEEE-754 binary64, that is Rocq's primitive [float], so [Number(..)],
    [Math.max], [+], [-], [===] and truthiness evaluate as they do in the
    engine. Objects are finite maps from property names to values; the values
    are those that JSON texts hold (a request body, the document of the
    store) and those that the handlers build from them. A string is the
    sequence of the bytes of its UTF-8 encoding. A conversion that throws a
    TypeError returns [None]. *)

From Stdlib Require Import ZArith Floats Lia Ascii String List Sorting.Sorted.
From stdpp Require Import gmap strings list fin_maps pretty.

Set Warnings "-register-all,-inexact-float".

(** ** Values *)

Inductive value : Type :=
  | VUndef
  | VNull
  | VBool (b : bool)
  | VNum (n : float)
  | VStr (s : string)
  | VArr (l : list value)
  | VObj (o : gmap string value).

(** A product record, a request body that parsed to an object. *)
Abbreviation obj := (gmap string value).

(** [o.k]: an own property, [undefined] when there is none. *)
Definition get (o : obj) (k : string) : value := default VUndef (o !! k).

(** Property access as destructuring [const { k } = v] performs it on a value
    that is not null or undefined: the names read here (title, price, ...) are
    not properties of arrays, strings, numbers or booleans. *)
Definition prop (v : value) (k : string) : value :=
  match v with
  | VObj o => get o k
  | _ => VUndef
  end.

(** ** Numbers *)

Module Num.
Local Open Scope Z_scope.
Local Open Scope float_scope.

(** [!n] for a number: [+0], [-0] and [NaN] are falsy. *)
Definition falsy (n : float) : bool := is_zero n || is_nan n.

(** [a === b] on numbers: IEEE equality ([NaN !== NaN], [+0 === -0]). *)
Definition strict_eq (a b : float) : bool := (a =? b).

(** [Math.max(a, b)]: [NaN] when either is, [+0] above [-0]. *)
Definition max (a b : float) : float :=
  if is_nan a || is_nan b then nan
  else if Leibniz.eqb a neg_zero && Leibniz.eqb b 0 then 0
  else if a <? b then b else a.

(** The value of the integer [z], rounded to nearest (ties to even). *)
Definition of_Z (z : Z) : float := SF2Prim (binary_normalize prec emax z 0 false).

(** The value of [m * 10 ^ e] for a decimal literal with digits [m] and
    exponent [e], correctly rounded, with the sign [neg]. *)
Definition of_decimal (neg : bool) (m : N) (e : Z) : float :=
  match m with
  | N0 => if neg then neg_zero else 0
  | Npos p =>
      match e with
      | Zneg k =>
          SF2Prim (SFdiv prec emax (S754_finite neg p 0%Z)
                                   (S754_finite false (Pos.pow 10 k) 0%Z))
      | _ =>
          let f := of_Z (Zpos p * 10 ^ e) in
          if neg then - f else f
      end
  end.
End Num.

(** ** Strings *)

Module Str.
Local Open Scope Z_scope.

Definition is_upper (a : ascii) : bool :=
  let n := N_of_ascii a in ((65 <=? n) && (n <=? 90))%N.

Definition lower_ascii (a : ascii) : ascii :=
  if is_upper a then ascii_of_N (N_of_ascii a + 32) else a.

(** [s.toLowerCase()] on the ASCII letters; other code units are kept. *)
Fixpoint toLowerCase (s : string) : string :=
  match s with
  | EmptyString => EmptyString
  | String a r => String (lower_ascii a) (toLowerCase r)
  end.

Fixpoint starts_with (t s : string) : bool :=
  match t, s with
  | EmptyString, _ => true
  | String a t', String b s' => Ascii.eqb a b && starts_with t' s'
  | String _ _, EmptyString => false
  end.

(** [s.includes(t)]: [t] occurs in [s] as a contiguous run. *)
Fixpoint includes (s t : string) : bool :=
  starts_with t s ||
  match s with
  | EmptyString => false
  | String _ s' => includes s' t
  end.

(** White space that [Number] strips (StrWhiteSpaceChar), in UTF-8: tab,
    line feed, vertical tab, form feed, carriage return and space; U+00A0;
    U+1680; U+2000 to U+200A, U+2028, U+2029 and U+202F; U+205F; U+3000;
    and U+FEFF. [ws_start] is what is left of [s] after one such character
    at its head, if it has one. *)
Definition is_ws (a : ascii) : bool :=
  let n := N_of_ascii a in ((9 <=? n) && (n <=? 13) || (n =? 32))%N.

Definition ws_start (s : string) : option string :=
  match s with
  | String a r =>
      if is_ws a then Some r
      else
        match N_of_ascii a, r with
        | 194%N, String b r' => if (N_of_ascii b =? 160)%N then Some r' else None
        | 225%N, String b (String c r') =>
            if ((N_of_ascii b =? 154) && (N_of_ascii c =? 128))%N then Some r' else None
        | 226%N, String b (String c r') =>
            let y := N_of_ascii c in
            if (N_of_ascii b =? 128)%N then
              if ((128 <=? y) && (y <=? 138) || (y =? 168) || (y =? 169) || (y =? 175))%N
              then Some r' else None
            else if ((N_of_ascii b =? 129) && (y =? 159))%N then Some r' else None
        | 227%N, String b (String c r') =>
            if ((N_of_ascii b =? 128) && (N_of_ascii c =? 128))%N then Some r' else None
        | 239%N, String b (String c r') =>
            if ((N_of_ascii b =? 187) && (N_of_ascii c =? 191))%N then Some r' else None
        | _, _ => None
        end
  | EmptyString => None
  end.

(** The same at the end of a string, which is given back to front. *)
Definition ws_end (s : string) : option string :=
  match s with
  | String a r =>
      if is_ws a then Some r
      else
        match r with
        | String b r' =>
            let x := N_of_ascii a in
            let y := N_of_ascii b in
            if ((x =? 160) && (y =? 194))%N then Some r'
            else
              match r' with
              | String c r'' =>
                  let z := N_of_ascii c in
                  if ((z =? 225) && (y =? 154) && (x =? 128))%N then Some r''
                  else if ((z =? 226) && (y =? 128) &&
                           ((128 <=? x) && (x <=? 138) || (x =? 168) || (x =? 169) || (x =? 175)))%N
                  then Some r''
                  else if ((z =? 226) && (y =? 129) && (x =? 159))%N then Some r''
                  else if ((z =? 227) && (y =? 128) && (x =? 128))%N then Some r''
                  else if ((z =? 239) && (y =? 187) && (x =? 191))%N then Some r''
                  else None
              | EmptyString => None
              end
        | EmptyString => None
        end
  | EmptyString => None
  end.

(** [strip] as long as it applies, at most [n] times. *)
Fixpoint strip_all (strip : string -> option string) (n : nat) (s : string) : string :=
  match n with
  | O => s
  | S n' =>
      match strip s with
      | Some r => strip_all strip n' r
      | None => s
      end
  end.

Fixpoint rev_onto (s acc : string) : string :=
  match s with
  | EmptyString => acc
  | String a r => rev_onto r (String a acc)
  end.

Definition rev (s : string) : string := rev_onto s EmptyString.

Definition trim_start (s : string) : string := strip_all ws_start (String.length s) s.

Definition trim_end (s : string) : string :=
  rev (strip_all ws_end (String.length s) (rev s)).

Definition trim (s : string) : string := trim_end (trim_start s).

(** The value of a digit in a base up to 16, when it is one. *)
Definition digit (base : N) (a : ascii) : option N :=
  let n := N_of_ascii a in
  let d := if ((48 <=? n) && (n <=? 57))%N then Some (n - 48)%N
           else if ((97 <=? n) && (n <=? 102))%N then Some (n - 87)%N
           else if ((65 <=? n) && (n <=? 70))%N then Some (n - 55)%N
           else None in
  match d with
  | Some v => if (v <? base)%N then Some v else None
  | None => None
  end.

(** The longest run of digits at the head of [s], read onto [acc]: the
    number read, how many digits, and what is left. *)
Fixpoint digits (base : N) (s : string) (acc : N) (cnt : nat) : N * nat * string :=
  match s with
  | String a r =>
      match digit base a with
      | Some d => digits base r (acc * base + d)%N (S cnt)
      | None => (acc, cnt, s)
      end
  | EmptyString => (acc, cnt, s)
  end.

(** [0x..], [0o..], [0b..]: digits only, at least one, nothing after. *)
Definition radix_literal (base : N) (s : string) : float :=
  match digits base s 0%N 0%nat with
  | (m, S _, EmptyString) => Num.of_Z (Z.of_N m)
  | _ => nan
  end.

(** The exponent part [e[+-]digits] or nothing; [None] when malformed. *)
Definition exponent (s : string) : option Z :=
  match s with
  | EmptyString => Some 0
  | String c r =>
      if Ascii.eqb c "e" || Ascii.eqb c "E" then
        let '(neg, r') :=
          match r with
          | String "-" r' => (true, r')
          | String "+" r' => (false, r')
          | _ => (false, r)
          end in
        match digits 10 r' 0%N 0%nat with
        | (x, S _, EmptyString) => Some (if neg then - Z.of_N x else Z.of_N x)
        | _ => None
        end
      else None
  end.

(** An unsigned decimal literal: [Infinity], or digits with an optional
    fraction and exponent, at least one digit before the exponent. *)
Definition decimal_literal (neg : bool) (s : string) : float :=
  if String.eqb s "Infinity" then (if neg then neg_infinity else infinity)
  else
    let '(ip, n1, r1) := digits 10 s 0%N 0%nat in
    let '(m, n2, r2) :=
      match r1 with
      | String "." r => digits 10 r ip 0%nat
      | _ => (ip, 0%nat, r1)
      end in
    match (n1 + n2)%nat, exponent r2 with
    | S _, Some x => Num.of_decimal neg m (x - Z.of_nat n2)
    | _, _ => nan
    end.

(** [Number(s)] for a string (StringToNumber): white space is trimmed, the
    empty string is [0], and a string that is no numeric literal is [NaN]. *)
Definition to_number (s : string) : float :=
  match trim s with
  | EmptyString => 0%float
  | String "0" (String c r) as t =>
      if Ascii.eqb c "x" || Ascii.eqb c "X" then radix_literal 16 r
      else if Ascii.eqb c "o" || Ascii.eqb c "O" then radix_literal 8 r
      else if Ascii.eqb c "b" || Ascii.eqb c "B" then radix_literal 2 r
      else decimal_literal false t
  | String "-" r => decimal_literal true r
  | String "+" r => decimal_literal false r
  | t => decimal_literal false t
  end.
End Str.

(** ** Coercions *)

(** [!!v]. *)
Definition truthy (v : value) : bool :=
  match v with
  | VUndef | VNull => false
  | VBool b => b
  | VNum n => negb (Num.falsy n)
  | VStr s => negb (String.eqb s "")
  | VArr _ | VObj _ => true
  end.

(** [a || b]. *)
Definition js_or (a b : value) : value := if truthy a then a else b.

(** The number that [Number(v)] returns, when it returns. An array converts
    through its string form, the join of its elements by commas: the empty
    array reads as the empty string, an array of two or more elements has a
    comma and is no numeric literal, and a one-element array reads as the
    string of its element, where a number prints to a string that reads back
    as itself ([-0] prints as 0). A plain object prints as
    [[object Object]]. *)
Fixpoint numeric (v : value) : float :=
  match v with
  | VUndef => nan
  | VNull => 0%float
  | VBool b => if b then 1%float else 0%float
  | VNum n => n
  | VStr s => Str.to_number s
  | VArr l =>
      match l with
      | [] => 0%float
      | [x] =>
          match x with
          | VUndef | VNull => 0%float
          | VBool _ => nan
          | VNum n => if is_zero n then 0%float else n
          | VStr s => Str.to_number s
          | VArr _ => numeric x
          | VObj _ => nan
          end
      | _ :: _ :: _ => nan
      end
  | VObj _ => nan
  end.

(** The conversion of [v] to a primitive throws a TypeError. An object
    converts through [valueOf], which gives the object back, and then
    through [toString]: when the object has a property of that name (a value
    of a JSON text, so nothing that can be called) there is no method left
    and the conversion throws; without one it is the method of the
    prototype. An array converts through [join], which converts every
    element that is not null or undefined. *)
Fixpoint unprintable (v : value) : bool :=
  match v with
  | VObj o => match o !! "toString" with Some _ => true | None => false end
  | VArr l => existsb unprintable l
  | _ => false
  end.

(** [Number(v)], and the conversion of an operand of [-]. *)
Definition to_number (v : value) : option float :=
  if unprintable v then None else Some (numeric v).

(** [Number(v) || 0]. *)
Definition number_or_zero (v : value) : option float :=
  n ← to_number v; Some (if Num.falsy n then 0%float else n).

(** [a === b]. Arrays and objects are equal only to themselves; the two
    sides compared below never are one allocation (one comes from the store,
    the other from the request), so they compare unequal. *)
Definition strict_eq (a b : value) : bool :=
  match a, b with
  | VUndef, VUndef | VNull, VNull => true
  | VBool x, VBool y => Bool.eqb x y
  | VNum x, VNum y => Num.strict_eq x y
  | VStr x, VStr y => String.eqb x y
  | _, _ => false
  end.

(** The own enumerable properties that [{ ...v }] copies: those of an object,
    the indices of an array or of a string, none of another primitive. *)
Definition own_props (v : value) : obj :=
  match v with
  | VObj o => o
  | VArr l => list_to_map (imap (fun i x => (pretty i, x)) l)
  | VStr s =>
      list_to_map (imap (fun i a => (pretty i, VStr (String a EmptyString)))
                        (list_ascii_of_string s))
  | _ => ∅
  end.

(** ** The document store (lowdb)

    [data] is [db.data.products] in memory and [file] the [products] of the
    JSON document on disk; [None] stands for a document that has no such
    array. A read loads what the file has, a write replaces it with what
    memory has. A write stores the values as they are: that is what the file
    gives back for the values that a JSON text holds and gives back, which
    are all but [undefined], [NaN], the infinities and [-0] (see
    [storable]). *)
Record Low : Type := { data : option (list obj); file : option (list obj) }.

(** [await db.read()]. *)
Definition read (db : Low) : Low := {| data := file db; file := file db |}.

(** [await db.write()]. *)
Definition write (db : Low) : Low := {| data := data db; file := data db |}.

(** [db.data.products = ps]. *)
Definition set_products (db : Low) (ps : list obj) : Low :=
  {| data := Some ps; file := file db |}.

(** [db.data.products || []]. *)
Definition products_or_empty (db : Low) : list obj := default [] (data db).

(** ** Helpers *)

(** [items.reduce(f, a)] for a callback that may throw: the first throw ends
    the call. *)
Fixpoint reduce {A : Type} (f : A -> obj -> option A) (l : list obj) (a : A) : option A :=
  match l with
  | [] => Some a
  | x :: l' => a' ← f a x; reduce f l' a'
  end.

(** [nextId(items)]:
    [(items.reduce((m, x) => Math.max(m, Number(x.id) || 0), 0) || 0) + 1]. *)
Definition nextId (items : list obj) : option float :=
  m ← reduce (fun m x => n ← number_or_zero (get x "id"); Some (Num.max m n)) items 0%float;
  Some ((if Num.falsy m then 0 else m) + 1)%float.

(** ** Responses *)

Inductive response : Type :=
  | Json (status : nat) (body : value)   (* res.status(n).json(body) *)
  | End (status : nat).                  (* res.status(n).end() *)

(** What a handler does: it sends a response, or a TypeError escapes it. *)
Inductive outcome : Type :=
  | Sent (r : response)
  | Threw.

Definition error (msg : string) : value := VObj {[ "error" := VStr msg ]}.

(** ** GET /api/products *)

(** [req.query]: a parameter that the URL has once, as [key=value], is a
    string, the empty string for [key=]; one that it has not is
    [undefined]. *)
Record query : Type :=
  { q : option string; category : option string;
    subcategory : option string; sort : option string }.

Definition param (o : option string) : value :=
  match o with
  | Some s => VStr s
  | None => VUndef
  end.

(** [(v || '').toLowerCase()]: a TypeError when the value is truthy and no
    string. *)
Definition lowered (v : value) : option string :=
  match js_or v (VStr "") with
  | VStr s => Some (Str.toLowerCase s)
  | _ => None
  end.

(** The predicate of the text filter; the description is read only when the
    title does not match. *)
Definition matches_term (term : string) (p : obj) : option bool :=
  match lowered (get p "title") with
  | None => None
  | Some t =>
      if Str.includes t term then Some true
      else match lowered (get p "description") with
           | None => None
           | Some d => Some (Str.includes d term)
           end
  end.

(** [items.filter(f)] for a predicate that may throw: the first throw ends
    the call. *)
Fixpoint filter_throwing (f : obj -> option bool) (l : list obj) : option (list obj) :=
  match l with
  | [] => Some []
  | p :: l' =>
      match f p with
      | None => None
      | Some b =>
          match filter_throwing f l' with
          | None => None
          | Some r => Some (if b then p :: r else r)
          end
      end
  end.

(** [(a.k || 0)] as the operand of [-]. *)
Definition key (k : string) (p : obj) : option float := to_number (js_or (get p k) (VNum 0)).

(** [(a.k || 0) - (b.k || 0)]: the left operand is converted first. *)
Definition difference (k : string) (a b : obj) : option float :=
  x ← key k a; y ← key k b; Some (x - y)%float.

Definition price_asc (a b : obj) : option float := difference "price" a b.
Definition price_desc (a b : obj) : option float := difference "price" b a.
Definition newest (a b : obj) : option float := difference "createdAt" b a.

(** [items.sort(cmp)]. The sort is stable, [a] stays before [b] unless
    [cmp(a, b) > 0] (a [NaN] from the comparator counts as 0); for a
    consistent comparator that fixes the result, computed here by insertion
    from the right. Every item of a list of two or more is compared at least
    once, so the sort throws when the comparator throws on an item. For a
    comparator that is not consistent the order is the engine's, which need
    not be the one computed here. *)
Fixpoint insert_sorted (cmp : obj -> obj -> option float) (x : obj) (l : list obj)
    : option (list obj) :=
  match l with
  | [] => Some [x]
  | y :: l' =>
      c ← cmp x y;
      if (0 <? c)%float then r ← insert_sorted cmp x l'; Some (y :: r) else Some (x :: l)
  end.

Fixpoint sort_by (cmp : obj -> obj -> option float) (l : list obj) : option (list obj) :=
  match l with
  | [] => Some []
  | x :: l' => r ← sort_by cmp l'; insert_sorted cmp x r
  end.

Definition comparator (sort : string) : obj -> obj -> option float :=
  if String.eqb sort "price-asc" then price_asc
  else if String.eqb sort "price-desc" then price_desc
  else newest.

Definition by_field (k : string) (v : option string) (items : list obj) : list obj :=
  if truthy (param v) then List.filter (fun p => strict_eq (get p k) (param v)) items
  else items.

Definition by_text (v : option string) (items : list obj) : option (list obj) :=
  match v with
  | Some s =>
      if truthy (VStr s) then filter_throwing (matches_term (Str.toLowerCase s)) items
      else Some items
  | None => Some items
  end.

Definition GET_products (db : Low) (qry : query) : outcome * Low :=
  let db := read db in
  let items := products_or_empty db in
  let items := by_field "category" (category qry) items in
  let items := by_field "subcategory" (subcategory qry) items in
  match by_text (q qry) items with
  | None => (Threw, db)
  | Some items =>
      match sort_by (comparator (default "newest" (sort qry))) items with
      | None => (Threw, db)
      | Some items => (Sent (Json 200 (VObj {[ "items" := VArr (VObj <$> items) ]})), db)
      end
  end.

(** ** POST /api/products *)

(** The object literal of the handler, for the id and the price that were
    computed. *)
Definition record (id price : float) (body : value) (now : float) : obj :=
  let b := js_or body (VObj ∅) in
  let images := match prop b "images" with VUndef => VArr [] | v => v end in
  list_to_map
    [ ("id", VNum id);
      ("title", prop b "title");
      ("description", js_or (prop b "description") (VStr ""));
      ("price", VNum price);
      ("category", prop b "category");
      ("subcategory", js_or (prop b "subcategory") (VStr ""));
      ("images", match images with VArr _ => images | _ => VArr [] end);
      ("likes", VNum 0); ("dislikes", VNum 0);
      ("createdAt", VNum now) ].

(** The record [prod] that the handler builds: [nextId] and [Number(price)]
    may throw. *)
Definition new_product (items : list obj) (body : value) (now : float) : option obj :=
  id ← nextId items;
  price ← number_or_zero (prop (js_or body (VObj ∅)) "price");
  Some (record id price body now).

Definition POST_products (db : Low) (body : value) (now : float) : outcome * Low :=
  let b := js_or body (VObj ∅) in
  if negb (truthy (prop b "title")) || negb (truthy (prop b "category")) then
    (Sent (Json 400 (error "title and category are required")), db)
  else
    let db := read db in
    match new_product (products_or_empty db) body now with
    | None => (Threw, db)
    | Some prod =>
        match data db with
        | None => (Threw, db)                     (* push on undefined *)
        | Some ps =>
            let db := write (set_products db (ps ++ [prod])) in
            (Sent (Json 201 (VObj prod)), db)
        end
    end.

(** ** PUT /api/products/:id *)

(** [Number(p.id) === id]. *)
Definition has_id (id : float) (p : obj) : option bool :=
  n ← to_number (get p "id"); Some (Num.strict_eq n id).

(** [items.findIndex(f)] for a predicate that may throw; [Some None] for
    -1. *)
Fixpoint findIndex (f : obj -> option bool) (l : list obj) : option (option nat) :=
  match l with
  | [] => Some None
  | p :: l' =>
      match f p with
      | None => None
      | Some true => Some (Some 0%nat)
      | Some false =>
          match findIndex f l' with
          | None => None
          | Some i => Some (S <$> i)
          end
      end
  end.

(** [{ ...prev, ...body, id: prev.id }]. *)
Definition spread (prev : obj) (body : value) : obj :=
  <[ "id" := get prev "id" ]> (own_props body ∪ prev).

Definition PUT_products_id (db : Low) (id_param : string) (body : value) : outcome * Low :=
  let db := read db in
  let id := Str.to_number id_param in
  match findIndex (has_id id) (products_or_empty db) with
  | None => (Threw, db)
  | Some None => (Sent (Json 404 (error "Not found")), db)
  | Some (Some idx) =>
      match data db with
      | None => (Threw, db)
      | Some ps =>
          match ps !! idx with
          | None => (Threw, db)
          | Some prev =>
              let next := spread prev body in
              let db := write (set_products db (<[ idx := next ]> ps)) in
              (Sent (Json 200 (VObj next)), db)
          end
      end
  end.

(** ** DELETE /api/products/:id *)

(** [Number(p.id) !== id]. *)
Definition has_other_id (id : float) (p : obj) : option bool := negb <$> has_id id p.

Definition DELETE_products_id (db : Low) (id_param : string) : outcome * Low :=
  let db := read db in
  let id := Str.to_number id_param in
  match data db with
  | None => (Threw, db)                       (* length of undefined *)
  | Some ps =>
      let before := length ps in
      match filter_throwing (has_other_id id) ps with
      | None => (Threw, db)
      | Some kept =>
          let db := set_products db kept in
          if Nat.eqb (length (products_or_empty db)) before then
            (Sent (Json 404 (error "Not found")), db)
          else (Sent (End 204), write db)
      end
  end.

(** ** Bootstrap: the seed *)

Definition iphone (now : float) : obj :=
  list_to_map
    [ ("id", VNum 1); ("title", VStr "iPhone 13 Pro");
      ("description", VStr "Excellent condition, 256GB, Graphite.");
      ("price", VNum 799.0); ("category", VStr "Electronics");
      ("subcategory", VStr "Smartphones & Tablets");
      ("images", VArr [VStr "https://images.unsplash.com/photo-1603899124210-36e0f7a5a8f0?w=1200"]);
      ("likes", VNum 12); ("dislikes", VNum 1); ("createdAt", VNum now) ].

Definition gaming_chair (now : float) : obj :=
  list_to_map
    [ ("id", VNum 2); ("title", VStr "Gaming Chair");
      ("description", VStr "Ergonomic chair, adjustable armrests.");
      ("price", VNum 149.99); ("category", VStr "Home & Garden");
      ("subcategory", VStr "Furniture");
      ("images", VArr [VStr "https://images.unsplash.com/photo-1582582494700-1b1a3e6a96d2?w=1200"]);
      ("likes", VNum 3); ("dislikes", VNum 0); ("createdAt", VNum now) ].

(** The two records of the seed; [Date.now()] is read once for each. *)
Definition seed (now1 now2 : float) : list obj := [ iphone now1; gaming_chair now2 ].

(** The start of the process: read, and seed when [products] is no array or
    is empty (the default document of the store, and the one that
    [if (!db.data)] would set, have the empty array, which the seed replaces
    just the same). *)
Definition bootstrap (db : Low) (now1 now2 : float) : Low :=
  let db := read db in
  match data db with
  | Some (_ :: _) => db
  | _ => write (set_products db (seed now1 now2))
  end.

(** ** The order of binary64 numbers

    Every number but [NaN] has a rank, an integer that orders the numbers as
    [<] does: the value scaled by 2^1074 for a finite number, and a bound
    above all of them for the infinities. Both zeros have rank 0. *)

Definition rank_inf : Z := (2 ^ 2200)%Z.

Definition rank (x : spec_float) : Z :=
  match x with
  | S754_zero _ => 0%Z
  | S754_infinity s => if s then (- rank_inf)%Z else rank_inf
  | S754_nan => 0%Z
  | S754_finite s m e => cond_Zopp s (Zpos m * 2 ^ (e + 1074))%Z
  end.

Definition frank (x : float) : Z := rank (Prim2SF x).

(** How many low bits rounding to 53 bits drops from [m]. *)
Definition dropped (m : Z) : Z := Z.max 0 (Zdigits2 m - 53).

(** The number 1 as the specification of binary64 has it. *)
Definition SFone : spec_float := S754_finite false 4503599627370496 (-52).

(** Closes an equation between [Some c] and a comparison of integers. *)
Ltac compare_by_lia :=
  f_equal; symmetry;
  first [ apply Z.compare_eq_iff; lia | apply Z.compare_lt_iff; lia | apply Z.compare_gt_iff; lia ].

(** ** Conversions that return

    The numbers that the conversions of the handlers give where they give
    one; [numeric] is [Number] where it returns. *)

(** [Number(v) || 0]. *)
Definition numeric_or_zero (v : value) : float :=
  let n := numeric v in if Num.falsy n then 0%float else n.

(** [Number(p.id) === id]. *)
Definition answers_to (id : float) (p : obj) : bool :=
  Num.strict_eq (numeric (get p "id")) id.

(** [(p.k || 0)] as a number. *)
Definition key_number (k : string) (p : obj) : float := numeric (js_or (get p k) (VNum 0)).

(** [Number] can convert the id of every product: none is an object with a
    [toString] property, or an array that holds one. *)
Definition readable_ids (ps : list obj) : Prop :=
  forall p, p ∈ ps -> unprintable (get p "id") = false.

(** The sort of a list by a comparator that does not throw. *)
Fixpoint insert_by (cmp : obj -> obj -> float) (x : obj) (l : list obj) : list obj :=
  match l with
  | [] => [x]
  | y :: l' => if (0 <? cmp x y)%float then y :: insert_by cmp x l' else x :: l
  end.

Definition sorted_by (cmp : obj -> obj -> float) (l : list obj) : list obj :=
  fold_right (insert_by cmp) [] l.

(** [(a.k || 0) - (b.k || 0)] as a number. *)
Definition by_key (k : string) (a b : obj) : float := (key_number k a - key_number k b)%float.

(** ** The specification's formula for [nextId] *)

(** The numeric value of an id, a non-numeric or missing id counting as 0. *)
Definition numeric_id (p : obj) : float :=
  let n := numeric (get p "id") in if is_nan n then 0%float else n.

(** The greater of two numbers. *)
Definition greater (a b : float) : float := if (a <? b)%float then b else a.

(** [max(0, maximum over the items of the numeric id)]. *)
Definition max_id (items : list obj) : float :=
  fold_right (fun p m => greater (numeric_id p) m) 0%float items.

(** The accumulator of the [reduce] in [nextId], from [m] on, and the number
    that [nextId] returns, where the conversions return. *)
Definition reduced (items : list obj) (m : float) : float :=
  fold_left (fun m x => Num.max m (numeric_or_zero (get x "id"))) items m.

Definition next_number (items : list obj) : float :=
  let m := reduced items 0%float in ((if Num.falsy m then 0 else m) + 1)%float.

(** ** Uniqueness of ids *)




(** 2^53, the first number that adding 1 does not change. *)
Definition two_53 : float := 9007199254740992%float.

(** Every numeric id is below 2^53. *)
Definition safe_ids (ps : list obj) : Prop :=
  forall p, p ∈ ps -> (numeric_or_zero (get p "id") <? two_53)%float = true.

(** ** Requests *)

Inductive request : Type :=
  | GET (qry : query)
  | POST (body : value) (now : float)
  | PUT (id : string) (body : value)
  | DELETE (id : string).

Definition handle (db : Low) (r : request) : outcome * Low :=
  match r with
  | GET qry => GET_products db qry
  | POST body now => POST_products db body now
  | PUT id body => PUT_products_id db id body
  | DELETE id => DELETE_products_id db id
  end.

(** The store after a sequence of requests. *)
Definition run (db : Low) (rs : list request) : Low :=
  fold_left (fun db r => snd (handle db r)) rs db.

(** A store whose file holds the collection [ps]. *)
Definition stored (mem : option (list obj)) (ps : list obj) : Low :=
  {| data := mem; file := Some ps |}.

(** A store in which memory and file hold the collection [ps]. *)
Definition synced (ps : list obj) : Low := {| data := Some ps; file := Some ps |}.

(** ** Creation *)



(** ** Likes and dislikes *)



(** ** Scenarios *)

(** A body with the two required fields and nothing else. *)
Definition foo_bar : value := VObj (list_to_map [ ("title", VStr "Foo"); ("category", VStr "Bar") ]).


(** The store after the seed, at time 0. *)
Definition seeded : Low := synced (seed 0 0).

(** ** Listing *)

(** The body of the 200 answer of a list: [{ items }]. *)
Definition items_body (items : list obj) : value :=
  VObj {[ "items" := VArr (VObj <$> items) ]}.

(** The items of an answer. *)
Definition items_of (o : outcome) : list value :=
  match o with
  | Sent (Json _ (VObj b)) => match get b "items" with VArr l => l | _ => [] end
  | _ => []
  end.

(** The three filters of a list, in the order the handler applies them. *)
Definition filtered (qry : query) (ps : list obj) : option (list obj) :=
  by_text (q qry) (by_field "subcategory" (subcategory qry) (by_field "category" (category qry) ps)).

(** [t] occurs in [s]. *)
Definition substring (t s : string) : Prop := exists a b, s = (a ++ t ++ b)%string.

(** The text of a field for the text filter: the string it is, the empty
    string when it is absent (falsy), nothing when it is some other value. *)
Definition field_text (v : value) : option string :=
  match v with
  | VStr s => Some s
  | _ => if truthy v then None else Some EmptyString
  end.

(** The lowercased query occurs in the lowercased title or description. *)
Definition text_matches (s : string) (p : obj) : Prop :=
  (exists t, field_text (get p "title") = Some t /\
             substring (Str.toLowerCase s) (Str.toLowerCase t)) \/
  (exists d, field_text (get p "description") = Some d /\
             substring (Str.toLowerCase s) (Str.toLowerCase d)).

(** A product passes every filter that the query has with a value that is
    not the empty string. *)
Definition kept_by (qry : query) (p : obj) : Prop :=
  (forall c, category qry = Some c -> c <> EmptyString -> get p "category" = VStr c) /\
  (forall c, subcategory qry = Some c -> c <> EmptyString -> get p "subcategory" = VStr c) /\
  (forall s, q qry = Some s -> s <> EmptyString -> text_matches s p).

(** The title and the description are strings where they are there. *)
Definition texts_are_strings (p : obj) : Prop :=
  field_text (get p "title") <> None /\ field_text (get p "description") <> None.

(** The key of the sort is a number for every product of the list. *)
Definition numbered (k : string) (l : list obj) : Prop :=
  forall p, p ∈ l -> is_nan (key_number k p) = false.

(** The list is in ascending, resp. descending, order of the key. *)
Definition ascending (k : string) (l : list obj) : Prop :=
  StronglySorted (fun a b => (key_number k a <=? key_number k b)%float = true) l.

Definition descending (k : string) (l : list obj) : Prop :=
  StronglySorted (fun a b => (key_number k b <=? key_number k a)%float = true) l.

(** A product that has only a price. *)
Definition priced (n : float) : obj := {[ "price" := VNum n ]}.

(** ** Compositions and edge cases *)

(** The body passes the check of the required fields. *)
Definition accepted (body : value) : Prop :=
  truthy (prop (js_or body (VObj ∅)) "title") = true /\
  truthy (prop (js_or body (VObj ∅)) "category") = true.

(** The text filter for the query [s] throws on the product: its title is
    truthy and no string, or its title does not match and its description
    is truthy and no string. *)
Definition breaks_search (s : string) (p : obj) : Prop :=
  field_text (get p "title") = None \/
  (exists t, field_text (get p "title") = Some t /\
             ~ substring (Str.toLowerCase s) (Str.toLowerCase t) /\
             field_text (get p "description") = None).

(** The product passes the category and the subcategory filter of the
    query. *)
Definition in_category (qry : query) (p : obj) : Prop :=
  (forall c, category qry = Some c -> c <> EmptyString -> get p "category" = VStr c) /\
  (forall c, subcategory qry = Some c -> c <> EmptyString -> get p "subcategory" = VStr c).

(** No two products of the list have equal keys. *)
Definition distinct_keys (k : string) (l : list obj) : Prop :=
  forall i j p q, l !! i = Some p -> l !! j = Some q ->
                  (key_number k p =? key_number k q)%float = true -> i = j.

(** The query of a list that has no text and no price order. *)
Definition newest_first (qry : query) : Prop :=
  (q qry = None \/ q qry = Some EmptyString) /\
  comparator (default "newest" (sort qry)) = newest.


(** The property that the sort of the query reads, and its comparator as
    a number. *)
Definition sort_field (s : string) : string :=
  if String.eqb s "price-asc" || String.eqb s "price-desc" then "price" else "createdAt".

Definition comparator_number (s : string) : obj -> obj -> float :=
  if String.eqb s "price-asc" then by_key "price"
  else if String.eqb s "price-desc" then fun a b => by_key "price" b a
  else fun a b => by_key "createdAt" b a.

(** The sort key of every product of the list can be converted. *)
Definition readable_keys (k : string) (l : list obj) : Prop :=
  forall p, p ∈ l -> unprintable (js_or (get p k) (VNum 0)) = false.

(** ** What a JSON text holds

    The values that [JSON.stringify] writes and [JSON.parse] gives back as
    they were: no [undefined] (it is dropped from an object and written as
    null in an array), no [NaN] or infinity (written as null), no [-0]
    (written as 0). For them what is written to the file is what a read
    gives, and what [res.json] sends is what the client reads. *)
Inductive storable : value -> Prop :=
  | storable_null : storable VNull
  | storable_bool (b : bool) : storable (VBool b)
  | storable_num (n : float) :
      is_finite n = true -> Leibniz.eqb n neg_zero = false -> storable (VNum n)
  | storable_str (s : string) : storable (VStr s)
  | storable_arr (l : list value) : Forall storable l -> storable (VArr l)
  | storable_obj (o : obj) : (forall k v, o !! k = Some v -> storable v) -> storable (VObj o).

Definition storable_products (ps : list obj) : Prop := Forall (fun p => storable (VObj p)) ps.

(** ** Texts in ASCII

    On a text in ASCII [Str.toLowerCase], which lowers the letters A to Z,
    is the [toLowerCase] of the engine. *)
Definition ascii_text (s : string) : bool :=
  forallb (fun a => (N_of_ascii a <? 128)%N) (list_ascii_of_string s).

Definition plain (v : value) : Prop := forall s, v = VStr s -> ascii_text s = true.

(** The text of the query, when it has one, and the titles and descriptions
    of the products are in ASCII. *)
Definition ascii_texts (qry : query) (ps : list obj) : Prop :=
  forall s, q qry = Some s -> s <> EmptyString ->
    ascii_text s = true /\
    forall p, p ∈ ps -> plain (get p "title") /\ plain (get p "description").

(** Three products, of the prices 3, 2 and 1. *)
Definition three_prices : list obj :=
  [ list_to_map [ ("id", VNum 1); ("price", VNum 3) ];
    list_to_map [ ("id", VNum 2); ("price", VNum 2) ];
    list_to_map [ ("id", VNum 3); ("price", VNum 1) ] ].

(** A value that [Number] cannot convert: an object with a [toString]
    property, which is no function. *)
Definition no_number : value := VObj {[ "toString" := VNum 1 ]}.

(** ** Request bodies

    What [express.json()] hands to a handler as [req.body]: an object or an
    array, the JSON texts that the strict mode of the parser accepts, or
    nothing where the request has no JSON body. Any other JSON text is
    answered 400 by the middleware and reaches no handler. *)
Definition request_body (v : value) : Prop :=
  v = VUndef \/ (exists o, v = VObj o) \/ exists l, v = VArr l.
(** ** Facts of binary64 arithmetic *)

Section IEEE754.
Local Open Scope Z_scope.

Lemma digits2_pos_bounds (m : positive) :
  2 ^ (Zpos (digits2_pos m) - 1) <= Zpos m < 2 ^ Zpos (digits2_pos m).
Proof.
  induction m as [m IH | m IH |]; cbn [digits2_pos].
  - rewrite Pos2Z.inj_succ. replace (Z.succ (Zpos (digits2_pos m)) - 1) with (Zpos (digits2_pos m)) by lia.
    rewrite Z.pow_succ_r by lia.
    assert (H : 2 ^ Zpos (digits2_pos m) = 2 * 2 ^ (Zpos (digits2_pos m) - 1)).
    { rewrite <- Z.pow_succ_r by lia. f_equal. lia. }
    lia.
  - rewrite Pos2Z.inj_succ. replace (Z.succ (Zpos (digits2_pos m)) - 1) with (Zpos (digits2_pos m)) by lia.
    rewrite Z.pow_succ_r by lia.
    assert (H : 2 ^ Zpos (digits2_pos m) = 2 * 2 ^ (Zpos (digits2_pos m) - 1)).
    { rewrite <- Z.pow_succ_r by lia. f_equal. lia. }
    lia.
  - cbn. lia.
Qed.

Lemma pow2_pos (n : Z) : 0 <= n -> 0 < 2 ^ n.
Proof. intros. apply Z.pow_pos_nonneg; lia. Qed.

Lemma pow2_le (a b : Z) : 0 <= a <= b -> 2 ^ a <= 2 ^ b.
Proof. intros. apply Z.pow_le_mono_r; lia. Qed.

Lemma pow2_lt (a b : Z) : 0 <= a < b -> 2 ^ a < 2 ^ b.
Proof. intros. apply Z.pow_lt_mono_r; lia. Qed.

(** What validity says of a finite binary64. *)
Lemma bounded_inv (m : positive) (e : Z) :
  bounded prec emax m e = true ->
  -1074 <= e <= 971 /\ Zpos m < 2 ^ 53 /\ (-1074 < e -> 2 ^ 52 <= Zpos m).
Proof.
  unfold bounded, canonical_mantissa, fexp, SpecFloat.emin, prec, emax.
  rewrite andb_true_iff, Z.eqb_eq, Z.leb_le.
  intros [Hc He]. pose proof (digits2_pos_bounds m) as [Hlo Hhi].
  set (d := Zpos (digits2_pos m)) in *.
  assert (Hd : 0 < d) by (subst d; lia).
  split; [lia |]. split.
  - assert (d <= 53) by lia.
    pose proof (pow2_le d 53 ltac:(lia)). lia.
  - intros Hgt. assert (d = 53) by lia.
    replace (d - 1) with 52 in Hlo by lia. exact Hlo.
Qed.

Lemma finite_rank_bound (m : positive) (e : Z) :
  bounded prec emax m e = true -> 0 < Zpos m * 2 ^ (e + 1074) < rank_inf.
Proof.
  intros H. apply bounded_inv in H as (He & Hm & _).
  pose proof (pow2_pos (e + 1074) ltac:(lia)).
  pose proof (pow2_le (e + 1074) 2045 ltac:(lia)).
  split; [lia |].
  apply Z.lt_le_trans with (2 ^ 53 * 2 ^ 2045).
  - apply Z.le_lt_trans with (Zpos m * 2 ^ 2045); [nia |].
    apply Z.mul_lt_mono_pos_r; [apply pow2_pos; lia | lia].
  - rewrite <- Z.pow_add_r by lia. unfold rank_inf. apply pow2_le. lia.
Qed.

(** On valid mantissas the order by exponent, then mantissa, is the order of
    the values. *)
Lemma finite_compare (m1 m2 : positive) (e1 e2 : Z) :
  bounded prec emax m1 e1 = true -> bounded prec emax m2 e2 = true ->
  match e1 ?= e2 with
  | Lt => Lt
  | Gt => Gt
  | Eq => Pos.compare_cont Eq m1 m2
  end = (Zpos m1 * 2 ^ (e1 + 1074) ?= Zpos m2 * 2 ^ (e2 + 1074)).
Proof.
  intros H1 H2.
  apply bounded_inv in H1 as (He1 & Hm1 & Hn1).
  apply bounded_inv in H2 as (He2 & Hm2 & Hn2).
  assert (Hstep : forall ma mb ea eb, -1074 <= ea < eb -> Zpos ma < 2 ^ 53 ->
            2 ^ 52 <= Zpos mb -> Zpos ma * 2 ^ (ea + 1074) < Zpos mb * 2 ^ (eb + 1074)).
  { intros ma mb ea eb Hab Ha Hb.
    pose proof (pow2_pos (ea + 1074) ltac:(lia)) as Hp.
    replace (eb + 1074) with ((eb - ea - 1) + 1 + (ea + 1074)) by lia.
    rewrite (Z.pow_add_r 2 (eb - ea - 1 + 1) (ea + 1074)) by lia.
    rewrite (Z.pow_add_r 2 (eb - ea - 1) 1) by lia.
    pose proof (pow2_pos (eb - ea - 1) ltac:(lia)) as Hq.
    change (2 ^ 1) with 2.
    assert (Hs : Zpos ma < Zpos mb * (2 ^ (eb - ea - 1) * 2)).
    { assert (E : 2 ^ 53 = 2 ^ 52 * 2) by reflexivity. rewrite E in Ha.
      generalize dependent (2 ^ 52). generalize dependent (2 ^ (eb - ea - 1)).
      intros a Ha c Hc1 Hc2. nia. }
    rewrite Z.mul_assoc.
    apply Z.mul_lt_mono_pos_r; [exact Hp | exact Hs]. }
  destruct (Z.compare_spec e1 e2) as [Heq | Hlt | Hgt].
  - subst e2. pose proof (pow2_pos (e1 + 1074) ltac:(lia)) as Hp.
    rewrite <- Zmult_compare_compat_r by lia. reflexivity.
  - symmetry. apply Z.compare_lt_iff. apply Hstep; [lia | lia | apply Hn2; lia].
  - symmetry. apply Z.compare_gt_iff. apply Hstep; [lia | lia | apply Hn1; lia].
Qed.

Lemma rank_inf_pos : 0 < rank_inf.
Proof. unfold rank_inf. apply pow2_pos. lia. Qed.

(** The comparison of two valid numbers is the comparison of their ranks. *)
Lemma SFcompare_rank (x y : spec_float) :
  valid_binary x = true -> valid_binary y = true ->
  x <> S754_nan -> y <> S754_nan ->
  SFcompare x y = Some (rank x ?= rank y).
Proof.
  intros Vx Vy Nx Ny. pose proof rank_inf_pos as Ht.
  destruct x as [sx | sx | | sx mx ex]; [| | congruence |];
    destruct y as [sy | sy | | sy my ey]; try congruence; cbn [SFcompare rank].
  - reflexivity.
  - destruct sy; compare_by_lia.
  - cbn in Vy. pose proof (finite_rank_bound _ _ Vy).
    destruct sy; cbn [cond_Zopp]; compare_by_lia.
  - destruct sx; compare_by_lia.
  - destruct sx, sy; compare_by_lia.
  - cbn in Vy. pose proof (finite_rank_bound _ _ Vy).
    destruct sx, sy; cbn [cond_Zopp]; compare_by_lia.
  - cbn in Vx. pose proof (finite_rank_bound _ _ Vx).
    destruct sx; cbn [cond_Zopp]; compare_by_lia.
  - cbn in Vx. pose proof (finite_rank_bound _ _ Vx).
    destruct sx, sy; cbn [cond_Zopp]; compare_by_lia.
  - cbn in Vx, Vy. pose proof (finite_rank_bound _ _ Vx). pose proof (finite_rank_bound _ _ Vy).
    destruct sx, sy; cbn [cond_Zopp].
    + f_equal. rewrite Z.compare_opp. rewrite <- (finite_compare my mx ey ex Vy Vx).
      rewrite (Z.compare_antisym ey ex). destruct (ey ?= ex); cbn; try reflexivity.
      rewrite (Pos.compare_cont_antisym). cbn. reflexivity.
    + compare_by_lia.
    + compare_by_lia.
    + f_equal. apply finite_compare; assumption.
Qed.

(** ** Rounding *)

Lemma shr_1_m (r : shr_record) : 0 <= shr_m r -> shr_m (shr_1 r) = shr_m r / 2.
Proof.
  destruct r as [m b s]. cbn [shr_m]. intros Hm.
  destruct m as [| p | p]; [reflexivity | | lia].
  destruct p as [p | p |]; cbn [shr_1 shr_m].
  - rewrite Pos2Z.inj_xI. apply Z.div_unique with 1; lia.
  - rewrite Pos2Z.inj_xO. apply Z.div_unique with 0; lia.
  - reflexivity.
Qed.

Lemma pow2_xO (p : positive) : 2 ^ Zpos p~0 = 2 ^ Zpos p * 2 ^ Zpos p.
Proof. rewrite Pos2Z.inj_xO, <- Z.pow_add_r by lia. f_equal. lia. Qed.

Lemma pow2_xI (p : positive) : 2 ^ Zpos p~1 = 2 * (2 ^ Zpos p * 2 ^ Zpos p).
Proof.
  rewrite Pos2Z.inj_xI, <- Z.pow_add_r by lia.
  replace (2 * Zpos p + 1) with (Z.succ (Zpos p + Zpos p)) by lia.
  apply Z.pow_succ_r. lia.
Qed.

Lemma iter_pos_shr_m (p : positive) (r : shr_record) :
  0 <= shr_m r -> shr_m (SpecFloat.iter_pos shr_1 p r) = shr_m r / 2 ^ Zpos p.
Proof.
  revert r. induction p as [p IH | p IH |]; intros r Hr; cbn [SpecFloat.iter_pos].
  - assert (H1 : 0 <= shr_m (shr_1 r)) by (rewrite shr_1_m by lia; apply Z.div_pos; lia).
    assert (H2 : 0 <= shr_m (SpecFloat.iter_pos shr_1 p (shr_1 r)))
      by (rewrite IH by lia; apply Z.div_pos; [lia | apply pow2_pos; lia]).
    rewrite IH, IH, shr_1_m by lia.
    pose proof (pow2_pos (Zpos p) ltac:(lia)).
    rewrite !Z.div_div by lia. f_equal.
    rewrite pow2_xI. lia.
  - assert (H2 : 0 <= shr_m (SpecFloat.iter_pos shr_1 p r))
      by (rewrite IH by lia; apply Z.div_pos; [lia | apply pow2_pos; lia]).
    rewrite IH, IH by lia.
    pose proof (pow2_pos (Zpos p) ltac:(lia)).
    rewrite !Z.div_div by lia. f_equal.
    rewrite pow2_xO. lia.
  - rewrite shr_1_m by lia. reflexivity.
Qed.

Lemma shr_record_of_loc_m (m : Z) (l : location) : shr_m (shr_record_of_loc m l) = m.
Proof. destruct l as [| []]; reflexivity. Qed.

Lemma shr_fexp_spec (m e : Z) (l : location) :
  0 < m -> -1074 <= e ->
  snd (shr_fexp prec emax m e l) = e + dropped m /\
  shr_m (fst (shr_fexp prec emax m e l)) = m / 2 ^ dropped m.
Proof.
  intros Hm He. unfold shr_fexp, shr, fexp, SpecFloat.emin, prec, emax, dropped.
  destruct m as [| p | p]; try lia. cbn [Zdigits2].
  set (d := Zpos (digits2_pos p)).
  destruct (Z.max (d + e - 53) (3 - 1024 - 53) - e) as [| n | n] eqn:En; cbn [fst snd].
  - rewrite shr_record_of_loc_m. replace (Z.max 0 (d - 53)) with 0 by lia.
    rewrite Z.div_1_r. lia.
  - replace (Z.max 0 (d - 53)) with (Zpos n) by lia.
    rewrite iter_pos_shr_m by (rewrite shr_record_of_loc_m; lia).
    rewrite shr_record_of_loc_m. split; reflexivity.
  - rewrite shr_record_of_loc_m. replace (Z.max 0 (d - 53)) with 0 by lia.
    rewrite Z.div_1_r. lia.
Qed.

Lemma Zdigits2_bounds (m : Z) :
  0 < m -> 2 ^ (Zdigits2 m - 1) <= m < 2 ^ Zdigits2 m /\ 0 < Zdigits2 m.
Proof.
  destruct m as [| p | p]; try lia. intros _. cbn [Zdigits2].
  split; [apply digits2_pos_bounds | lia].
Qed.

(** Dropping the low bits leaves a positive mantissa of at most 53 bits. *)
Lemma dropped_quotient (m : Z) :
  0 < m -> 0 < m / 2 ^ dropped m < 2 ^ 53 /\ 0 <= dropped m.
Proof.
  intros Hm. pose proof (Zdigits2_bounds m Hm) as [[Hlo Hhi] Hd].
  unfold dropped. set (d := Zdigits2 m) in *.
  destruct (Z.max_spec 0 (d - 53)) as [[Hc ->] | [Hc ->]].
  - assert (E : 2 ^ d = 2 ^ 53 * 2 ^ (d - 53)) by (rewrite <- Z.pow_add_r by lia; f_equal; lia).
    pose proof (pow2_pos (d - 53) ltac:(lia)) as Hp.
    split; [| lia]. split.
    + apply Z.div_str_pos. split; [exact Hp |].
      apply Z.le_trans with (2 ^ (d - 1)); [apply pow2_le; lia | exact Hlo].
    + apply Z.div_lt_upper_bound; [exact Hp |]. lia.
  - rewrite Z.div_1_r. split; [| lia]. split; [lia |].
    apply Z.lt_le_trans with (2 ^ d); [exact Hhi | apply pow2_le; lia].
Qed.

Lemma round_nearest_even_bounds (m : Z) (l : location) :
  m <= round_nearest_even m l <= m + 1.
Proof. destruct l as [| []]; cbn; try lia. destruct (Z.even m); lia. Qed.

(** The shape of a rounded positive mantissa: the sign is kept, the result is
    no zero and is at least the mantissa cut to 53 bits. *)
Lemma binary_round_aux_spec (s : bool) (m e : Z) (l : location) :
  0 < m -> -1074 <= e ->
  match binary_round_aux prec emax s m e l with
  | S754_infinity s' => s' = s
  | S754_finite s' m' e' =>
      s' = s /\ (m / 2 ^ dropped m) * 2 ^ (e + dropped m + 1074) <= Zpos m' * 2 ^ (e' + 1074)
  | _ => False
  end.
Proof.
  intros Hm He. unfold binary_round_aux.
  pose proof (shr_fexp_spec m e l Hm He) as [E1 M1].
  destruct (shr_fexp prec emax m e l) as [r1 e1]. cbn [fst snd] in E1, M1.
  pose proof (dropped_quotient m Hm) as [[Q1 Q2] Q3].
  pose proof (round_nearest_even_bounds (shr_m r1) (loc_of_shr_record r1)) as Hr.
  remember (round_nearest_even (shr_m r1) (loc_of_shr_record r1)) as m1 eqn:Em1.
  rewrite M1 in Hr. clear Em1 M1 r1.
  remember (m / 2 ^ dropped m) as t eqn:Et. clear Et.
  assert (Hm1 : 0 < m1) by lia.
  assert (He1 : -1074 <= e1) by lia.
  pose proof (shr_fexp_spec m1 e1 loc_Exact Hm1 He1) as [E2 M2].
  destruct (shr_fexp prec emax m1 e1 loc_Exact) as [r2 e2]. cbn [fst snd] in E2, M2.
  pose proof (dropped_quotient m1 Hm1) as [[Q4 Q5] Q6].
  assert (Hcarry : dropped m1 = 0 \/ (dropped m1 = 1 /\ m1 = 2 ^ 53)).
  { pose proof (Zdigits2_bounds m1 Hm1) as [[Dlo Dhi] Dpos].
    unfold dropped. destruct (Z.max_spec 0 (Zdigits2 m1 - 53)) as [[Hc ->] | [Hc ->]];
      [right | left; reflexivity].
    assert (Hd : Zdigits2 m1 = 54).
    { destruct (Z.le_gt_cases (Zdigits2 m1) 54) as [|Hgt]; [lia |].
      exfalso. pose proof (pow2_le 54 (Zdigits2 m1 - 1) ltac:(lia)).
      assert (2 ^ 53 < 2 ^ 54) by (apply pow2_lt; lia). lia. }
    rewrite Hd in *. change (54 - 1) with 53 in Dlo. split; lia. }
  rewrite M2. destruct (m1 / 2 ^ dropped m1) as [| p | p] eqn:Ep; try lia.
  assert (Hval : t * 2 ^ (e + dropped m + 1074) <= Zpos p * 2 ^ (e2 + 1074)).
  { rewrite <- Ep, E2, E1.
    pose proof (pow2_pos (e + dropped m + 1074) ltac:(lia)) as Hp.
    destruct Hcarry as [Hd0 | [Hd1 Hm53]].
    - rewrite Hd0, Z.div_1_r, Z.add_0_r. apply Z.mul_le_mono_nonneg_r; lia.
    - rewrite Hd1.
      assert (Hq : m1 / 2 ^ 1 = 2 ^ 52) by (rewrite Hm53; reflexivity).
      rewrite Hq.
      replace (e + dropped m + 1 + 1074) with (Z.succ (e + dropped m + 1074)) by lia.
      rewrite Z.pow_succ_r, Z.mul_assoc by lia.
      apply Z.mul_le_mono_nonneg_r; [lia |]. rewrite Hm53 in Hr. lia. }
  destruct (e2 <=? emax - prec); [split; [reflexivity | exact Hval] | reflexivity].
Qed.

Lemma pos_iter_xO (m d : positive) : Zpos (Pos.iter xO m d) = Zpos m * 2 ^ Zpos d.
Proof.
  induction d as [| d IH] using Pos.peano_ind.
  - cbn. lia.
  - rewrite Pos.iter_succ, Pos2Z.inj_xO, IH, Pos2Z.inj_succ, Z.pow_succ_r by lia. lia.
Qed.

(** Aligning a mantissa to a smaller exponent keeps the value. *)
Lemma shl_align_spec (m : positive) (e e' : Z) :
  -1074 <= e -> -1074 <= e' ->
  -1074 <= snd (shl_align m e e') /\ snd (shl_align m e e') = Z.min e e' /\
  Zpos (fst (shl_align m e e')) * 2 ^ (snd (shl_align m e e') + 1074) = Zpos m * 2 ^ (e + 1074).
Proof.
  intros He He'. unfold shl_align. destruct (e' - e) as [| d | d] eqn:Ed; cbn [fst snd].
  - split; [lia |]. split; [lia | reflexivity].
  - split; [lia |]. split; [lia | reflexivity].
  - split; [lia |]. split; [lia |].
    rewrite pos_iter_xO. replace (e + 1074) with (Zpos d + (e' + 1074)) by lia.
    rewrite (Z.pow_add_r 2 (Zpos d) (e' + 1074)) by lia. ring.
Qed.

(** Rounding a positive value: the sign is kept, there is no underflow to
    zero, and below 2^53 the result is less than one unit under the value. *)
Lemma binary_round_spec (s : bool) (m : positive) (e : Z) :
  -1074 <= e ->
  match binary_round prec emax s m e with
  | S754_infinity s' => s' = s
  | S754_finite s' m' e' =>
      s' = s /\
      (Zpos m * 2 ^ (e + 1074) < 2 ^ 1127 ->
       Zpos m * 2 ^ (e + 1074) - 2 ^ 1074 < Zpos m' * 2 ^ (e' + 1074))
  | _ => False
  end.
Proof.
  intros He. unfold binary_round.
  assert (Hf : -1074 <= fexp prec emax (Zpos (digits2_pos m) + e))
    by (unfold fexp, SpecFloat.emin, prec, emax; lia).
  pose proof (shl_align_spec m e _ He Hf) as (Hz & _ & Hv).
  destruct (shl_align m e (fexp prec emax (Zpos (digits2_pos m) + e))) as [mz ez].
  cbn [fst snd] in Hz, Hv.
  pose proof (binary_round_aux_spec s (Zpos mz) ez loc_Exact ltac:(lia) Hz) as Ha.
  destruct (binary_round_aux prec emax s (Zpos mz) ez loc_Exact) as [| | | s' m' e']; try exact Ha.
  destruct Ha as [Hs Hle]. split; [exact Hs |].
  rewrite <- Hv. intros Hsmall.
  apply Z.lt_le_trans with (2 := Hle).
  pose proof (Zdigits2_bounds (Zpos mz) ltac:(lia)) as [[Dlo Dhi] Dpos].
  pose proof (pow2_pos (ez + 1074) ltac:(lia)) as Hp.
  unfold dropped. destruct (Z.max_spec 0 (Zdigits2 (Zpos mz) - 53)) as [[Hc ->] | [Hc ->]].
  - set (d := Zdigits2 (Zpos mz)) in *.
    assert (Hde : d + ez <= 53).
    { destruct (Z.le_gt_cases (d + ez) 53) as [| Hgt]; [assumption | exfalso].
      assert (2 ^ 1127 <= 2 ^ (d - 1) * 2 ^ (ez + 1074)).
      { rewrite <- Z.pow_add_r by lia. apply pow2_le. lia. }
      assert (2 ^ (d - 1) * 2 ^ (ez + 1074) <= Zpos mz * 2 ^ (ez + 1074))
        by (apply Z.mul_le_mono_nonneg_r; lia).
      lia. }
    pose proof (pow2_pos (d - 53) ltac:(lia)) as Hq.
    replace (ez + (d - 53) + 1074) with ((d - 53) + (ez + 1074)) by lia.
    rewrite (Z.pow_add_r 2 (d - 53) (ez + 1074)), Z.mul_assoc by lia.
    pose proof (Z.div_mod (Zpos mz) (2 ^ (d - 53)) ltac:(lia)) as Hdm.
    pose proof (Z.mod_pos_bound (Zpos mz) (2 ^ (d - 53)) Hq) as Hmod.
    assert (Hcut : Zpos mz - 2 ^ (d - 53) < Zpos mz / 2 ^ (d - 53) * 2 ^ (d - 53)) by lia.
    assert (Hunit : 2 ^ (d - 53) * 2 ^ (ez + 1074) <= 2 ^ 1074).
    { rewrite <- Z.pow_add_r by lia. apply pow2_le. lia. }
    apply Z.le_lt_trans with ((Zpos mz - 2 ^ (d - 53)) * 2 ^ (ez + 1074)).
    + rewrite Z.mul_sub_distr_r. lia.
    + apply Z.mul_lt_mono_pos_r; [exact Hp | exact Hcut].
  - rewrite Z.div_1_r, Z.add_0_r.
    assert (0 < 2 ^ 1074) by (apply pow2_pos; lia). lia.
Qed.

Lemma binary_normalize_sign (d e : Z) :
  -1074 <= e ->
  match binary_normalize prec emax d e false with
  | S754_zero s => d = 0 /\ s = false
  | S754_infinity s | S754_finite s _ _ => if s then d < 0 else 0 < d
  | S754_nan => False
  end.
Proof.
  intros He. destruct d as [| p | p]; cbn [binary_normalize].
  - split; reflexivity.
  - pose proof (binary_round_spec false p e He) as H.
    destruct (binary_round prec emax false p e) as [s' | s' | | s' m' e']; try contradiction.
    + subst s'. lia.
    + destruct H as [-> _]. lia.
  - pose proof (binary_round_spec true p e He) as H.
    destruct (binary_round prec emax true p e) as [s' | s' | | s' m' e']; try contradiction.
    + subst s'. lia.
    + destruct H as [-> _]. lia.
Qed.

Lemma valid_exponent (s : bool) (m : positive) (e : Z) :
  valid_binary (S754_finite s m e) = true -> -1074 <= e.
Proof. cbn. intros H. apply bounded_inv in H. lia. Qed.

(** The sign of a difference is the order of its operands. *)
Lemma SFsub_sign (x y : spec_float) :
  valid_binary x = true -> valid_binary y = true ->
  x <> S754_nan -> y <> S754_nan ->
  SFltb (S754_zero false) (SFsub prec emax x y) = (rank y <? rank x) /\
  SFltb (SFsub prec emax x y) (S754_zero false) = (rank x <? rank y).
Proof.
  intros Vx Vy Nx Ny. pose proof rank_inf_pos as Ht.
  assert (Hlt : forall a b, a < b -> (a <? b) = true /\ (b <? a) = false)
    by (intros; split; [apply Z.ltb_lt | apply Z.ltb_ge]; lia).
  assert (Heq : forall a, (a <? a) = false) by (intros; apply Z.ltb_irrefl).
  destruct x as [sx | sx | | sx mx ex]; [| | congruence |];
    destruct y as [sy | sy | | sy my ey]; try congruence;
    cbn [SFsub rank].
  - destruct sx, sy; cbn; split; reflexivity.
  - destruct sy; cbn [negb SFltb SFcompare].
    + destruct (Hlt (- rank_inf) 0 ltac:(lia)) as [-> ->]. split; reflexivity.
    + destruct (Hlt 0 rank_inf ltac:(lia)) as [-> ->]. split; reflexivity.
  - pose proof (finite_rank_bound _ _ Vy).
    destruct sy; cbn [negb SFltb SFcompare cond_Zopp].
    + destruct (Hlt (- (Zpos my * 2 ^ (ey + 1074))) 0 ltac:(lia)) as [-> ->]. split; reflexivity.
    + destruct (Hlt 0 (Zpos my * 2 ^ (ey + 1074)) ltac:(lia)) as [-> ->]. split; reflexivity.
  - destruct sx; cbn [SFltb SFcompare].
    + destruct (Hlt (- rank_inf) 0 ltac:(lia)) as [-> ->]. split; reflexivity.
    + destruct (Hlt 0 rank_inf ltac:(lia)) as [-> ->]. split; reflexivity.
  - destruct sx, sy; cbn [SFltb SFcompare].
    + rewrite Heq. split; reflexivity.
    + destruct (Hlt (- rank_inf) rank_inf ltac:(lia)) as [-> ->]. split; reflexivity.
    + destruct (Hlt (- rank_inf) rank_inf ltac:(lia)) as [-> ->]. split; reflexivity.
    + rewrite Heq. split; reflexivity.
  - pose proof (finite_rank_bound _ _ Vy).
    destruct sx; cbn [SFltb SFcompare].
    + destruct (Hlt (- rank_inf) (cond_Zopp sy (Zpos my * 2 ^ (ey + 1074)))
                  ltac:(destruct sy; cbn [cond_Zopp]; lia)) as [-> ->]. split; reflexivity.
    + destruct (Hlt (cond_Zopp sy (Zpos my * 2 ^ (ey + 1074))) rank_inf
                  ltac:(destruct sy; cbn [cond_Zopp]; lia)) as [-> ->]. split; reflexivity.
  - pose proof (finite_rank_bound _ _ Vx).
    destruct sx; cbn [SFltb SFcompare cond_Zopp].
    + destruct (Hlt (- (Zpos mx * 2 ^ (ex + 1074))) 0 ltac:(lia)) as [-> ->]. split; reflexivity.
    + destruct (Hlt 0 (Zpos mx * 2 ^ (ex + 1074)) ltac:(lia)) as [-> ->]. split; reflexivity.
  - pose proof (finite_rank_bound _ _ Vx).
    destruct sy; cbn [negb SFltb SFcompare].
    + destruct (Hlt (- rank_inf) (cond_Zopp sx (Zpos mx * 2 ^ (ex + 1074)))
                  ltac:(destruct sx; cbn [cond_Zopp]; lia)) as [-> ->]. split; reflexivity.
    + destruct (Hlt (cond_Zopp sx (Zpos mx * 2 ^ (ex + 1074))) rank_inf
                  ltac:(destruct sx; cbn [cond_Zopp]; lia)) as [-> ->]. split; reflexivity.
  - pose proof (valid_exponent _ _ _ Vx) as Hex. pose proof (valid_exponent _ _ _ Vy) as Hey.
    pose proof (shl_align_spec mx ex (Z.min ex ey) Hex ltac:(lia)) as (_ & Ea & Va).
    pose proof (shl_align_spec my ey (Z.min ex ey) Hey ltac:(lia)) as (_ & Eb & Vb).
    replace (Z.min ex (Z.min ex ey)) with (Z.min ex ey) in Ea by lia. replace (Z.min ey (Z.min ex ey)) with (Z.min ex ey) in Eb by lia.
    rewrite Ea in Va. rewrite Eb in Vb.
    set (a := Zpos (fst (shl_align mx ex (Z.min ex ey)))) in *.
    set (b := Zpos (fst (shl_align my ey (Z.min ex ey)))) in *.
    set (ez := Z.min ex ey) in *.
    pose proof (pow2_pos (ez + 1074) ltac:(lia)) as Hp.
    assert (Hd : (cond_Zopp sx a - cond_Zopp sy b) * 2 ^ (ez + 1074)
                 = cond_Zopp sx (Zpos mx * 2 ^ (ex + 1074)) - cond_Zopp sy (Zpos my * 2 ^ (ey + 1074))).
    { rewrite <- Va, <- Vb. destruct sx, sy; cbn [cond_Zopp]; lia. }
    set (rx := cond_Zopp sx (Zpos mx * 2 ^ (ex + 1074))) in *.
    set (ry := cond_Zopp sy (Zpos my * 2 ^ (ey + 1074))) in *.
    pose proof (binary_normalize_sign (cond_Zopp sx a - cond_Zopp sy b) ez ltac:(lia)) as Hn.
    set (d := cond_Zopp sx a - cond_Zopp sy b) in *.
    destruct (binary_normalize prec emax d ez false) as [s | s | | s m e]; [| | contradiction |].
    + destruct Hn as [Hd0 ->]. rewrite Hd0 in Hd. cbn [SFltb SFcompare].
      replace ry with rx by lia. rewrite Heq. split; reflexivity.
    + destruct s; cbn [SFltb SFcompare].
      * destruct (Hlt rx ry ltac:(nia)) as [-> ->]. split; reflexivity.
      * destruct (Hlt ry rx ltac:(nia)) as [-> ->]. split; reflexivity.
    + destruct s; cbn [SFltb SFcompare].
      * destruct (Hlt rx ry ltac:(nia)) as [-> ->]. split; reflexivity.
      * destruct (Hlt ry rx ltac:(nia)) as [-> ->]. split; reflexivity.
Qed.

(** Adding one to a number from 0 to below 2^53 - 1 gives a larger number:
    the sum is below 2^53, where rounding loses less than one unit. *)
Lemma SFadd_one_gt_safe (x : spec_float) :
  valid_binary x = true -> x <> S754_nan ->
  0 <= rank x < (2 ^ 53 - 1) * 2 ^ 1074 ->
  SFadd prec emax x SFone <> S754_nan /\ rank x < rank (SFadd prec emax x SFone).
Proof.
  intros Vx Nx [Hlo Hhi]. pose proof rank_inf_pos as Ht.
  assert (H1074 : 0 < 2 ^ 1074) by (apply pow2_pos; lia).
  assert (Hone : Zpos 4503599627370496 * 2 ^ (-52 + 1074) = 2 ^ 1074).
  { change (Zpos 4503599627370496) with (2 ^ 52). rewrite <- Z.pow_add_r by lia. reflexivity. }
  assert (Hrank_inf : 2 ^ 1127 < rank_inf) by (unfold rank_inf; apply pow2_lt; lia).
  assert (E1127 : 2 ^ 1127 = 2 ^ 53 * 2 ^ 1074) by (rewrite <- Z.pow_add_r by lia; reflexivity).
  destruct x as [sx | sx | | sx mx ex]; [| | congruence |]; cbn [rank] in Hlo, Hhi.
  - cbn [SFadd SFone rank cond_Zopp]. split; [discriminate | lia].
  - exfalso. destruct sx; nia.
  - pose proof (finite_rank_bound _ _ Vx) as Hb.
    destruct sx; cbn [cond_Zopp] in Hlo, Hhi; [lia |].
    pose proof (valid_exponent _ _ _ Vx) as Hex.
    unfold SFone. cbn [SFadd cond_Zopp].
    pose proof (shl_align_spec mx ex (Z.min ex (-52)) Hex ltac:(lia)) as (_ & Ea & Va).
    pose proof (shl_align_spec 4503599627370496 (-52) (Z.min ex (-52)) ltac:(lia) ltac:(lia))
      as (_ & Eb & Vb).
    replace (Z.min ex (Z.min ex (-52))) with (Z.min ex (-52)) in Ea by lia.
    replace (Z.min (-52) (Z.min ex (-52))) with (Z.min ex (-52)) in Eb by lia.
    rewrite Ea in Va. rewrite Eb in Vb. rewrite Hone in Vb.
    set (ez := Z.min ex (-52)) in *.
    set (a := fst (shl_align mx ex ez)) in *.
    set (b := fst (shl_align 4503599627370496 (-52) ez)) in *.
    rewrite <- Pos2Z.inj_add. cbn [binary_normalize].
    pose proof (binary_round_spec false (a + b) ez ltac:(lia)) as Hr.
    assert (Hv : Zpos (a + b) * 2 ^ (ez + 1074) = Zpos mx * 2 ^ (ex + 1074) + 2 ^ 1074)
      by (rewrite <- Va, <- Vb, <- Z.mul_add_distr_r, Pos2Z.inj_add; reflexivity).
    destruct (binary_round prec emax false (a + b) ez) as [s' | s' | | s' m' e'];
      try contradiction.
    + subst s'. cbn [rank cond_Zopp]. split; [discriminate | lia].
    + destruct Hr as [-> Hr]. cbn [rank cond_Zopp]. split; [discriminate |].
      rewrite Hv in Hr. nia.
Qed.

(** The only number from 2^53 - 1 to below 2^53 is 2^53 - 1. *)
Lemma last_safe (x : spec_float) :
  valid_binary x = true -> x <> S754_nan ->
  (2 ^ 53 - 1) * 2 ^ 1074 <= rank x < 2 ^ 53 * 2 ^ 1074 ->
  x = S754_finite false 9007199254740991 0.
Proof.
  intros Vx Nx [Hlo Hhi]. pose proof rank_inf_pos as Ht.
  assert (H1074 : 0 < 2 ^ 1074) by (apply pow2_pos; lia).
  assert (Htop : 2 ^ 53 * 2 ^ 1074 < rank_inf).
  { rewrite <- Z.pow_add_r by lia. unfold rank_inf. apply pow2_lt. lia. }
  destruct x as [sx | sx | | sx mx ex]; [| | congruence |]; cbn [rank] in Hlo, Hhi.
  - exfalso. nia.
  - exfalso. destruct sx; nia.
  - pose proof (finite_rank_bound _ _ Vx) as Hb. cbn in Vx.
    apply bounded_inv in Vx as (He & Hm & Hn).
    destruct sx; cbn [cond_Zopp] in Hlo, Hhi; [exfalso; nia |].
    assert (E1073 : 2 ^ 1074 = 2 * 2 ^ 1073) by (rewrite <- Z.pow_succ_r by lia; reflexivity).
    assert (E53 : 2 ^ 53 = 2 * 2 ^ 52) by reflexivity.
    assert (H52 : 0 < 2 ^ 52) by (apply pow2_pos; lia).
    destruct (Z.lt_trichotomy ex 0) as [Hneg | [-> | Hpos]].
    + exfalso. pose proof (pow2_le (ex + 1074) 1073 ltac:(lia)) as Hp.
      pose proof (pow2_pos (ex + 1074) ltac:(lia)) as Hq.
      assert (Zpos mx * 2 ^ (ex + 1074) < 2 ^ 53 * 2 ^ 1073).
      { apply Z.lt_le_trans with (2 ^ 53 * 2 ^ (ex + 1074)).
        - apply Z.mul_lt_mono_pos_r; assumption.
        - apply Z.mul_le_mono_nonneg_l; lia. }
      nia.
    + change (0 + 1074) with 1074 in *.
      assert (Zpos mx = 2 ^ 53 - 1) by nia.
      f_equal. apply Pos2Z.inj. assumption.
    + exfalso. specialize (Hn ltac:(lia)).
      pose proof (pow2_le 1075 (ex + 1074) ltac:(lia)) as Hp.
      assert (E1075 : 2 ^ 1075 = 2 * 2 ^ 1074) by (rewrite <- Z.pow_succ_r by lia; reflexivity).
      assert (2 ^ 52 * 2 ^ 1075 <= Zpos mx * 2 ^ (ex + 1074)).
      { apply Z.le_trans with (2 ^ 52 * 2 ^ (ex + 1074)).
        - apply Z.mul_le_mono_nonneg_l; lia.
        - apply Z.mul_le_mono_nonneg_r; [| exact Hn].
          pose proof (pow2_pos (ex + 1074) ltac:(lia)). lia. }
      nia.
Qed.

(** Adding one to a number from 0 to below 2^53 gives a larger number. *)
Lemma SFadd_one_gt (x : spec_float) :
  valid_binary x = true -> x <> S754_nan ->
  0 <= rank x < 2 ^ 53 * 2 ^ 1074 ->
  SFadd prec emax x SFone <> S754_nan /\ rank x < rank (SFadd prec emax x SFone).
Proof.
  intros Vx Nx [Hlo Hhi].
  destruct (Z.lt_ge_cases (rank x) ((2 ^ 53 - 1) * 2 ^ 1074)) as [Hsafe | Hlast].
  - apply SFadd_one_gt_safe; auto.
  - rewrite (last_safe x Vx Nx (conj Hlast Hhi)). split; [discriminate |].
    vm_compute. reflexivity.
Qed.

(** ** Primitive floats *)

Local Open Scope float_scope.



Lemma is_nan_Prim2SF (x : float) : is_nan x = false <-> Prim2SF x <> S754_nan.
Proof.
  unfold is_nan. rewrite FloatAxioms.eqb_spec. unfold SFeqb. split.
  - intros H E. rewrite E in H. cbn in H. discriminate.
  - intros N. rewrite (SFcompare_rank _ _ (Prim2SF_valid x) (Prim2SF_valid x) N N).
    rewrite Z.compare_refl. reflexivity.
Qed.

Lemma compare_frank (x y : float) :
  is_nan x = false -> is_nan y = false ->
  SFcompare (Prim2SF x) (Prim2SF y) = Some (frank x ?= frank y)%Z.
Proof.
  intros Nx Ny. apply SFcompare_rank; try apply Prim2SF_valid; apply is_nan_Prim2SF; assumption.
Qed.

Lemma ltb_frank (x y : float) :
  is_nan x = false -> is_nan y = false -> (x <? y) = (frank x <? frank y)%Z.
Proof.
  intros Nx Ny. rewrite FloatAxioms.ltb_spec. unfold SFltb. rewrite (compare_frank x y Nx Ny).
  unfold Z.ltb. destruct (frank x ?= frank y)%Z; reflexivity.
Qed.

Lemma leb_frank (x y : float) :
  is_nan x = false -> is_nan y = false -> (x <=? y) = (frank x <=? frank y)%Z.
Proof.
  intros Nx Ny. rewrite FloatAxioms.leb_spec. unfold SFleb. rewrite (compare_frank x y Nx Ny).
  unfold Z.leb. destruct (frank x ?= frank y)%Z; reflexivity.
Qed.

Lemma eqb_frank (x y : float) :
  is_nan x = false -> is_nan y = false -> (x =? y) = (frank x =? frank y)%Z.
Proof.
  intros Nx Ny. rewrite FloatAxioms.eqb_spec. unfold SFeqb. rewrite (compare_frank x y Nx Ny).
  destruct (Z.compare_spec (frank x) (frank y)) as [E | E | E]; symmetry;
    [apply Z.eqb_eq; exact E | apply Z.eqb_neq; lia | apply Z.eqb_neq; lia].
Qed.

Lemma eqb_nan_l (x y : float) : is_nan x = true -> (x =? y) = false.
Proof.
  intros N. rewrite FloatAxioms.eqb_spec.
  destruct (Prim2SF x) eqn:E; try (exfalso; assert (is_nan x = false)
    by (apply is_nan_Prim2SF; rewrite E; discriminate); congruence).
  reflexivity.
Qed.

Lemma eqb_nan_r (x y : float) : is_nan y = true -> (x =? y) = false.
Proof.
  intros N. rewrite FloatAxioms.eqb_spec.
  destruct (Prim2SF y) eqn:E; try (exfalso; assert (is_nan y = false)
    by (apply is_nan_Prim2SF; rewrite E; discriminate); congruence).
  unfold SFeqb. destruct (Prim2SF x); reflexivity.
Qed.

(** [0 < x - y] exactly when [y < x]: the comparator of a sort by difference
    orders numbers as [<] does. *)
Lemma sub_pos_frank (x y : float) :
  is_nan x = false -> is_nan y = false -> (0 <? x - y) = (frank y <? frank x)%Z.
Proof.
  intros Nx Ny. rewrite FloatAxioms.ltb_spec, sub_spec.
  apply (SFsub_sign (Prim2SF x) (Prim2SF y)); try apply Prim2SF_valid;
    apply is_nan_Prim2SF; assumption.
Qed.

Lemma add_one_frank (a : float) :
  is_nan a = false -> (0 <= frank a)%Z -> (a <? 9007199254740992) = true ->
  is_nan (a + 1) = false /\ (frank a < frank (a + 1))%Z.
Proof.
  intros Na Hlo Hhi. rewrite ltb_frank in Hhi by (assumption || reflexivity).
  apply Z.ltb_lt in Hhi.
  assert (Hmax : frank 9007199254740992 = (2 ^ 53 * 2 ^ 1074)%Z) by reflexivity.
  rewrite Hmax in Hhi.
  pose proof (SFadd_one_gt (Prim2SF a) (Prim2SF_valid a)
                (proj1 (is_nan_Prim2SF a) Na) (conj Hlo Hhi)) as [Hn Hgt].
  assert (E : Prim2SF (a + 1) = SFadd prec emax (Prim2SF a) SFone) by (rewrite add_spec; reflexivity).
  unfold frank. rewrite E. split; [| exact Hgt].
  apply is_nan_Prim2SF. rewrite E. exact Hn.
Qed.

Lemma SFadd_comm (x y : spec_float) : SFadd prec emax x y = SFadd prec emax y x.
Proof.
  destruct x as [sx | sx | | sx mx ex], y as [sy | sy | | sy my ey];
    try reflexivity; try (destruct sx, sy; reflexivity).
  cbn [SFadd]. rewrite (Z.min_comm ey ex). f_equal. apply Z.add_comm.
Qed.

Lemma add_comm (x y : float) : x + y = y + x.
Proof. apply Prim2SF_inj. rewrite !add_spec. apply SFadd_comm. Qed.

(** Two numbers of one rank are one number, or two zeros. *)
Lemma frank_inj (x y : float) :
  is_nan x = false -> is_nan y = false -> frank x = frank y ->
  x = y \/ (is_zero x = true /\ is_zero y = true).
Proof.
  intros Nx Ny E. pose proof (compare_frank x y Nx Ny) as C.
  rewrite E, Z.compare_refl in C.
  assert (Z0 : forall z, (exists s, Prim2SF z = S754_zero s) -> is_zero z = true).
  { intros z [s Hs]. unfold is_zero. rewrite FloatAxioms.eqb_spec, Hs. reflexivity. }
  destruct (Prim2SF x) as [sx | sx | | sx mx ex] eqn:Ex;
    destruct (Prim2SF y) as [sy | sy | | sy my ey] eqn:Ey; cbn in C; try discriminate;
    try (destruct sx; discriminate); try (destruct sy; discriminate).
  - right. split; apply Z0; eauto.
  - left. apply Prim2SF_inj. rewrite Ex, Ey. destruct sx, sy; try discriminate; reflexivity.
  - left. apply Prim2SF_inj. rewrite Ex, Ey.
    destruct sx, sy; try discriminate.
    + destruct (Z.compare_spec ex ey) as [He | He | He]; try discriminate. subst ey.
      injection C as C. apply (f_equal CompOpp) in C. rewrite CompOpp_involutive in C. cbn in C.
      apply Pos.compare_eq in C. subst. reflexivity.
    + destruct (Z.compare_spec ex ey) as [He | He | He]; try discriminate. subst ey.
      injection C as C. apply Pos.compare_eq in C. subst. reflexivity.
Qed.

Lemma is_zero_cases (x : float) : is_zero x = true -> x = 0 \/ x = neg_zero.
Proof.
  unfold is_zero. rewrite FloatAxioms.eqb_spec. intros H.
  assert (Hz : exists s, Prim2SF x = S754_zero s).
  { change (Prim2SF 0) with (S754_zero false) in H.
    destruct (Prim2SF x) as [s | s | | s m e]; cbn in H; try discriminate; eauto.
    - destruct s; discriminate.
    - destruct s; discriminate. }
  destruct Hz as [s Hs]. rewrite <- (SF2Prim_Prim2SF x), Hs.
  destruct s; [right | left]; reflexivity.
Qed.

End IEEE754.

(** ** [next_number] *)

Section NextId.
Local Open Scope Z_scope.

Lemma is_nan_zero : is_nan 0 = false.
Proof. reflexivity. Qed.

Lemma falsy_frank (n : float) : is_nan n = false -> Num.falsy n = (frank n =? 0).
Proof.
  intros N. unfold Num.falsy, is_zero. rewrite N, orb_false_r.
  rewrite eqb_frank by (assumption || reflexivity). reflexivity.
Qed.

Lemma number_or_zero_frank (v : value) :
  is_nan (numeric_or_zero v) = false /\
  (is_nan (numeric v) = false -> frank (numeric_or_zero v) = frank (numeric v)).
Proof.
  unfold numeric_or_zero. destruct (is_nan (numeric v)) eqn:N.
  - unfold Num.falsy. rewrite N, orb_true_r. split; [reflexivity | discriminate].
  - rewrite falsy_frank by assumption.
    destruct (Z.eqb_spec (frank (numeric v)) 0) as [E | E].
    + split; [reflexivity |]. intros _. rewrite E. reflexivity.
    + split; [assumption | reflexivity].
Qed.

Lemma numeric_id_frank (p : obj) :
  is_nan (numeric_id p) = false /\
  frank (numeric_id p) = frank (numeric_or_zero (get p "id")).
Proof.
  unfold numeric_id. pose proof (number_or_zero_frank (get p "id")) as [_ H].
  destruct (is_nan (numeric (get p "id"))) eqn:N.
  - split; [reflexivity |]. unfold numeric_or_zero, Num.falsy. rewrite N, orb_true_r. reflexivity.
  - split; [assumption |]. symmetry. apply H. reflexivity.
Qed.

Lemma max_frank (a b : float) :
  is_nan a = false -> is_nan b = false ->
  is_nan (Num.max a b) = false /\ frank (Num.max a b) = Z.max (frank a) (frank b).
Proof.
  intros Na Nb. unfold Num.max. rewrite Na, Nb. cbn [orb].
  destruct (PrimFloat.Leibniz.eqb a neg_zero && PrimFloat.Leibniz.eqb b 0)%bool eqn:Ez.
  - apply andb_true_iff in Ez as [Ea Eb].
    apply FloatAxioms.Leibniz.eqb_spec in Ea, Eb. subst. split; reflexivity.
  - rewrite ltb_frank by assumption.
    destruct (Z.ltb_spec (frank a) (frank b)); (split; [assumption | lia]).
Qed.

Lemma greater_frank (a b : float) :
  is_nan a = false -> is_nan b = false ->
  is_nan (greater a b) = false /\ frank (greater a b) = Z.max (frank a) (frank b).
Proof.
  intros Na Nb. unfold greater. rewrite ltb_frank by assumption.
  destruct (Z.ltb_spec (frank a) (frank b)); (split; [assumption | lia]).
Qed.

Lemma reduced_frank (items : list obj) (m : float) :
  is_nan m = false ->
  is_nan (reduced items m) = false /\
  frank (reduced items m)
  = fold_right (fun p z => Z.max (frank (numeric_or_zero (get p "id"))) z) (frank m) items.
Proof.
  revert m. induction items as [| p items IH]; intros m Nm; cbn [reduced fold_left fold_right].
  - split; [assumption | reflexivity].
  - pose proof (number_or_zero_frank (get p "id")) as [Np _].
    pose proof (max_frank m _ Nm Np) as [Nmax Emax].
    destruct (IH _ Nmax) as [N E]. fold (reduced items (Num.max m (numeric_or_zero (get p "id")))).
    split; [exact N |]. rewrite E, Emax. clear.
    induction items as [| q items IH]; cbn [fold_right]; lia.
Qed.

Lemma max_id_frank (items : list obj) :
  is_nan (max_id items) = false /\
  frank (max_id items)
  = fold_right (fun p z => Z.max (frank (numeric_or_zero (get p "id"))) z) 0 items.
Proof.
  induction items as [| p items [N E]]; cbn [max_id fold_right].
  - split; reflexivity.
  - fold (max_id items). pose proof (numeric_id_frank p) as [Np Ep].
    pose proof (greater_frank _ _ Np N) as [Ng Eg].
    split; [exact Ng |]. rewrite Eg, Ep, E. reflexivity.
Qed.

Lemma or_zero_frank (m : float) :
  is_nan m = false ->
  is_nan (if Num.falsy m then 0 else m)%float = false /\
  frank (if Num.falsy m then 0 else m)%float = frank m.
Proof.
  intros N. rewrite falsy_frank by assumption.
  destruct (Z.eqb_spec (frank m) 0) as [E | E]; [rewrite E |]; split; auto.
Qed.

Lemma add_one_zero (a b : float) :
  is_zero a = true -> is_zero b = true -> (a + 1 = 1 + b)%float.
Proof.
  intros Ha Hb. apply is_zero_cases in Ha, Hb.
  destruct Ha as [-> | ->], Hb as [-> | ->]; reflexivity.
Qed.

Lemma next_number_max_id (items : list obj) : next_number items = (1 + max_id items)%float.
Proof.
  unfold next_number.
  pose proof (reduced_frank items 0 is_nan_zero) as [Nr Er].
  pose proof (or_zero_frank _ Nr) as [Na Ea].
  pose proof (max_id_frank items) as [Nm Em].
  set (a := (if Num.falsy (reduced items 0) then 0 else reduced items 0)%float) in *.
  assert (E : frank a = frank (max_id items)) by (rewrite Ea, Er, Em; reflexivity).
  destruct (frank_inj a (max_id items) Na Nm E) as [-> | [Za Zm]].
  - apply add_comm.
  - apply add_one_zero; assumption.
Qed.

(** The formula's maximum is what its name says: one of 0 and the numeric
    ids, and at least each of them. *)
Lemma max_id_greatest (items : list obj) :
  (max_id items = 0%float \/ exists p, p ∈ items /\ max_id items = numeric_id p) /\
  (0 <=? max_id items)%float = true /\
  forall p, p ∈ items -> (numeric_id p <=? max_id items)%float = true.
Proof.
  induction items as [| q items (Hin & H0 & Hub)]; cbn [max_id fold_right].
  - split; [left; reflexivity |]. split; [reflexivity |]. intros p Hp. inversion Hp.
  - fold (max_id items).
    pose proof (numeric_id_frank q) as [Nq _]. pose proof (max_id_frank items) as [Nm _].
    pose proof (greater_frank _ _ Nq Nm) as [Ng Eg].
    rewrite leb_frank in H0 by (assumption || reflexivity). apply Z.leb_le in H0.
    split; [| split].
    + unfold greater. destruct (numeric_id q <? max_id items)%float.
      * destruct Hin as [E | (p & Hp & E)]; [left; exact E | right].
        exists p. split; [right; exact Hp | exact E].
      * right. exists q. split; [left | reflexivity].
    + rewrite leb_frank by (assumption || reflexivity). apply Z.leb_le. lia.
    + intros p Hp. pose proof (numeric_id_frank p) as [Np _].
      rewrite leb_frank by assumption. apply Z.leb_le. rewrite Eg.
      apply elem_of_cons in Hp as [-> | Hp]; [lia |].
      specialize (Hub p Hp). rewrite leb_frank in Hub by assumption.
      apply Z.leb_le in Hub. lia.
Qed.

(** [next_number] reads the ids of the items and nothing else. *)
Lemma next_number_ids (items items' : list obj) :
  (fun p => get p "id") <$> items' = (fun p => get p "id") <$> items ->
  next_number items' = next_number items.
Proof.
  intros E. unfold next_number, reduced.
  assert (H : forall (l : list obj) m,
            fold_left (fun m x => Num.max m (numeric_or_zero (get x "id"))) l m
            = fold_left (fun m v => Num.max m (numeric_or_zero v)) ((fun p => get p "id") <$> l) m).
  { induction l as [| x l IH]; intros m; cbn [fold_left fmap list_fmap]; [reflexivity | apply IH]. }
  rewrite !H, E. reflexivity.
Qed.
(** *** Where the conversions throw *)

(** What cannot be converted reads as [NaN] in [numeric]. *)
Lemma unprintable_nan : forall v, unprintable v = true -> is_nan (numeric v) = true.
Proof.
  fix IH 1. intros [| | b | n | s | l | o]; cbn [unprintable]; try discriminate.
  - destruct l as [| x [| y l']]; cbn [existsb numeric]; [discriminate | | reflexivity].
    rewrite orb_false_r. pose proof (IH x) as IHx.
    destruct x as [| | b | n | s | l0 | o]; try discriminate; [exact IHx | reflexivity].
  - reflexivity.
Qed.

Lemma numeric_readable (v : value) : is_nan (numeric v) = false -> unprintable v = false.
Proof.
  intros N. destruct (unprintable v) eqn:U; [| reflexivity].
  apply unprintable_nan in U. congruence.
Qed.


Lemma to_number_None (v : value) : to_number v = None <-> unprintable v = true.
Proof. unfold to_number. destruct (unprintable v); split; congruence. Qed.

Lemma number_or_zero_unfold (v : value) :
  number_or_zero v = if unprintable v then None else Some (numeric_or_zero v).
Proof. unfold number_or_zero, to_number. destruct (unprintable v); reflexivity. Qed.

Lemma reduce_ids (items : list obj) (m : float) :
  reduce (fun m x => n ← number_or_zero (get x "id"); Some (Num.max m n)) items m
  = if existsb (fun x => unprintable (get x "id")) items then None
    else Some (reduced items m).
Proof.
  revert m. induction items as [| x items IH]; intros m; cbn [reduce existsb]; [reflexivity |].
  rewrite number_or_zero_unfold. destruct (unprintable (get x "id")); cbn; [reflexivity |].
  apply IH.
Qed.

Lemma nextId_unfold (items : list obj) :
  nextId items
  = if existsb (fun x => unprintable (get x "id")) items then None
    else Some (next_number items).
Proof.
  unfold nextId. rewrite reduce_ids.
  destruct (existsb _ items); reflexivity.
Qed.

Lemma readable_ids_existsb (items : list obj) :
  existsb (fun x => unprintable (get x "id")) items = false <-> readable_ids items.
Proof.
  unfold readable_ids. induction items as [| x items IH]; cbn [existsb].
  - split; [intros _ p Hp; inversion Hp | reflexivity].
  - rewrite orb_false_iff, IH. split.
    + intros [Hx H] p Hp. apply elem_of_cons in Hp as [-> | Hp]; auto.
    + intros H. split; [apply H, list_elem_of_here |].
      intros p Hp. apply H, list_elem_of_further, Hp.
Qed.

Lemma nextId_Some (items : list obj) :
  readable_ids items -> nextId items = Some (next_number items).
Proof.
  intros R. rewrite nextId_unfold. apply readable_ids_existsb in R. rewrite R. reflexivity.
Qed.

Lemma nextId_returns (items : list obj) (n : float) :
  nextId items = Some n -> readable_ids items /\ n = next_number items.
Proof.
  rewrite nextId_unfold. destruct (existsb _ items) eqn:E; [discriminate |].
  intros [= <-]. split; [apply readable_ids_existsb; exact E | reflexivity].
Qed.

Lemma nextId_None (items : list obj) :
  nextId items = None <-> exists p, p ∈ items /\ unprintable (get p "id") = true.
Proof.
  rewrite nextId_unfold. destruct (existsb _ items) eqn:E.
  - split; [intros _ | reflexivity]. apply existsb_exists in E as (p & Hp & U).
    exists p. split; [apply list_elem_of_In; exact Hp | exact U].
  - split; [discriminate |]. intros (p & Hp & U).
    apply readable_ids_existsb in E. rewrite (E p Hp) in U. discriminate.
Qed.

Lemma fold_max_nonneg (items : list obj) :
  0 <= fold_right (fun p z => Z.max (frank (numeric_or_zero (get p "id"))) z) 0 items.
Proof. induction items as [| p l IH]; cbn [fold_right]; lia. Qed.

Lemma fold_max_perm (items items' : list obj) :
  Permutation items items' ->
  fold_right (fun p z => Z.max (frank (numeric_or_zero (get p "id"))) z) 0 items
  = fold_right (fun p z => Z.max (frank (numeric_or_zero (get p "id"))) z) 0 items'.
Proof.
  induction 1 as [| x l l' _ IH | x y l | l l' l'' _ IH1 _ IH2]; cbn [fold_right];
    [reflexivity | rewrite IH; reflexivity | lia | congruence].
Qed.

Lemma next_number_perm (items items' : list obj) :
  Permutation items items' -> next_number items = next_number items'.
Proof.
  intros P. rewrite !next_number_max_id.
  destruct (max_id_frank items) as [N F], (max_id_frank items') as [N' F'].
  rewrite (fold_max_perm _ _ P), <- F' in F.
  destruct (frank_inj _ _ N N' F) as [-> | [Z Z']]; [reflexivity |].
  rewrite (add_comm 1 (max_id items)), (add_one_zero _ _ Z Z'). reflexivity.
Qed.


End NextId.

(** C6, for items whose ids can be converted. [nextId(items)] is
    1 + max(0, maximum over the items of the numeric value of the id, a
    non-numeric or missing id counting as 0): where [Number] can convert
    every id it equals the formula [1 + max_id items], whose maximum is one
    of 0 and the numeric ids and at least each of them; it throws a
    TypeError exactly when some id cannot be converted; it is a function of
    the ids of the items alone; [nextId([]) = 1],
    [nextId([{id:1},{id:5},{id:3}]) = 6] and [nextId([{id:"x"}]) = 1]. *)
Theorem nextId_spec (items : list obj) :
  (readable_ids items -> nextId items = Some (1 + max_id items)%float) /\
  (nextId items = None <-> exists p, p ∈ items /\ unprintable (get p "id") = true) /\
  (forall items', (fun p => get p "id") <$> items' = (fun p => get p "id") <$> items ->
                  nextId items' = nextId items) /\
  ((max_id items = 0%float \/ exists p, p ∈ items /\ max_id items = numeric_id p) /\
   (0 <=? max_id items)%float = true /\
   forall p, p ∈ items -> (numeric_id p <=? max_id items)%float = true) /\
  nextId [] = Some 1%float /\
  nextId [ {[ "id" := VNum 1 ]}; {[ "id" := VNum 5 ]}; {[ "id" := VNum 3 ]} ] = Some 6%float /\
  nextId [ {[ "id" := VStr "x" ]} ] = Some 1%float.
Proof.
  split; [intros R; rewrite (nextId_Some _ R), next_number_max_id; reflexivity |].
  split; [apply nextId_None |].
  split.
  { intros items' E. rewrite !nextId_unfold, (next_number_ids _ _ E).
    assert (X : forall l : list obj,
              existsb (fun x => unprintable (get x "id")) l
              = existsb unprintable ((fun p => get p "id") <$> l)).
    { induction l as [| x l IH]; cbn [existsb fmap list_fmap]; [| rewrite IH]; reflexivity. }
    rewrite !X, E. reflexivity. }
  split; [apply max_id_greatest |].
  repeat split; vm_compute; reflexivity.
Qed.

(** Scenario for C6: the seed, whose ids are 1 and 2. *)
Lemma nextId_spec_witness : nextId (seed 0 0) = Some (1 + max_id (seed 0 0))%float.
Proof.
  apply nextId_spec. intros p Hp.
  repeat (apply elem_of_cons in Hp as [-> | Hp]; [reflexivity |]). inversion Hp.
Defined.

(** As C6 stands it fails where an id cannot be converted: an id that is an
    object with a [toString] property is no number, so the formula counts it
    as 0 and gives 1, but [Number] throws a TypeError on it and so does
    [nextId]. *)
Lemma nextId_throws :
  nextId [ {[ "id" := VObj {[ "toString" := VNum 1 ]} ]} ] = None /\
  (1 + max_id [ {[ "id" := VObj {[ "toString" := VNum 1 ]} ]} ])%float = 1%float.
Proof. split; vm_compute; reflexivity. Qed.
(** ** The handlers, case by case *)

Section Handlers.

(** *** [findIndex] and [filter] with a predicate that may throw *)

Lemma findIndex_none (f : obj -> option bool) (l : list obj) :
  findIndex f l = Some None <-> forall p, p ∈ l -> f p = Some false.
Proof.
  induction l as [| x l IH]; cbn [findIndex].
  - split; [intros _ p Hp; inversion Hp | reflexivity].
  - destruct (f x) as [[|] |] eqn:Fx.
    + split; [discriminate |]. intros H. specialize (H x (list_elem_of_here _ _)). congruence.
    + destruct (findIndex f l) as [[i |] |]; cbn [fmap option_fmap option_map].
      * split; [discriminate |]. intros H.
        assert (E : Some (Some i) = Some None)
          by (apply IH; intros p Hp; apply H, list_elem_of_further, Hp).
        discriminate.
      * split; [intros _ | reflexivity]. intros p Hp.
        apply elem_of_cons in Hp as [-> | Hp]; [exact Fx |]. apply IH; [reflexivity | exact Hp].
      * split; [discriminate |]. intros H.
        assert (E : @None (option nat) = Some None)
          by (apply IH; intros p Hp; apply H, list_elem_of_further, Hp).
        discriminate.
    + split; [discriminate |]. intros H. specialize (H x (list_elem_of_here _ _)). congruence.
Qed.

Lemma findIndex_found (f : obj -> option bool) (l : list obj) (i : nat) :
  findIndex f l = Some (Some i) <->
  exists p, l !! i = Some p /\ f p = Some true /\
            forall j q, j < i -> l !! j = Some q -> f q = Some false.
Proof.
  revert i. induction l as [| x l IH]; intros i; cbn [findIndex].
  - split; [discriminate | intros (p & Hp & _); inversion Hp].
  - destruct (f x) as [[|] |] eqn:Fx.
    + split.
      * intros [= <-]. exists x. split; [reflexivity |]. split; [exact Fx | lia].
      * intros (p & Hp & Fp & Hfirst). destruct i as [| i]; [reflexivity |].
        specialize (Hfirst 0 x ltac:(lia) eq_refl). congruence.
    + split.
      * destruct (findIndex f l) as [[i' |] |] eqn:E; cbn [fmap option_fmap option_map];
          try discriminate.
        intros [= <-]. destruct (proj1 (IH i') eq_refl) as (p & Hp & Fp & Hfirst).
        exists p. split; [exact Hp |]. split; [exact Fp |].
        intros [| j] q Hj Hq; [cbn in Hq; congruence |].
        apply (Hfirst j q); [lia | exact Hq].
      * intros (p & Hp & Fp & Hfirst). destruct i as [| i]; [cbn in Hp; congruence |].
        assert (E : findIndex f l = Some (Some i)).
        { apply IH. exists p. split; [exact Hp |]. split; [exact Fp |].
          intros j q Hj Hq. apply (Hfirst (S j) q); [lia | exact Hq]. }
        rewrite E. reflexivity.
    + split; [discriminate |]. intros (p & Hp & Fp & Hfirst). destruct i as [| i].
      * cbn in Hp. congruence.
      * specialize (Hfirst 0 x ltac:(lia) eq_refl). congruence.
Qed.

Lemma findIndex_throws (f : obj -> option bool) (l : list obj) :
  findIndex f l = None <->
  exists i p, l !! i = Some p /\ f p = None /\
              forall j q, j < i -> l !! j = Some q -> f q = Some false.
Proof.
  induction l as [| x l IH]; cbn [findIndex].
  - split; [discriminate | intros (i & p & Hp & _); inversion Hp].
  - destruct (f x) as [[|] |] eqn:Fx.
    + split; [discriminate |]. intros (i & p & Hp & Fp & Hfirst). destruct i as [| i].
      * cbn in Hp. congruence.
      * specialize (Hfirst 0 x ltac:(lia) eq_refl). congruence.
    + split.
      * destruct (findIndex f l) as [i' |] eqn:E; [discriminate |]. intros _.
        destruct (proj1 IH eq_refl) as (i & p & Hp & Fp & Hfirst).
        exists (S i), p. split; [exact Hp |]. split; [exact Fp |].
        intros [| j] q Hj Hq; [cbn in Hq; congruence |].
        apply (Hfirst j q); [lia | exact Hq].
      * intros (i & p & Hp & Fp & Hfirst). destruct i as [| i]; [cbn in Hp; congruence |].
        assert (E : findIndex f l = None).
        { apply IH. exists i, p. split; [exact Hp |]. split; [exact Fp |].
          intros j q Hj Hq. apply (Hfirst (S j) q); [lia | exact Hq]. }
        rewrite E. reflexivity.
    + split; [intros _ | reflexivity]. exists 0, x. split; [reflexivity |].
      split; [exact Fx | lia].
Qed.

Lemma findIndex_ext (f g : obj -> option bool) (l : list obj) :
  (forall p, f p = g p) -> findIndex f l = findIndex g l.
Proof.
  intros E. induction l as [| p l IH]; cbn [findIndex]; [reflexivity |].
  rewrite E, IH. reflexivity.
Qed.


Lemma findIndex_app (f : obj -> option bool) (l : list obj) (x : obj) :
  (forall p, p ∈ l -> f p = Some false) -> f x = Some true ->
  findIndex f (l ++ [x]) = Some (Some (length l)).
Proof.
  intros H Hx. induction l as [| p l IH]; cbn [app findIndex length].
  - rewrite Hx. reflexivity.
  - rewrite (H p (list_elem_of_here _ _)), IH; [reflexivity |].
    intros q Hq. apply H, list_elem_of_further, Hq.
Qed.

Lemma filter_throwing_spec (f : obj -> option bool) (l r : list obj) :
  filter_throwing f l = Some r ->
  r = List.filter (fun p => match f p with Some true => true | _ => false end) l /\
  forall p, p ∈ l -> f p <> None.
Proof.
  revert r. induction l as [| x l IH]; intros r; cbn [filter_throwing List.filter].
  - intros [= <-]. split; [reflexivity |]. intros p Hp. inversion Hp.
  - destruct (f x) as [b |] eqn:Fx; [| discriminate].
    destruct (filter_throwing f l) as [r' |]; [| discriminate].
    intros [= <-]. destruct (IH r' eq_refl) as [-> H]. split.
    + destruct b; reflexivity.
    + intros p Hp. apply elem_of_cons in Hp as [-> | Hp]; [congruence | exact (H p Hp)].
Qed.


Lemma filter_throwing_None (f : obj -> option bool) (l : list obj) :
  filter_throwing f l = None <-> exists p, p ∈ l /\ f p = None.
Proof.
  induction l as [| x l IH]; cbn [filter_throwing].
  - split; [discriminate | intros (p & H & _); inversion H].
  - destruct (f x) as [b |] eqn:Fx.
    + destruct (filter_throwing f l) eqn:Fl.
      * split; [discriminate |]. intros (p & H & Hp).
        apply elem_of_cons in H as [-> | H]; [congruence |].
        discriminate (proj2 IH (ex_intro _ p (conj H Hp))).
      * split; [intros _ | reflexivity].
        destruct (proj1 IH eq_refl) as (p & H & Hp).
        exists p. split; [apply list_elem_of_further; exact H | exact Hp].
    + split; [intros _ | reflexivity]. exists x. split; [apply list_elem_of_here | exact Fx].
Qed.

Lemma filter_all (f : obj -> bool) (l : list obj) :
  (forall p, p ∈ l -> f p = true) -> List.filter f l = l.
Proof.
  induction l as [| x l IH]; intros H; cbn [List.filter]; [reflexivity |].
  rewrite (H x (list_elem_of_here _ _)). f_equal. apply IH. intros p Hp. apply H. right. exact Hp.
Qed.

Lemma filter_length_le (f : obj -> bool) (l : list obj) :
  length (List.filter f l) <= length l.
Proof. induction l as [| x l IH]; cbn; [lia |]. destruct (f x); cbn; lia. Qed.

Lemma filter_length_lt (f : obj -> bool) (l : list obj) (p : obj) :
  p ∈ l -> f p = false -> length (List.filter f l) < length l.
Proof.
  induction l as [| x l IH]; intros Hp Fp; [inversion Hp |].
  cbn [List.filter length]. apply elem_of_cons in Hp as [<- | Hp].
  - rewrite Fp. pose proof (filter_length_le f l). lia.
  - specialize (IH Hp Fp). destruct (f x); cbn [length]; lia.
Qed.

Lemma filter_length_eq (f : obj -> bool) (l : list obj) :
  length (List.filter f l) = length l -> List.filter f l = l.
Proof.
  intros E. apply filter_all. intros p Hp. destruct (f p) eqn:Fp; [reflexivity |].
  pose proof (filter_length_lt f l p Hp Fp). lia.
Qed.

Lemma elem_of_filter_bool (f : obj -> bool) (l : list obj) (p : obj) :
  p ∈ List.filter f l <-> p ∈ l /\ f p = true.
Proof. rewrite !list_elem_of_In. apply filter_In. Qed.


(** *** [Number(p.id) === id] *)

Lemma has_id_unfold (id : float) (p : obj) :
  has_id id p = if unprintable (get p "id") then None else Some (answers_to id p).
Proof. unfold has_id, to_number. destruct (unprintable (get p "id")); reflexivity. Qed.

Lemma has_id_None (id : float) (p : obj) :
  has_id id p = None <-> unprintable (get p "id") = true.
Proof. rewrite has_id_unfold. destruct (unprintable (get p "id")); split; congruence. Qed.


Lemma answers_to_readable (id : float) (p : obj) :
  answers_to id p = true -> unprintable (get p "id") = false.
Proof.
  intros H. apply numeric_readable. unfold answers_to, Num.strict_eq in H.
  destruct (is_nan (numeric (get p "id"))) eqn:N; [| reflexivity].
  rewrite (eqb_nan_l _ _ N) in H. discriminate.
Qed.

Lemma has_id_true (id : float) (p : obj) : has_id id p = Some true <-> answers_to id p = true.
Proof.
  rewrite has_id_unfold. split.
  - destruct (unprintable (get p "id")); [discriminate | congruence].
  - intros H. rewrite (answers_to_readable _ _ H), H. reflexivity.
Qed.

Lemma has_id_readable (id : float) (ps : list obj) :
  readable_ids ps -> forall p, p ∈ ps -> has_id id p = Some (answers_to id p).
Proof. intros R p Hp. rewrite has_id_unfold, (R p Hp). reflexivity. Qed.

(** A product that matches a path id has an [id] property. *)
Lemma has_id_lookup (id : float) (p : obj) :
  has_id id p = Some true -> p !! "id" = Some (get p "id").
Proof.
  rewrite has_id_true. unfold answers_to, get, Num.strict_eq.
  destruct (p !! "id") as [v |]; [reflexivity |].
  cbn [default numeric]. rewrite eqb_nan_l by reflexivity. discriminate.
Qed.


Lemma has_id_string (s : string) (p : obj) :
  get p "id" = VStr s -> is_nan (Str.to_number s) = false ->
  has_id (Str.to_number s) p = Some true.
Proof.
  intros E N. apply has_id_true. unfold answers_to, Num.strict_eq. rewrite E. cbn [numeric].
  rewrite eqb_frank by assumption. apply Z.eqb_refl.
Qed.

(** The filter of a delete: it throws when an id of the collection cannot
    be converted, and keeps the products of another id. *)
Lemma delete_filter (id : float) (ps : list obj) :
  filter_throwing (has_other_id id) ps
  = if existsb (fun x => unprintable (get x "id")) ps then None
    else Some (List.filter (fun p => negb (answers_to id p)) ps).
Proof.
  induction ps as [| x ps IH]; cbn [filter_throwing existsb List.filter]; [reflexivity |].
  unfold has_other_id at 1. rewrite has_id_unfold.
  destruct (unprintable (get x "id")); cbn; [reflexivity |].
  rewrite IH. destruct (existsb _ ps); [reflexivity |].
  destruct (answers_to id x); reflexivity.
Qed.

(** *** PUT *)

Lemma PUT_products_id_unfold (mem : option (list obj)) (ps : list obj)
    (id_param : string) (body : value) :
  PUT_products_id (stored mem ps) id_param body =
  match findIndex (has_id (Str.to_number id_param)) ps with
  | None => (Threw, synced ps)
  | Some None => (Sent (Json 404 (error "Not found")), synced ps)
  | Some (Some idx) =>
      match ps !! idx with
      | None => (Threw, synced ps)
      | Some prev =>
          let next := spread prev body in
          (Sent (Json 200 (VObj next)), synced (<[ idx := next ]> ps))
      end
  end.
Proof.
  unfold PUT_products_id, stored, synced, read, write, set_products, products_or_empty.
  cbn [data file default from_option id].
  destruct (findIndex _ ps) as [[idx |] |]; [| reflexivity | reflexivity].
  destruct (ps !! idx); reflexivity.
Qed.

Lemma spread_lookup (prev : obj) (body : value) (k : string) :
  k <> "id" ->
  spread prev body !! k
  = match own_props body !! k with Some v => Some v | None => prev !! k end.
Proof.
  intros Hk. unfold spread. rewrite lookup_insert_ne by congruence.
  rewrite lookup_union. destruct (own_props body !! k), (prev !! k); reflexivity.
Qed.


Lemma PUT_not_found (mem : option (list obj)) (ps : list obj) (id_param : string) (body : value) :
  (forall p, p ∈ ps -> has_id (Str.to_number id_param) p = Some false) ->
  PUT_products_id (stored mem ps) id_param body
  = (Sent (Json 404 (error "Not found")), synced ps).
Proof.
  intros H. rewrite PUT_products_id_unfold.
  apply findIndex_none in H. rewrite H. reflexivity.
Qed.

Lemma PUT_found (mem : option (list obj)) (ps : list obj) (id_param : string)
    (body : value) (idx : nat) (prev : obj) :
  ps !! idx = Some prev -> has_id (Str.to_number id_param) prev = Some true ->
  (forall j q, j < idx -> ps !! j = Some q -> has_id (Str.to_number id_param) q = Some false) ->
  PUT_products_id (stored mem ps) id_param body
  = (Sent (Json 200 (VObj (spread prev body))), synced (<[ idx := spread prev body ]> ps)).
Proof.
  intros L H F. rewrite PUT_products_id_unfold.
  assert (E : findIndex (has_id (Str.to_number id_param)) ps = Some (Some idx))
    by (apply findIndex_found; eauto).
  rewrite E, L. reflexivity.
Qed.

Lemma PUT_throws (mem : option (list obj)) (ps : list obj) (id_param : string)
    (body : value) (idx : nat) (bad : obj) :
  ps !! idx = Some bad -> unprintable (get bad "id") = true ->
  (forall j q, j < idx -> ps !! j = Some q -> has_id (Str.to_number id_param) q = Some false) ->
  PUT_products_id (stored mem ps) id_param body = (Threw, synced ps).
Proof.
  intros L U F. rewrite PUT_products_id_unfold.
  assert (E : findIndex (has_id (Str.to_number id_param)) ps = None).
  { apply findIndex_throws. exists idx, bad. split; [exact L |].
    split; [apply has_id_None; exact U | exact F]. }
  rewrite E. reflexivity.
Qed.

(** *** DELETE *)

Lemma DELETE_products_id_unfold (mem : option (list obj)) (ps : list obj) (id_param : string) :
  let kept := List.filter (fun p => negb (answers_to (Str.to_number id_param) p)) ps in
  DELETE_products_id (stored mem ps) id_param =
  if existsb (fun x => unprintable (get x "id")) ps then (Threw, synced ps)
  else if Nat.eqb (length kept) (length ps)
  then (Sent (Json 404 (error "Not found")), {| data := Some kept; file := Some ps |})
  else (Sent (End 204), synced kept).
Proof.
  unfold DELETE_products_id, stored, synced, read, write, set_products, products_or_empty.
  cbn [data file default from_option id]. rewrite delete_filter.
  destruct (existsb _ ps); [reflexivity |].
  cbn [data file default from_option id]. destruct (Nat.eqb _ _); reflexivity.
Qed.



Lemma DELETE_found (mem : option (list obj)) (ps : list obj) (id_param : string) (p : obj) :
  readable_ids ps -> p ∈ ps -> has_id (Str.to_number id_param) p = Some true ->
  DELETE_products_id (stored mem ps) id_param
  = (Sent (End 204),
     synced (List.filter (fun p => negb (answers_to (Str.to_number id_param) p)) ps)).
Proof.
  intros R Hp Fp. pose proof (DELETE_products_id_unfold mem ps id_param) as E. cbv zeta in E.
  rewrite E. clear E. apply readable_ids_existsb in R. rewrite R.
  apply has_id_true in Fp.
  pose proof (filter_length_lt (fun p => negb (answers_to (Str.to_number id_param) p)) ps p Hp
                ltac:(cbv beta; rewrite Fp; reflexivity)) as Hlt.
  destruct (Nat.eqb_spec
              (length (List.filter (fun p => negb (answers_to (Str.to_number id_param) p)) ps))
              (length ps)); [lia | reflexivity].
Qed.

End Handlers.
(** ** Update and delete *)

Section UpdateDelete.

Lemma strict_eq_true (a b : float) :
  Num.strict_eq a b = true <-> is_nan a = false /\ is_nan b = false /\ frank a = frank b.
Proof.
  unfold Num.strict_eq. split.
  - intros H. destruct (is_nan a) eqn:Na; [rewrite eqb_nan_l in H by assumption; discriminate |].
    destruct (is_nan b) eqn:Nb; [rewrite eqb_nan_r in H by assumption; discriminate |].
    rewrite eqb_frank in H by assumption. apply Z.eqb_eq in H. auto.
  - intros (Na & Nb & E). rewrite eqb_frank by assumption. apply Z.eqb_eq. exact E.
Qed.



(** Where every id can be converted, a product that matches makes
    [findIndex] find the first that does. *)
Lemma findIndex_first (id : float) (ps : list obj) (p : obj) :
  readable_ids ps -> p ∈ ps -> has_id id p = Some true ->
  exists idx prev,
    ps !! idx = Some prev /\ has_id id prev = Some true /\
    forall j q, j < idx -> ps !! j = Some q -> has_id id q = Some false.
Proof.
  intros R Hp Fp. destruct (findIndex (has_id id) ps) as [[idx |] |] eqn:E.
  - apply findIndex_found in E as (prev & H). eauto.
  - rewrite findIndex_none in E. rewrite (E p Hp) in Fp. discriminate.
  - apply findIndex_throws in E as (i & bad & Hb & Fb & _). apply has_id_None in Fb.
    rewrite (R bad) in Fb by (eapply list_elem_of_lookup_2; exact Hb). discriminate.
Qed.

(** The three cases of [findIndex] leave no other. *)
Lemma findIndex_cases (f : obj -> option bool) (ps : list obj) :
  (forall p, p ∈ ps -> f p = Some false) \/
  (exists idx prev, ps !! idx = Some prev /\ f prev = Some true /\
                    forall j q, j < idx -> ps !! j = Some q -> f q = Some false) \/
  (exists idx bad, ps !! idx = Some bad /\ f bad = None /\
                   forall j q, j < idx -> ps !! j = Some q -> f q = Some false).
Proof.
  destruct (findIndex f ps) as [[idx |] |] eqn:E.
  - right. left. exists idx. apply findIndex_found. exact E.
  - left. apply findIndex_none. exact E.
  - right. right. apply findIndex_throws. exact E.
Qed.



End UpdateDelete.

(** C2, for a collection whose ids can be converted. Update, for a body as
    the JSON parser hands it over: when no
    product has the path id the answer is 404 and the
    collection is as it was; otherwise the first product [prev] that has it is
    replaced, in place, by the shallow merge of the body over it: a property
    of the body overwrites the one of the same name, every other property is
    as before, the id is the one of [prev] whatever the body says; the merge is
    returned with status 200 and written to the file as it is, where it and
    the collection hold what a JSON text holds. With ids that [Number]
    converts a product that has the path id gives such a first one; when
    [findIndex] comes to an id that cannot be converted before it finds the
    path id, a TypeError escapes and the collection is as it was. One of
    the three cases holds. *)
Theorem PUT_products_id_spec (mem : option (list obj)) (ps : list obj)
    (id_param : string) (body : value) :
  request_body body ->
  let id := Str.to_number id_param in
  ((forall p, p ∈ ps -> has_id id p = Some false) ->
   PUT_products_id (stored mem ps) id_param body
   = (Sent (Json 404 (error "Not found")), synced ps)) /\
  (forall idx prev,
     ps !! idx = Some prev -> has_id id prev = Some true ->
     (forall j q, j < idx -> ps !! j = Some q -> has_id id q = Some false) ->
     let next := spread prev body in
     (storable_products (<[ idx := next ]> ps) ->
      PUT_products_id (stored mem ps) id_param body
      = (Sent (Json 200 (VObj next)), synced (<[ idx := next ]> ps))) /\
     (forall k, k <> "id" ->
        next !! k = match own_props body !! k with Some v => Some v | None => prev !! k end) /\
     next !! "id" = prev !! "id" /\
     <[ idx := next ]> ps !! idx = Some next /\
     (forall j, j <> idx -> <[ idx := next ]> ps !! j = ps !! j) /\
     length (<[ idx := next ]> ps) = length ps) /\
  (readable_ids ps -> forall p, p ∈ ps -> has_id id p = Some true ->
   exists idx prev,
     ps !! idx = Some prev /\ has_id id prev = Some true /\
     forall j q, j < idx -> ps !! j = Some q -> has_id id q = Some false) /\
  (forall idx bad,
     ps !! idx = Some bad -> unprintable (get bad "id") = true ->
     (forall j q, j < idx -> ps !! j = Some q -> has_id id q = Some false) ->
     PUT_products_id (stored mem ps) id_param body = (Threw, synced ps)) /\
  ((forall p, p ∈ ps -> has_id id p = Some false) \/
   (exists idx prev, ps !! idx = Some prev /\ has_id id prev = Some true /\
                     forall j q, j < idx -> ps !! j = Some q -> has_id id q = Some false) \/
   (exists idx bad, ps !! idx = Some bad /\ unprintable (get bad "id") = true /\
                    forall j q, j < idx -> ps !! j = Some q -> has_id id q = Some false)).
Proof.
  intros _ id. split; [apply PUT_not_found |]. split; [| split; [| split]].
  - intros idx prev Hprev Fprev Hfirst next. split; [| split; [| split; [| split; [| split]]]].
    + intros _. apply PUT_found; assumption.
    + intros k Hk. apply spread_lookup. exact Hk.
    + unfold next, spread. rewrite lookup_insert_eq. symmetry.
      apply has_id_lookup with id. exact Fprev.
    + apply list_lookup_insert_eq. apply lookup_lt_Some with prev. exact Hprev.
    + intros j Hj. apply list_lookup_insert_ne. congruence.
    + apply length_insert.
  - intros R p Hp Fp. apply findIndex_first with p; assumption.
  - intros idx bad Hb U Hfirst. apply PUT_throws with idx bad; assumption.
  - destruct (findIndex_cases (has_id id) ps) as [H | [H | (idx & bad & Hb & Fb & H)]]; auto.
    right. right. exists idx, bad. rewrite <- has_id_None with (id := id). auto.
Qed.

(** As C2 stands it fails on a collection with an id that cannot be
    converted: the product of id 2 exists, but [findIndex] first comes to
    an id that is an object with a [toString] property, on which [Number]
    throws; no answer is sent and nothing is updated. *)
Lemma update_throws :
  has_id (Str.to_number "2") {[ "id" := VNum 2 ]} = Some true /\
  PUT_products_id (synced [ {[ "id" := VObj {[ "toString" := VNum 1 ]} ]}; {[ "id" := VNum 2 ]} ])
                  "2" (VObj {[ "price" := VNum 500 ]})
  = (Threw, synced [ {[ "id" := VObj {[ "toString" := VNum 1 ]} ]}; {[ "id" := VNum 2 ]} ]).
Proof. split; vm_compute; reflexivity. Qed.




(** ** Creation and the seed *)

Section Create.

Lemma POST_rejected (db : Low) (body : value) (now : float) :
  truthy (prop (js_or body (VObj ∅)) "title") = false \/
  truthy (prop (js_or body (VObj ∅)) "category") = false ->
  POST_products db body now = (Sent (Json 400 (error "title and category are required")), db).
Proof.
  intros H. unfold POST_products.
  destruct H as [-> | ->]; cbn [negb orb]; [| rewrite orb_true_r]; reflexivity.
Qed.

Lemma POST_created (mem : option (list obj)) (ps : list obj) (body : value) (now : float)
    (prod : obj) :
  truthy (prop (js_or body (VObj ∅)) "title") = true ->
  truthy (prop (js_or body (VObj ∅)) "category") = true ->
  new_product ps body now = Some prod ->
  POST_products (stored mem ps) body now
  = (Sent (Json 201 (VObj prod)), synced (ps ++ [prod])).
Proof.
  intros Ht Hc E. unfold POST_products. rewrite Ht, Hc. cbn [negb orb].
  unfold stored, read, products_or_empty. cbn [data file default from_option id].
  rewrite E. reflexivity.
Qed.

Lemma POST_threw (mem : option (list obj)) (ps : list obj) (body : value) (now : float) :
  truthy (prop (js_or body (VObj ∅)) "title") = true ->
  truthy (prop (js_or body (VObj ∅)) "category") = true ->
  new_product ps body now = None ->
  POST_products (stored mem ps) body now = (Threw, synced ps).
Proof.
  intros Ht Hc E. unfold POST_products. rewrite Ht, Hc. cbn [negb orb].
  unfold stored, read, products_or_empty. cbn [data file default from_option id].
  rewrite E. reflexivity.
Qed.

Lemma new_product_unfold (ps : list obj) (body : value) (now : float) :
  new_product ps body now
  = if existsb (fun x => unprintable (get x "id")) ps
       || unprintable (prop (js_or body (VObj ∅)) "price")
    then None
    else Some (record (next_number ps) (numeric_or_zero (prop (js_or body (VObj ∅)) "price"))
                      body now).
Proof.
  unfold new_product. rewrite nextId_unfold, number_or_zero_unfold.
  destruct (existsb _ ps); [reflexivity |].
  destruct (unprintable _); reflexivity.
Qed.

Lemma new_product_returns (ps : list obj) (body : value) (now : float) (prod : obj) :
  new_product ps body now = Some prod ->
  readable_ids ps /\ unprintable (prop (js_or body (VObj ∅)) "price") = false /\
  nextId ps = Some (next_number ps) /\
  number_or_zero (prop (js_or body (VObj ∅)) "price")
  = Some (numeric_or_zero (prop (js_or body (VObj ∅)) "price")) /\
  prod = record (next_number ps) (numeric_or_zero (prop (js_or body (VObj ∅)) "price")) body now.
Proof.
  rewrite new_product_unfold.
  destruct (existsb _ ps) eqn:X; [discriminate |].
  destruct (unprintable _) eqn:U; [discriminate |]. intros [= <-].
  apply readable_ids_existsb in X. split; [exact X |]. split; [reflexivity |].
  split; [apply nextId_Some; exact X |].
  split; [rewrite number_or_zero_unfold, U; reflexivity | reflexivity].
Qed.

Lemma new_product_Some (ps : list obj) (body : value) (now : float) :
  readable_ids ps -> unprintable (prop (js_or body (VObj ∅)) "price") = false ->
  new_product ps body now
  = Some (record (next_number ps) (numeric_or_zero (prop (js_or body (VObj ∅)) "price"))
                 body now).
Proof.
  intros R U. rewrite new_product_unfold, U. apply readable_ids_existsb in R. rewrite R.
  reflexivity.
Qed.

Lemma new_product_None (ps : list obj) (body : value) (now : float) :
  new_product ps body now = None <->
  (exists p, p ∈ ps /\ unprintable (get p "id") = true) \/
  unprintable (prop (js_or body (VObj ∅)) "price") = true.
Proof.
  rewrite new_product_unfold, <- nextId_None, nextId_unfold.
  destruct (existsb _ ps); cbn [orb].
  - split; [left; reflexivity | reflexivity].
  - destruct (unprintable _); split; try discriminate; auto.
    intros [H | H]; discriminate.
Qed.




(** *** Values that a JSON text holds *)

Lemma storable_list_to_map (l : list (string * value)) :
  Forall (fun kv => storable kv.2) l -> storable (VObj (list_to_map l)).
Proof.
  intros H. constructor. intros k v E. apply elem_of_list_to_map_2 in E.
  rewrite Forall_forall in H. apply (H (k, v)). exact E.
Qed.

Lemma storable_singleton (k : string) (v : value) : storable v -> storable (VObj {[ k := v ]}).
Proof. intros H. constructor. intros k' v' E. apply lookup_singleton_Some in E as [_ <-]. exact H. Qed.

Lemma storable_insert (k : string) (v : value) (o : obj) :
  storable v -> storable (VObj o) -> storable (VObj (<[ k := v ]> o)).
Proof.
  intros Hv Ho. inversion Ho as [| | | | | o' H]; subst. constructor. intros k' v' E.
  destruct (decide (k = k')) as [<- | N].
  - rewrite lookup_insert_eq in E. congruence.
  - rewrite lookup_insert_ne in E by exact N. eauto.
Qed.

Lemma storable_lookup (o : obj) (k : string) (v : value) :
  storable (VObj o) -> o !! k = Some v -> storable v.
Proof. intros Ho E. inversion Ho as [| | | | | o' H]; subst. eauto. Qed.

(** The properties that a spread copies from a value that a JSON text holds
    are such values. *)
Lemma storable_own_props (v : value) : storable v -> storable (VObj (own_props v)).
Proof.
  intros H. destruct H as [| b | n F Z | s | l H | o H]; cbn [own_props];
    try (constructor; intros k v E; rewrite lookup_empty in E; discriminate).
  - constructor. intros k v E. apply elem_of_list_to_map_2 in E.
    apply elem_of_lookup_imap in E as (i & a & E & _). injection E as _ ->. constructor.
  - constructor. intros k v E. apply elem_of_list_to_map_2 in E.
    apply elem_of_lookup_imap in E as (i & x & E & L). injection E as _ ->.
    rewrite Forall_lookup in H. eauto.
  - constructor. exact H.
Qed.

(** The merge of an update holds what a JSON text holds when the product and
    the body do. *)
Lemma storable_spread (prev : obj) (body : value) :
  storable (VObj prev) -> storable body -> is_Some (prev !! "id") ->
  storable (VObj (spread prev body)).
Proof.
  intros Hp Hb [v Ev]. unfold spread. apply storable_insert.
  - unfold get. rewrite Ev. cbn. apply storable_lookup with prev "id"; assumption.
  - apply storable_own_props in Hb. constructor. intros k x E.
    apply lookup_union_Some_raw in E as [E | [_ E]].
    + apply storable_lookup with (own_props body) k; assumption.
    + apply storable_lookup with prev k; assumption.
Qed.

Lemma storable_seed : storable_products (seed 0 0).
Proof.
  unfold storable_products, seed.
  constructor; [| constructor; [| constructor]]; apply storable_list_to_map;
    repeat (constructor;
            [cbn [snd]; first [ apply storable_str | apply storable_num; reflexivity
                              | apply storable_arr; repeat constructor ] |]);
    constructor.
Qed.

Lemma request_body_obj (o : obj) : request_body (VObj o).
Proof. right. left. exists o. reflexivity. Qed.

Lemma storable_foo_bar : storable (VObj (record 3 0 foo_bar 5)).
Proof.
  apply storable_list_to_map.
  repeat (constructor;
          [cbn [snd]; first [ apply storable_str | apply storable_num; reflexivity
                            | apply storable_arr; constructor ] |]).
  constructor.
Qed.

Lemma seed_members (P : obj -> Prop) :
  P (iphone 0) -> P (gaming_chair 0) -> forall p, p ∈ seed 0 0 -> P p.
Proof.
  intros H1 H2 p Hp. repeat (apply elem_of_cons in Hp as [-> | Hp]); [exact H1 | exact H2 |].
  inversion Hp.
Qed.


End Create.



(** C9. The seed: from a store with no products array, or an empty one,
    bootstrap leaves in memory and in the file exactly two products, with ids
    1 and 2, the iPhone 13 Pro at 799.0 and the Gaming Chair at 149.99; a
    collection that is not empty is left as it is. *)
Theorem bootstrap_spec (mem : option (list obj)) (now1 now2 : float) :
  bootstrap {| data := mem; file := None |} now1 now2 = synced (seed now1 now2) /\
  bootstrap (stored mem []) now1 now2 = synced (seed now1 now2) /\
  (forall p ps, bootstrap (stored mem (p :: ps)) now1 now2 = synced (p :: ps)) /\
  (fun p => (get p "id", get p "title", get p "price")) <$> seed now1 now2
  = [ (VNum 1, VStr "iPhone 13 Pro", VNum 799.0); (VNum 2, VStr "Gaming Chair", VNum 149.99) ].
Proof. repeat split. Qed.

(** ** Unique ids *)

Section UniqueIds.
Local Open Scope Z_scope.









(** Under the safe range, [next_number] is a number above every numeric id. *)
Lemma next_number_above (ps : list obj) :
  safe_ids ps ->
  is_nan (next_number ps) = false /\
  forall p, p ∈ ps -> frank (numeric_or_zero (get p "id")) < frank (next_number ps).
Proof.
  intros Hsafe. unfold next_number.
  pose proof (reduced_frank ps 0 is_nan_zero) as [Nr Er].
  pose proof (or_zero_frank _ Nr) as [Na Ea].
  set (a := (if Num.falsy (reduced ps 0) then 0 else reduced ps 0)%float) in *.
  rewrite Er in Ea. change (frank 0) with 0 in Ea.
  set (m := fold_right (fun p z => Z.max (frank (numeric_or_zero (get p "id"))) z) 0 ps) in *.
  assert (Hm : 0 <= m /\ forall p, p ∈ ps -> frank (numeric_or_zero (get p "id")) <= m).
  { subst m. clear. induction ps as [| q ps [H0 IH]]; cbn [fold_right].
    - split; [lia | intros p Hp; inversion Hp].
    - split; [lia |]. intros p Hp. apply elem_of_cons in Hp as [-> | Hp]; [lia |].
      specialize (IH p Hp). lia. }
  assert (Hlt : m < frank two_53).
  { subst m. clear - Hsafe. induction ps as [| q ps IH]; cbn [fold_right].
    - reflexivity.
    - assert (Hq : frank (numeric_or_zero (get q "id")) < frank two_53).
      { specialize (Hsafe q (list_elem_of_here _ _)).
        rewrite ltb_frank in Hsafe; [apply Z.ltb_lt; exact Hsafe | | reflexivity].
        apply number_or_zero_frank. }
      assert (IH' : fold_right (fun p z => Z.max (frank (numeric_or_zero (get p "id"))) z) 0 ps
                    < frank two_53)
        by (apply IH; intros p Hp; apply Hsafe; right; exact Hp).
      lia. }
  destruct Hm as [H0 Hub].
  assert (Hsafe_a : (a <? 9007199254740992)%float = true).
  { rewrite ltb_frank by (assumption || reflexivity). apply Z.ltb_lt. rewrite Ea. exact Hlt. }
  destruct (add_one_frank a Na ltac:(lia) Hsafe_a) as [N1 H1].
  split; [exact N1 |]. intros p Hp. specialize (Hub p Hp). lia.
Qed.

(** No product of the collection answers to the new id. *)
Lemma next_number_fresh (ps : list obj) (p : obj) :
  safe_ids ps -> p ∈ ps -> answers_to (next_number ps) p = false.
Proof.
  intros Hsafe Hp. destruct (next_number_above ps Hsafe) as [N Hgt]. specialize (Hgt p Hp).
  unfold answers_to, Num.strict_eq. destruct (is_nan (numeric (get p "id"))) eqn:Np.
  - apply eqb_nan_l. exact Np.
  - rewrite eqb_frank by assumption. apply Z.eqb_neq.
    destruct (number_or_zero_frank (get p "id")) as [_ E]. rewrite (E Np) in Hgt. lia.
Qed.

Lemma record_id (id price : float) (body : value) (now : float) :
  get (record id price body now) "id" = VNum id.
Proof. reflexivity. Qed.


Lemma GET_products_store (db : Low) (qry : query) : snd (GET_products db qry) = read db.
Proof.
  unfold GET_products. destruct (by_text _ _); [| reflexivity].
  destruct (sort_by _ _); reflexivity.
Qed.

Lemma Low_stored (db : Low) (ps : list obj) : file db = Some ps -> db = stored (data db) ps.
Proof. destruct db as [d f]. cbn. intros ->. reflexivity. Qed.

End UniqueIds.

Section Frames.

Lemma POST_file (mem : option (list obj)) (ps : list obj) (body : value) (now : float) :
  snd (POST_products (stored mem ps) body now) = stored mem ps \/
  snd (POST_products (stored mem ps) body now) = synced ps \/
  exists prod, new_product ps body now = Some prod /\
    snd (POST_products (stored mem ps) body now) = synced (ps ++ [prod]).
Proof.
  destruct (truthy (prop (js_or body (VObj ∅)) "title")) eqn:Ht;
    [destruct (truthy (prop (js_or body (VObj ∅)) "category")) eqn:Hc |].
  - right. destruct (new_product ps body now) as [prod |] eqn:E.
    + right. exists prod. rewrite (POST_created _ _ _ _ _ Ht Hc E). auto.
    + left. rewrite (POST_threw _ _ _ _ Ht Hc E). reflexivity.
  - left. rewrite POST_rejected by auto. reflexivity.
  - left. rewrite POST_rejected by auto. reflexivity.
Qed.

Lemma PUT_file (mem : option (list obj)) (ps : list obj) (id_param : string) (body : value) :
  snd (PUT_products_id (stored mem ps) id_param body) = synced ps \/
  exists idx prev, ps !! idx = Some prev /\
    snd (PUT_products_id (stored mem ps) id_param body)
    = synced (<[ idx := spread prev body ]> ps).
Proof.
  rewrite PUT_products_id_unfold.
  destruct (findIndex _ ps) as [[idx |] |]; [| left; reflexivity | left; reflexivity].
  destruct (ps !! idx) as [prev |] eqn:E; [| left; reflexivity].
  right. exists idx, prev. split; [exact E | reflexivity].
Qed.

Lemma DELETE_file (mem : option (list obj)) (ps : list obj) (id_param : string) :
  file (snd (DELETE_products_id (stored mem ps) id_param)) = Some ps \/
  file (snd (DELETE_products_id (stored mem ps) id_param))
  = Some (List.filter (fun p => negb (answers_to (Str.to_number id_param) p)) ps).
Proof.
  pose proof (DELETE_products_id_unfold mem ps id_param) as E. cbv zeta in E. rewrite E.
  destruct (existsb _ ps); [left; reflexivity |].
  destruct (Nat.eqb _ _); [left | right]; reflexivity.
Qed.

Lemma sublist_fmap_filter {A : Type} (g : obj -> A) (f : obj -> bool) (ps : list obj) :
  sublist (g <$> List.filter f ps) (g <$> ps).
Proof.
  induction ps as [| p ps IH]; cbn [List.filter fmap list_fmap]; [constructor |].
  destruct (f p); cbn [fmap list_fmap]; [apply sublist_skip | apply sublist_cons]; exact IH.
Qed.



End Frames.


Lemma seed_safe : safe_ids (seed 0 0).
Proof.
  intros p Hp. repeat (apply elem_of_cons in Hp as [-> | Hp]); [reflexivity | reflexivity |].
  inversion Hp.
Qed.






(** ** Listing: filters and sort *)

Section Listing.
Local Open Scope Z_scope.

Lemma GET_products_unfold (mem : option (list obj)) (ps : list obj) (qry : query) :
  GET_products (stored mem ps) qry
  = match filtered qry ps with
    | None => (Threw, synced ps)
    | Some items =>
        match sort_by (comparator (default "newest" (sort qry))) items with
        | None => (Threw, synced ps)
        | Some sorted => (Sent (Json 200 (items_body sorted)), synced ps)
        end
    end.
Proof. reflexivity. Qed.

(** *** Strings *)

Lemma starts_with_spec (t s : string) :
  Str.starts_with t s = true <-> exists b, s = (t ++ b)%string.
Proof.
  revert s. induction t as [| a t IH]; intros s; cbn [Str.starts_with].
  - split; [intros _; exists s; reflexivity | reflexivity].
  - destruct s as [| c s].
    + split; [discriminate | intros [b Hb]; discriminate].
    + rewrite andb_true_iff, Ascii.eqb_eq, IH. split.
      * intros [-> [b ->]]. exists b. reflexivity.
      * intros [b Hb]. cbn in Hb. injection Hb as -> ->. eauto.
Qed.

Lemma includes_spec (s t : string) : Str.includes s t = true <-> substring t s.
Proof.
  unfold substring. induction s as [| c s IH].
  - cbn [Str.includes]. rewrite orb_false_r, starts_with_spec. split.
    + intros [b Hb]. exists EmptyString, b. exact Hb.
    + intros (a & b & H). destruct a; [exists b; exact H | discriminate].
  - cbn [Str.includes]. rewrite orb_true_iff, starts_with_spec, IH. split.
    + intros [[b Hb] | (a & b & H)].
      * exists EmptyString, b. exact Hb.
      * exists (String c a), b. cbn. rewrite H. reflexivity.
    + intros (a & b & H). destruct a as [| c' a].
      * left. exists b. exact H.
      * right. cbn in H. injection H as -> ->. eauto.
Qed.

Lemma lowered_field_text (v : value) : lowered v = Str.toLowerCase <$> field_text v.
Proof.
  unfold lowered, js_or, field_text.
  destruct v as [| | b | n | s | l | o]; cbn [truthy]; try reflexivity.
  - destruct b; reflexivity.
  - destruct (negb (Num.falsy n)); reflexivity.
  - destruct (String.eqb_spec s ""); cbn [negb]; [subst |]; reflexivity.
Qed.

(** The predicate of the text filter says what [text_matches] says, when it
    does not throw. *)
Lemma matches_term_spec (s : string) (p : obj) :
  (matches_term (Str.toLowerCase s) p = Some true -> text_matches s p) /\
  (text_matches s p -> matches_term (Str.toLowerCase s) p <> None ->
   matches_term (Str.toLowerCase s) p = Some true) /\
  (texts_are_strings p -> matches_term (Str.toLowerCase s) p <> None).
Proof.
  unfold matches_term, text_matches, texts_are_strings. rewrite !lowered_field_text.
  destruct (field_text (get p "title")) as [t |]; cbn [fmap option_fmap option_map].
  - destruct (Str.includes (Str.toLowerCase t) (Str.toLowerCase s)) eqn:It.
    + split; [| split; [reflexivity | discriminate]].
      intros _. left. exists t. split; [reflexivity | apply includes_spec; exact It].
    + destruct (field_text (get p "description")) as [d |]; cbn [fmap option_fmap option_map].
      * split; [| split; [| discriminate]].
        -- intros [= Id]. right. exists d. split; [reflexivity | apply includes_spec; exact Id].
        -- intros [(t' & [= <-] & Ht) | (d' & [= <-] & Hd)] _.
           ++ apply includes_spec in Ht. congruence.
           ++ apply includes_spec in Hd. rewrite Hd. reflexivity.
      * split; [discriminate |]. split; [congruence |]. intros [_ H]. congruence.
  - split; [discriminate |]. split; [congruence |]. intros [H _]. congruence.
Qed.

(** *** Filters *)

Lemma strict_eq_string (v : value) (c : string) :
  strict_eq v (VStr c) = true <-> v = VStr c.
Proof.
  destruct v; cbn [strict_eq]; try (split; [discriminate | intros [=]]).
  rewrite String.eqb_eq. split; [intros -> | intros [=]]; auto.
Qed.

Lemma truthy_string (c : string) : truthy (VStr c) = true <-> c <> EmptyString.
Proof.
  cbn [truthy]. rewrite negb_true_iff. destruct (String.eqb_spec c ""); split; congruence.
Qed.

Lemma by_field_spec (k : string) (v : option string) (l : list obj) (p : obj) :
  p ∈ by_field k v l <->
  p ∈ l /\ forall c, v = Some c -> c <> EmptyString -> get p k = VStr c.
Proof.
  unfold by_field. destruct v as [c |]; cbn [param].
  - destruct (truthy (VStr c)) eqn:T.
    + rewrite elem_of_filter_bool, strict_eq_string. apply truthy_string in T. split.
      * intros [Hp E]. split; [exact Hp |]. intros c' [= <-] _. exact E.
      * intros [Hp E]. split; [exact Hp | apply E; auto].
    + split; [| tauto]. intros Hp. split; [exact Hp |].
      intros c' [= <-] Hc. apply truthy_string in Hc. congruence.
  - cbn [truthy]. split; [| tauto]. intros Hp. split; [exact Hp | discriminate].
Qed.

Lemma by_field_sublist (k : string) (v : option string) (l : list obj) :
  sublist (by_field k v l) l.
Proof.
  unfold by_field. destruct (truthy (param v)); [| reflexivity].
  pose proof (sublist_fmap_filter (fun p => p) (fun p => strict_eq (get p k) (param v)) l) as H.
  rewrite !list_fmap_id in H. exact H.
Qed.

Lemma by_text_spec (v : option string) (l r : list obj) :
  by_text v l = Some r ->
  sublist r l /\
  forall p, p ∈ r <-> p ∈ l /\ forall s, v = Some s -> s <> EmptyString -> text_matches s p.
Proof.
  unfold by_text. destruct v as [s |].
  - destruct (truthy (VStr s)) eqn:T.
    + intros H. apply filter_throwing_spec in H as [-> Hdef]. split.
      * pose proof (sublist_fmap_filter (fun p => p)
          (fun p => match matches_term (Str.toLowerCase s) p with Some true => true | _ => false end) l) as H.
        rewrite !list_fmap_id in H. exact H.
      * intros p. rewrite elem_of_filter_bool. destruct (matches_term_spec s p) as (M1 & M2 & _).
        split.
        -- intros [Hp E]. split; [exact Hp |]. intros s' [= <-] _. apply M1.
           destruct (matches_term _ p) as [[|] |]; congruence.
        -- intros [Hp E]. split; [exact Hp |]. apply truthy_string in T.
           rewrite (M2 (E s eq_refl T) (Hdef p Hp)). reflexivity.
    + intros [= <-]. split; [reflexivity |]. intros p. split; [| tauto].
      intros Hp. split; [exact Hp |]. intros s' [= <-] Hs. apply truthy_string in Hs. congruence.
  - intros [= <-]. split; [reflexivity |]. intros p. split; [| tauto].
    intros Hp. split; [exact Hp | discriminate].
Qed.

Lemma filtered_spec (qry : query) (ps r : list obj) :
  filtered qry ps = Some r ->
  sublist r ps /\ forall p, p ∈ r <-> p ∈ ps /\ kept_by qry p.
Proof.
  unfold filtered, kept_by. intros H. apply by_text_spec in H as [S H]. split.
  - etransitivity; [exact S |]. etransitivity; apply by_field_sublist.
  - intros p. rewrite H, !by_field_spec. tauto.
Qed.



(** *** Sort *)

Lemma insert_by_perm (cmp : obj -> obj -> float) (x : obj) (l : list obj) :
  Permutation (insert_by cmp x l) (x :: l).
Proof.
  induction l as [| y l IH]; cbn [insert_by]; [reflexivity |].
  destruct (0 <? cmp x y)%float; [| reflexivity].
  rewrite IH. apply perm_swap.
Qed.

Lemma sorted_by_perm (cmp : obj -> obj -> float) (l : list obj) : Permutation (sorted_by cmp l) l.
Proof.
  induction l as [| x l IH]; cbn [sorted_by fold_right]; [reflexivity |].
  fold (sorted_by cmp l). rewrite insert_by_perm, IH. reflexivity.
Qed.

(** A comparator that is positive exactly when its first argument has the
    greater rank sorts by rank. *)
Lemma sorted_by_sorted (cmp : obj -> obj -> float) (r : obj -> Z) (l : list obj) :
  (forall x y, x ∈ l -> y ∈ l -> (0 <? cmp x y)%float = (r y <? r x)) ->
  StronglySorted (fun a b => r a <= r b) (sorted_by cmp l).
Proof.
  intros Hcmp.
  assert (Hins : forall x l', (forall y, y ∈ l' -> (0 <? cmp x y)%float = (r y <? r x)) ->
            StronglySorted (fun a b => r a <= r b) l' ->
            StronglySorted (fun a b => r a <= r b) (insert_by cmp x l')).
  { intros x l'. induction l' as [| y l' IH]; intros Hx Hs; cbn [insert_by].
    - repeat constructor.
    - apply StronglySorted_inv in Hs as [Hs Hy].
      rewrite (Hx y (list_elem_of_here _ _)). destruct (Z.ltb_spec (r y) (r x)) as [Hlt | Hge].
      + constructor; [apply IH; [intros z Hz; apply Hx; right; exact Hz | exact Hs] |].
        apply Forall_forall. intros z Hz.
        rewrite insert_by_perm in Hz. apply elem_of_cons in Hz as [-> | Hz]; [lia |].
        rewrite Forall_forall in Hy. apply Hy. exact Hz.
      + constructor; [constructor; assumption |].
        constructor; [exact Hge |]. eapply Forall_impl; [exact Hy |]. cbn. intros. lia. }
  induction l as [| x l IH]; cbn [sorted_by fold_right]; [constructor |].
  fold (sorted_by cmp l). apply Hins.
  - intros y Hy. rewrite sorted_by_perm in Hy. apply Hcmp; [left | right; exact Hy].
  - apply IH. intros a b Ha Hb. apply Hcmp; right; assumption.
Qed.

Lemma StronglySorted_impl_elem (R R' : obj -> obj -> Prop) (l : list obj) :
  (forall a b, a ∈ l -> b ∈ l -> R a b -> R' a b) ->
  StronglySorted R l -> StronglySorted R' l.
Proof.
  intros H S. induction S as [| a l S IH F]; constructor.
  - apply IH. intros x y Hx Hy. apply H; right; assumption.
  - rewrite Forall_forall in *. intros b Hb. apply H; [left | right; exact Hb |].
    apply F. exact Hb.
Qed.

Lemma sorted_by_ascending (k : string) (cmp : obj -> obj -> float) (l : list obj) :
  (forall a b, cmp a b = (key_number k a - key_number k b)%float) ->
  numbered k l -> ascending k (sorted_by cmp l).
Proof.
  intros Hcmp N. unfold ascending.
  apply StronglySorted_impl_elem with (R := fun a b => frank (key_number k a) <= frank (key_number k b)).
  - intros a b Ha Hb H. rewrite sorted_by_perm in Ha, Hb.
    rewrite leb_frank by (apply N; assumption). apply Z.leb_le. exact H.
  - apply sorted_by_sorted. intros x y Hx Hy. rewrite Hcmp. apply sub_pos_frank; apply N; assumption.
Qed.

Lemma sorted_by_descending (k : string) (cmp : obj -> obj -> float) (l : list obj) :
  (forall a b, cmp a b = (key_number k b - key_number k a)%float) ->
  numbered k l -> descending k (sorted_by cmp l).
Proof.
  intros Hcmp N. unfold descending.
  apply StronglySorted_impl_elem with (R := fun a b => - frank (key_number k a) <= - frank (key_number k b)).
  - intros a b Ha Hb H. rewrite sorted_by_perm in Ha, Hb.
    rewrite leb_frank by (apply N; assumption). apply Z.leb_le. lia.
  - apply sorted_by_sorted. intros x y Hx Hy. rewrite Hcmp.
    rewrite sub_pos_frank by (apply N; assumption).
    destruct (Z.ltb_spec (frank (key_number k x)) (frank (key_number k y)));
      destruct (Z.ltb_spec (- frank (key_number k y)) (- frank (key_number k x))); try reflexivity; lia.
Qed.

(** A key that is a number, or missing, is a number for the sort. *)
Lemma numbered_numbers (k : string) (l : list obj) :
  (forall p, p ∈ l -> get p k = VUndef \/ exists n, get p k = VNum n /\ is_nan n = false) ->
  numbered k l.
Proof.
  intros H p Hp. unfold key_number, js_or. destruct (H p Hp) as [-> | (n & -> & N)]; [reflexivity |].
  destruct (truthy (VNum n)); [exact N | reflexivity].
Qed.

Lemma comparator_cases (s : string) :
  (s = "price-asc" /\ comparator s = price_asc /\ sort_field s = "price" /\
   comparator_number s = by_key "price") \/
  (s = "price-desc" /\ comparator s = price_desc /\ sort_field s = "price" /\
   comparator_number s = fun a b => by_key "price" b a) \/
  (s <> "price-asc" /\ s <> "price-desc" /\ comparator s = newest /\
   sort_field s = "createdAt" /\ comparator_number s = fun a b => by_key "createdAt" b a).
Proof.
  unfold comparator, sort_field, comparator_number.
  destruct (String.eqb_spec s "price-asc") as [-> | H1]; [left; auto |].
  destruct (String.eqb_spec s "price-desc") as [-> | H2]; [right; left; auto |].
  right. right. auto.
Qed.

(** *** The sort with a comparator that may throw *)

Lemma key_unfold (k : string) (p : obj) :
  key k p = if unprintable (js_or (get p k) (VNum 0)) then None else Some (key_number k p).
Proof. reflexivity. Qed.

Lemma key_None (k : string) (p : obj) :
  key k p = None <-> unprintable (js_or (get p k) (VNum 0)) = true.
Proof. apply to_number_None. Qed.

Lemma difference_unfold (k : string) (a b : obj) :
  difference k a b
  = if unprintable (js_or (get a k) (VNum 0)) || unprintable (js_or (get b k) (VNum 0))
    then None else Some (by_key k a b).
Proof.
  unfold difference. rewrite !key_unfold.
  destruct (unprintable (js_or (get a k) (VNum 0))); [reflexivity |].
  destruct (unprintable (js_or (get b k) (VNum 0))); reflexivity.
Qed.

(** The comparator of a sort throws on a pair exactly when it cannot convert
    the key of one of the two, and is the difference of the keys
    otherwise. *)
Lemma comparator_unfold (s : string) (a b : obj) :
  comparator s a b
  = if unprintable (js_or (get a (sort_field s)) (VNum 0))
       || unprintable (js_or (get b (sort_field s)) (VNum 0))
    then None else Some (comparator_number s a b).
Proof.
  destruct (comparator_cases s) as [(_ & -> & -> & ->) | [(_ & -> & -> & ->) | (_ & _ & -> & -> & ->)]];
    unfold price_asc, price_desc, newest; rewrite difference_unfold; try reflexivity;
    rewrite orb_comm; reflexivity.
Qed.

Lemma insert_sorted_returns (cmp : obj -> obj -> option float) (c : obj -> obj -> float)
    (x : obj) (l : list obj) :
  (forall y, y ∈ l -> cmp x y = Some (c x y)) ->
  insert_sorted cmp x l = Some (insert_by c x l).
Proof.
  induction l as [| y l IH]; intros H; cbn [insert_sorted insert_by]; [reflexivity |].
  rewrite (H y (list_elem_of_here _ _)). cbn.
  destruct (0 <? c x y)%float; [| reflexivity].
  rewrite IH by (intros z Hz; apply H, list_elem_of_further, Hz). reflexivity.
Qed.

Lemma sort_by_returns (cmp : obj -> obj -> option float) (c : obj -> obj -> float)
    (l : list obj) :
  (forall x y, x ∈ l -> y ∈ l -> cmp x y = Some (c x y)) ->
  sort_by cmp l = Some (sorted_by c l).
Proof.
  induction l as [| x l IH]; intros H; cbn [sort_by sorted_by fold_right]; [reflexivity |].
  fold (sorted_by c l).
  rewrite IH by (intros a b Ha Hb; apply H; apply list_elem_of_further; assumption). cbn.
  apply insert_sorted_returns. intros y Hy. rewrite sorted_by_perm in Hy.
  apply H; [apply list_elem_of_here | apply list_elem_of_further, Hy].
Qed.

Lemma insert_sorted_perm (cmp : obj -> obj -> option float) (x : obj) (l r : list obj) :
  insert_sorted cmp x l = Some r -> Permutation r (x :: l).
Proof.
  revert r. induction l as [| y l IH]; intros r; cbn [insert_sorted].
  - intros [= <-]. reflexivity.
  - destruct (cmp x y) as [c |]; cbn; [| discriminate].
    destruct (0 <? c)%float; [| intros [= <-]; reflexivity].
    destruct (insert_sorted cmp x l) as [r' |]; cbn; [| discriminate].
    intros [= <-]. rewrite (IH r' eq_refl). apply perm_swap.
Qed.

Lemma sort_by_perm (cmp : obj -> obj -> option float) (l r : list obj) :
  sort_by cmp l = Some r -> Permutation r l.
Proof.
  revert r. induction l as [| x l IH]; intros r; cbn [sort_by].
  - intros [= <-]. reflexivity.
  - destruct (sort_by cmp l) as [r' |]; cbn; [| discriminate].
    intros H. apply insert_sorted_perm in H. rewrite H, (IH r' eq_refl). reflexivity.
Qed.

(** A sort throws exactly when the list has two items or more and the
    comparator throws on one of them. *)
Lemma sort_by_None (cmp : obj -> obj -> option float) (bad : obj -> bool) (l : list obj) :
  (forall x y, cmp x y = None <-> bad x = true \/ bad y = true) ->
  (sort_by cmp l = None <-> (2 <= length l)%nat /\ exists p, p ∈ l /\ bad p = true).
Proof.
  intros Hcmp.
  assert (Hins : forall x r, r <> [] -> (forall y, y ∈ r -> bad y = false) ->
                   (insert_sorted cmp x r = None <-> bad x = true)).
  { intros x r. induction r as [| y r IH]; intros Hne Hr; [congruence |].
    cbn [insert_sorted]. destruct (cmp x y) as [c |] eqn:C; cbn.
    - assert (Bx : bad x = false).
      { destruct (bad x) eqn:B; [| reflexivity].
        rewrite (proj2 (Hcmp x y) (or_introl B)) in C. discriminate. }
      rewrite Bx. destruct (0 <? c)%float; [| split; discriminate].
      destruct r as [| z r]; [cbn; split; discriminate |].
      destruct (insert_sorted cmp x (z :: r)) eqn:I; cbn; [split; discriminate |].
      exfalso. assert (B : bad x = true).
      { apply IH; [discriminate | intros w Hw; apply Hr, list_elem_of_further, Hw | reflexivity]. }
      congruence.
    - apply Hcmp in C as [B | B]; [rewrite B; tauto |].
      rewrite (Hr y (list_elem_of_here _ _)) in B. discriminate. }
  induction l as [| x l IH]; cbn [sort_by length].
  - split; [discriminate | intros [H _]; lia].
  - destruct (sort_by cmp l) as [r |] eqn:S; cbn.
    + pose proof (sort_by_perm _ _ _ S) as P.
      assert (Hclean : (2 <= length l)%nat -> forall y, y ∈ r -> bad y = false).
      { intros H2 y Hy. destruct (bad y) eqn:B; [| reflexivity].
        assert (N : @None (list obj) = Some r -> False) by discriminate.
        exfalso. assert (E : Some r = None); [| discriminate].
        apply IH. split; [exact H2 |]. exists y. rewrite <- P. auto. }
      destruct l as [| y [| z l]].
      * apply Permutation_nil_r in P. subst r. cbn. split; [discriminate |].
        intros [H _]. cbn in H. lia.
      * apply Permutation_singleton_r in P. subst r. cbn [insert_sorted].
        destruct (cmp x y) as [c |] eqn:C; cbn.
        -- destruct (0 <? c)%float; (split; [discriminate |]);
             intros [_ (p & Hp & B)]; exfalso;
             assert (E : cmp x y = None)
               by (apply Hcmp; apply elem_of_cons in Hp as [-> | Hp]; [left; exact B |];
                   apply list_elem_of_singleton in Hp as ->; right; exact B);
             congruence.
        -- split; [intros _ | reflexivity]. split; [cbn; lia |].
           apply Hcmp in C as [B | B]; [exists x | exists y]; split; auto.
           ++ apply list_elem_of_here.
           ++ apply list_elem_of_further, list_elem_of_here.
      * assert (Hr : forall w, w ∈ r -> bad w = false) by (apply Hclean; cbn; lia).
        assert (Hne : r <> []).
        { intros ->. apply Permutation_nil_l in P. discriminate. }
        rewrite (Hins x r Hne Hr). split.
        -- intros B. split; [cbn; lia |]. exists x. split; [apply list_elem_of_here | exact B].
        -- intros [_ (p & Hp & B)]. apply elem_of_cons in Hp as [-> | Hp]; [exact B |].
           rewrite <- P in Hp. rewrite (Hr p Hp) in B. discriminate.
    + split; [intros _ | reflexivity].
      destruct (proj1 IH eq_refl) as [H2 (p & Hp & B)].
      split; [lia |]. exists p. split; [apply list_elem_of_further; exact Hp | exact B].
Qed.

Lemma numbered_readable (k : string) (l : list obj) : numbered k l -> readable_keys k l.
Proof. intros N p Hp. apply numeric_readable. apply (N p Hp). Qed.

(** With keys that can be converted the sort is the sort by the comparator
    as a number. *)
Lemma sort_by_readable (s : string) (l : list obj) :
  readable_keys (sort_field s) l ->
  sort_by (comparator s) l = Some (sorted_by (comparator_number s) l).
Proof.
  intros R. apply sort_by_returns. intros x y Hx Hy.
  rewrite comparator_unfold, (R x Hx), (R y Hy). reflexivity.
Qed.

Lemma sort_by_throws (s : string) (l : list obj) :
  sort_by (comparator s) l = None <->
  (2 <= length l)%nat /\ exists p, p ∈ l /\ key (sort_field s) p = None.
Proof.
  rewrite (sort_by_None (comparator s)
             (fun p => unprintable (js_or (get p (sort_field s)) (VNum 0)))).
  - split; intros [H (p & Hp & B)]; (split; [exact H |]); exists p; (split; [exact Hp |]).
    + apply key_None. exact B.
    + apply key_None in B. exact B.
  - intros x y. rewrite comparator_unfold.
    destruct (unprintable (js_or (get x (sort_field s)) (VNum 0)));
      destruct (unprintable (js_or (get y (sort_field s)) (VNum 0))); cbn [orb];
      split; try discriminate; auto; intros [H | H]; discriminate.
Qed.

End Listing.




(** C5, for keys that are numbers. The sort of a list is a rearrangement of
    it; where the key of every product is a number, as it is when each is a
    number or missing, for [price-asc] it is
    in ascending order of price, for [price-desc] in descending order of
    price, and for any other value in descending order of createdAt, where a
    missing (falsy) key counts as 0, and the items of a 200 answer are the
    filtered products in that order, for a collection that holds what a
    JSON text holds. The sort throws a TypeError exactly
    when the list has two products or more and the key of one cannot be
    converted. *)
Theorem sort_spec (l : list obj) (s : string) :
  (numbered (sort_field s) l ->
   exists sorted,
     sort_by (comparator s) l = Some sorted /\
     (s = "price-asc" -> ascending "price" sorted) /\
     (s = "price-desc" -> descending "price" sorted) /\
     (s <> "price-asc" -> s <> "price-desc" -> descending "createdAt" sorted) /\
     (forall mem ps qry,
        storable_products ps ->
        filtered qry ps = Some l -> s = default "newest" (sort qry) ->
        fst (GET_products (stored mem ps) qry) = Sent (Json 200 (items_body sorted)))) /\
  (forall sorted, sort_by (comparator s) l = Some sorted -> Permutation sorted l) /\
  (sort_by (comparator s) l = None <->
   2 <= length l /\ exists p, p ∈ l /\ key (sort_field s) p = None) /\
  (forall k p, truthy (get p k) = false -> key k p = Some 0%float) /\
  (forall k, (forall p, p ∈ l -> get p k = VUndef \/
                                 exists n, get p k = VNum n /\ is_nan n = false) ->
             numbered k l).
Proof.
  split; [| split; [| split; [| split]]].
  - intros N. exists (sorted_by (comparator_number s) l).
    pose proof (sort_by_readable s l (numbered_readable _ _ N)) as E.
    split; [exact E |].
    assert (G : forall mem ps qry,
              storable_products ps ->
              filtered qry ps = Some l -> s = default "newest" (sort qry) ->
              fst (GET_products (stored mem ps) qry)
              = Sent (Json 200 (items_body (sorted_by (comparator_number s) l)))).
    { intros mem ps qry _ F Es. rewrite GET_products_unfold, F, <- Es, E. reflexivity. }
    destruct (comparator_cases s) as [(Hs & _ & Hf & Hc) | [(Hs & _ & Hf & Hc) | (H1 & H2 & _ & Hf & Hc)]];
      rewrite Hf in N; rewrite Hc in G |- *.
    + split; [intros _; apply sorted_by_ascending; [reflexivity | exact N] |].
      split; [intros E'; congruence |]. split; [intros E'; congruence | exact G].
    + split; [intros E'; congruence |].
      split; [intros _; apply sorted_by_descending; [reflexivity | exact N] |].
      split; [intros E'; congruence | exact G].
    + split; [intros E'; congruence |]. split; [intros E'; congruence |].
      split; [intros _ _; apply sorted_by_descending; [reflexivity | exact N] | exact G].
  - intros sorted. apply sort_by_perm.
  - apply sort_by_throws.
  - intros k p T. unfold key, js_or. rewrite T. reflexivity.
  - intros k. apply numbered_numbers.
Qed.

(** Scenario for C5: the prices 150, 50, 800. *)
Lemma sort_spec_witness :
  exists sorted,
    sort_by (comparator "price-asc") [ priced 150; priced 50; priced 800 ] = Some sorted /\
    sorted = [ priced 50; priced 150; priced 800 ] /\ ascending "price" sorted.
Proof.
  destruct (sort_spec [ priced 150; priced 50; priced 800 ] "price-asc") as [H _].
  destruct H as (sorted & E & A & _).
  - intros p Hp.
    repeat (apply elem_of_cons in Hp as [-> | Hp]; [reflexivity |]). inversion Hp.
  - exists sorted. split; [exact E |]. split; [| apply A; reflexivity].
    assert (E' : sort_by (comparator "price-asc") [ priced 150; priced 50; priced 800 ]
                 = Some [ priced 50; priced 150; priced 800 ]) by (vm_compute; reflexivity).
    congruence.
Defined.

(** As C5 stands it fails for a price that is no number, which an update can
    set: with the prices 3, 2 and 1, after the update of the second to the
    string [abc] the list by [price-asc] answers the prices 3, [abc], 1, the
    3 before the 1: every comparison with [abc] gives [NaN], which counts as
    0, and nothing moves. *)
Lemma unsorted_prices :
  (fun v => prop v "price")
    <$> items_of (fst (GET_products
                         (run (synced three_prices) [ PUT "2" (VObj {[ "price" := VStr "abc" ]}) ])
                         {| q := None; category := None; subcategory := None;
                            sort := Some "price-asc" |}))
  = [ VNum 3; VStr "abc"; VNum 1 ].
Proof. vm_compute. reflexivity. Qed.

(** ** The specification's scenarios *)


(** Scenario for C2, the seeded store: the patch of a price keeps every other field and
    the id; an id that no product has is answered 404. *)
Lemma PUT_products_id_spec_witness :
  PUT_products_id seeded "9" (VObj {[ "price" := VNum 500 ]})
  = (Sent (Json 404 (error "Not found")), seeded) /\
  PUT_products_id seeded "2" (VObj {[ "price" := VNum 500; "id" := VNum 7 ]}%stdpp)
  = (Sent (Json 200 (VObj (<[ "price" := VNum 500 ]> (gaming_chair 0)))),
     synced [ iphone 0; <[ "price" := VNum 500 ]> (gaming_chair 0) ]) /\
  spread (gaming_chair 0) (VObj {[ "price" := VNum 500; "id" := VNum 7 ]}) !! "id"
  = gaming_chair 0 !! "id".
Proof.
  split.
  - apply (PUT_products_id_spec (Some (seed 0 0)) (seed 0 0) "9" _ (request_body_obj _)).
    apply seed_members; vm_compute; reflexivity.
  - destruct (PUT_products_id_spec (Some (seed 0 0)) (seed 0 0) "2"
                (VObj {[ "price" := VNum 500; "id" := VNum 7 ]}) (request_body_obj _))
      as (_ & H & _).
    destruct (H 1 (gaming_chair 0)) as (E & _ & Eid & _).
    + reflexivity.
    + vm_compute. reflexivity.
    + intros j q Hj Hq. destruct j as [| j]; [| lia]. injection Hq as <-.
      vm_compute. reflexivity.
    + split; [| exact Eid].
      assert (Es : spread (gaming_chair 0) (VObj {[ "price" := VNum 500; "id" := VNum 7 ]})
                   = <[ "price" := VNum 500 ]> (gaming_chair 0)) by (vm_compute; reflexivity).
      rewrite Es in E. apply E. apply Forall_insert; [exact storable_seed |].
      apply storable_insert; [apply storable_num; reflexivity |].
      apply (seed_members (fun p => storable (VObj p))).
      * exact (Forall_inv storable_seed).
      * exact (Forall_inv (Forall_inv_tail storable_seed)).
      * right. left.
Defined.



(** * More on the order of binary64 numbers *)

Section AtLeastOne.

Local Open Scope Z_scope.

(** Rounding a value that is at least 1 gives at least 1: the cut to 53
    bits keeps the leading bit. *)
Lemma binary_round_ge_one (s : bool) (m : positive) (e : Z) :
  -1074 <= e -> 2 ^ 1074 <= Zpos m * 2 ^ (e + 1074) ->
  match binary_round prec emax s m e with
  | S754_infinity s' => s' = s
  | S754_finite s' m' e' => s' = s /\ 2 ^ 1074 <= Zpos m' * 2 ^ (e' + 1074)
  | _ => False
  end.
Proof.
  intros He Hone. unfold binary_round.
  assert (Hf : -1074 <= fexp prec emax (Zpos (digits2_pos m) + e))
    by (unfold fexp, SpecFloat.emin, prec, emax; lia).
  pose proof (shl_align_spec m e _ He Hf) as (Hz & _ & Hv).
  destruct (shl_align m e (fexp prec emax (Zpos (digits2_pos m) + e))) as [mz ez].
  cbn [fst snd] in Hz, Hv.
  pose proof (binary_round_aux_spec s (Zpos mz) ez loc_Exact ltac:(lia) Hz) as Ha.
  destruct (binary_round_aux prec emax s (Zpos mz) ez loc_Exact) as [| | | s' m' e']; try exact Ha.
  destruct Ha as [Hs Hle]. split; [exact Hs |].
  rewrite <- Hv in Hone. apply Z.le_trans with (2 := Hle).
  pose proof (Zdigits2_bounds (Zpos mz) ltac:(lia)) as [[Dlo Dhi] Dpos].
  pose proof (pow2_pos (ez + 1074) ltac:(lia)) as Hp.
  unfold dropped. destruct (Z.max_spec 0 (Zdigits2 (Zpos mz) - 53)) as [[Hc ->] | [Hc ->]].
  - set (d := Zdigits2 (Zpos mz)) in *.
    assert (Hde : 1 <= d + ez).
    { destruct (Z.le_gt_cases 1 (d + ez)) as [| Hgt]; [assumption | exfalso].
      assert (2 ^ d * 2 ^ (ez + 1074) <= 2 ^ 1074)
        by (rewrite <- Z.pow_add_r by lia; apply pow2_le; lia).
      assert (Zpos mz * 2 ^ (ez + 1074) < 2 ^ d * 2 ^ (ez + 1074))
        by (apply Z.mul_lt_mono_pos_r; lia).
      lia. }
    assert (Hq : 2 ^ 52 <= Zpos mz / 2 ^ (d - 53)).
    { apply Z.div_le_lower_bound; [apply pow2_pos; lia |].
      rewrite <- Z.pow_add_r by lia. replace (d - 53 + 52) with (d - 1) by lia. exact Dlo. }
    apply Z.le_trans with (2 ^ 52 * 2 ^ (ez + (d - 53) + 1074)).
    + rewrite <- Z.pow_add_r by lia. apply pow2_le. lia.
    + apply Z.mul_le_mono_nonneg_r; [| exact Hq].
      pose proof (pow2_pos (ez + (d - 53) + 1074) ltac:(lia)). lia.
  - rewrite Z.div_1_r, Z.add_0_r. exact Hone.
Qed.

(** Adding one to a number that is not negative gives a number that is at
    least 1 (positive infinity included). *)
Lemma SFadd_one_ge_one (x : spec_float) :
  valid_binary x = true -> x <> S754_nan -> 0 <= rank x ->
  SFadd prec emax x SFone <> S754_nan /\ 2 ^ 1074 <= rank (SFadd prec emax x SFone).
Proof.
  intros Vx Nx Hlo. pose proof rank_inf_pos as Ht.
  assert (H1074 : 0 < 2 ^ 1074) by (apply pow2_pos; lia).
  assert (Hone : Zpos 4503599627370496 * 2 ^ (-52 + 1074) = 2 ^ 1074).
  { change (Zpos 4503599627370496) with (2 ^ 52). rewrite <- Z.pow_add_r by lia. reflexivity. }
  assert (Hinf : 2 ^ 1074 <= rank_inf) by (unfold rank_inf; apply pow2_le; lia).
  destruct x as [sx | sx | | sx mx ex]; [| | congruence |]; cbn [rank] in Hlo.
  - cbn [SFadd SFone rank cond_Zopp]. split; [discriminate | lia].
  - destruct sx; [lia |]. cbn [SFadd SFone rank]. split; [discriminate | exact Hinf].
  - pose proof (finite_rank_bound _ _ Vx) as Hb.
    destruct sx; cbn [cond_Zopp] in Hlo; [lia |].
    pose proof (valid_exponent _ _ _ Vx) as Hex.
    unfold SFone. cbn [SFadd cond_Zopp].
    pose proof (shl_align_spec mx ex (Z.min ex (-52)) Hex ltac:(lia)) as (_ & Ea & Va).
    pose proof (shl_align_spec 4503599627370496 (-52) (Z.min ex (-52)) ltac:(lia) ltac:(lia))
      as (_ & Eb & Vb).
    replace (Z.min ex (Z.min ex (-52))) with (Z.min ex (-52)) in Ea by lia.
    replace (Z.min (-52) (Z.min ex (-52))) with (Z.min ex (-52)) in Eb by lia.
    rewrite Ea in Va. rewrite Eb in Vb. rewrite Hone in Vb.
    set (ez := Z.min ex (-52)) in *.
    set (a := fst (shl_align mx ex ez)) in *.
    set (b := fst (shl_align 4503599627370496 (-52) ez)) in *.
    rewrite <- Pos2Z.inj_add. cbn [binary_normalize].
    assert (Hv : Zpos (a + b) * 2 ^ (ez + 1074) = Zpos mx * 2 ^ (ex + 1074) + 2 ^ 1074)
      by (rewrite <- Va, <- Vb, <- Z.mul_add_distr_r, Pos2Z.inj_add; reflexivity).
    pose proof (binary_round_ge_one false (a + b) ez ltac:(lia) ltac:(lia)) as Hr.
    destruct (binary_round prec emax false (a + b) ez) as [s' | s' | | s' m' e'];
      try contradiction.
    + subst s'. cbn [rank cond_Zopp]. split; [discriminate | exact Hinf].
    + destruct Hr as [-> Hr]. cbn [rank cond_Zopp]. split; [discriminate | exact Hr].
Qed.

Local Open Scope float_scope.

Lemma add_one_ge_one (a : float) :
  is_nan a = false -> (0 <= frank a)%Z ->
  is_nan (a + 1) = false /\ (1 <=? a + 1) = true.
Proof.
  intros Na Hlo.
  pose proof (SFadd_one_ge_one (Prim2SF a) (Prim2SF_valid a)
                (proj1 (is_nan_Prim2SF a) Na) Hlo) as [Hn Hge].
  assert (E : Prim2SF (a + 1) = SFadd prec emax (Prim2SF a) SFone) by (rewrite add_spec; reflexivity).
  assert (N : is_nan (a + 1) = false) by (apply is_nan_Prim2SF; rewrite E; exact Hn).
  split; [exact N |].
  rewrite leb_frank by (reflexivity || exact N). apply Z.leb_le.
  assert (E1 : frank 1 = (2 ^ 1074)%Z) by reflexivity.
  rewrite E1. unfold frank. rewrite E. exact Hge.
Qed.

(** A comparison that holds compares two numbers. *)
Lemma ltb_numbers (x y : float) : (x <? y) = true -> is_nan x = false /\ is_nan y = false.
Proof.
  rewrite FloatAxioms.ltb_spec. intros H. split; apply is_nan_Prim2SF; intros E;
    rewrite E in H; [| destruct (Prim2SF x)]; discriminate.
Qed.

End AtLeastOne.
(** * Identifiers and order *)

Section Identifiers.

Local Open Scope Z_scope.

Lemma next_number_at_least_one (items : list obj) :
  is_nan (next_number items) = false /\ (1 <=? next_number items)%float = true.
Proof.
  unfold next_number.
  destruct (reduced_frank items 0 is_nan_zero) as [N F].
  destruct (or_zero_frank _ N) as [N' F'].
  apply add_one_ge_one; [exact N' |].
  rewrite F', F. apply fold_max_nonneg.
Qed.

Lemma existsb_perm {A : Type} (f : A -> bool) (l l' : list A) :
  Permutation l l' -> existsb f l = existsb f l'.
Proof.
  induction 1 as [| x l l' _ IH | x y l | l l' l'' _ IH1 _ IH2]; cbn [existsb];
    [reflexivity | rewrite IH; reflexivity | | congruence].
  destruct (f x), (f y); reflexivity.
Qed.

Lemma readable_ids_snoc (ps : list obj) (id price : float) (body : value) (now : float) :
  readable_ids ps -> readable_ids (ps ++ [record id price body now]).
Proof.
  intros R p Hp. apply elem_of_app in Hp as [Hp | Hp]; [apply R, Hp |].
  apply list_elem_of_singleton in Hp. subst p. reflexivity.
Qed.

End Identifiers.

(** X1. With ids that [Number] converts [nextId] returns, and what it
    returns is a number, never NaN, and at least 1, whatever the items hold
    as ids; it is the id of the record that a create builds, whose price is
    never NaN. *)
Theorem nextId_at_least_one (items : list obj) :
  (readable_ids items -> exists n, nextId items = Some n) /\
  forall n, nextId items = Some n ->
    is_nan n = false /\ (1 <=? n)%float = true /\
    forall body now prod, new_product items body now = Some prod ->
      get prod "id" = VNum n /\
      exists price, get prod "price" = VNum price /\ is_nan price = false.
Proof.
  split; [intros R; rewrite (nextId_Some _ R); eauto |].
  intros n E. apply nextId_returns in E as [_ ->].
  destruct (next_number_at_least_one items) as [N L].
  split; [exact N |]. split; [exact L |].
  intros body now prod P. apply new_product_returns in P as (_ & _ & _ & _ & ->).
  split; [apply record_id |].
  exists (numeric_or_zero (prop (js_or body (VObj ∅)) "price")).
  split; [reflexivity | apply number_or_zero_frank].
Qed.

(** Scenario for X1, the seed: the next id is 3, and the record of a create
    has it. *)
Lemma nextId_at_least_one_witness :
  is_nan 3 = false /\ (1 <=? 3)%float = true /\
  get (record 3 0 foo_bar 5) "id" = VNum 3.
Proof.
  destruct (nextId_at_least_one (seed 0 0)) as [_ H].
  destruct (H 3%float) as (N & L & P); [vm_compute; reflexivity |].
  split; [exact N |]. split; [exact L |].
  apply (P foo_bar 5%float (record 3 0 foo_bar 5)). vm_compute. reflexivity.
Defined.

(** X2. The next id does not depend on the order of the items. *)
Theorem nextId_order_free (items items' : list obj) :
  Permutation items items' -> nextId items = nextId items'.
Proof.
  intros P. rewrite !nextId_unfold, (existsb_perm _ _ _ P), (next_number_perm _ _ P).
  reflexivity.
Qed.

(** Scenario for X2: the two records of the seed, in either order. *)
Lemma nextId_order_free_witness :
  nextId [ iphone 0; gaming_chair 0 ] = nextId [ gaming_chair 0; iphone 0 ].
Proof. apply nextId_order_free. apply Permutation_swap. Defined.

(** X3. While the ids are below 2^53, the id that a create assigns is
    greater than the id that the create before it assigned. *)
Theorem created_ids_increase (ps : list obj) (body : value) (now : float) (n : float)
    (prod : obj) :
  safe_ids ps -> nextId ps = Some n -> (n <? two_53)%float = true ->
  new_product ps body now = Some prod ->
  exists n', nextId (ps ++ [prod]) = Some n' /\ (n <? n')%float = true.
Proof.
  intros Safe En Below P. apply nextId_returns in En as [R ->].
  apply new_product_returns in P as (_ & _ & _ & _ & ->).
  set (prod := record (next_number ps) _ body now).
  exists (next_number (ps ++ [prod])).
  split; [apply nextId_Some, readable_ids_snoc, R |].
  destruct (ltb_numbers _ _ Below) as [N _].
  destruct (number_or_zero_frank (get prod "id")) as [Np Fp].
  assert (E : numeric (get prod "id") = next_number ps) by reflexivity.
  rewrite E in Fp. specialize (Fp N).
  assert (Safe' : safe_ids (ps ++ [prod])).
  { intros p Hp. apply elem_of_app in Hp as [Hp | Hp]; [apply Safe, Hp |].
    apply list_elem_of_singleton in Hp. subst p.
    assert (N53 : is_nan two_53 = false) by reflexivity.
    rewrite (ltb_frank _ _ Np N53), Fp, <- (ltb_frank _ _ N N53). exact Below. }
  destruct (next_number_above _ Safe') as [N' H].
  specialize (H prod ltac:(apply elem_of_app; right; apply list_elem_of_here)).
  rewrite (ltb_frank _ _ N N'). apply Z.ltb_lt. rewrite <- Fp. exact H.
Qed.

(** Scenario for X3, the seeded store: the id after 3 is greater than 3. *)
Lemma created_ids_increase_witness :
  exists n', nextId (seed 0 0 ++ [ record 3 0 foo_bar 5 ]) = Some n' /\ (3 <? n')%float = true.
Proof.
  apply (created_ids_increase (seed 0 0) foo_bar 5%float 3%float).
  - intros p Hp. repeat (apply elem_of_cons in Hp as [-> | Hp]; [vm_compute; reflexivity |]).
    inversion Hp.
  - vm_compute. reflexivity.
  - vm_compute. reflexivity.
  - vm_compute. reflexivity.
Defined.

(** * Compositions and edge cases *)

Section Compositions.

Lemma GET_products_any (db : Low) (qry : query) :
  GET_products db qry
  = match filtered qry (default [] (file db)) with
    | None => (Threw, read db)
    | Some items =>
        match sort_by (comparator (default "newest" (sort qry))) items with
        | None => (Threw, read db)
        | Some sorted => (Sent (Json 200 (items_body sorted)), read db)
        end
    end.
Proof. reflexivity. Qed.

Lemma matches_term_None (s : string) (p : obj) :
  matches_term (Str.toLowerCase s) p = None <-> breaks_search s p.
Proof.
  unfold matches_term, breaks_search. rewrite !lowered_field_text.
  destruct (field_text (get p "title")) as [t |]; cbn [fmap option_fmap option_map].
  - destruct (Str.includes (Str.toLowerCase t) (Str.toLowerCase s)) eqn:I.
    + apply includes_spec in I. split; [discriminate |].
      intros [H | (t' & E & N & _)]; [discriminate | congruence].
    + assert (N : ~ substring (Str.toLowerCase s) (Str.toLowerCase t)).
      { intros H. apply includes_spec in H. congruence. }
      destruct (field_text (get p "description")) as [d |]; cbn [fmap option_fmap option_map].
      * split; [discriminate |]. intros [H | (t' & _ & _ & H)]; discriminate.
      * split; [intros _ | reflexivity]. right. exists t. auto.
  - split; [intros _; left; reflexivity | reflexivity].
Qed.

Lemma by_text_None (v : option string) (l : list obj) :
  by_text v l = None <->
  exists s p, v = Some s /\ s <> EmptyString /\ p ∈ l /\ breaks_search s p.
Proof.
  unfold by_text. destruct v as [s |].
  - destruct (truthy (VStr s)) eqn:T.
    + apply truthy_string in T. rewrite filter_throwing_None. split.
      * intros (p & H & M). exists s, p. rewrite <- matches_term_None. auto.
      * intros (s' & p & E & _ & H & B). injection E as <-. exists p.
        rewrite matches_term_None. auto.
    + split; [discriminate |]. intros (s' & p & E & N & _). injection E as <-.
      apply truthy_string in N. congruence.
  - split; [discriminate |]. intros (s' & p & E & _). discriminate.
Qed.

Lemma toLowerCase_empty (s : string) : Str.toLowerCase s = EmptyString <-> s = EmptyString.
Proof. destruct s; cbn; split; congruence. Qed.

End Compositions.

(** X4. For texts in ASCII, a list throws exactly in two cases. One: the
    query has a text that is not the empty string and the collection has a
    product, of the category and the subcategory asked for, whose title is
    truthy and no string, or whose title does not match while its
    description is truthy and no string. Two: the filters keep two products
    or more, and the key of the sort cannot be converted for one of them. *)
Theorem GET_products_throws (mem : option (list obj)) (ps : list obj) (qry : query) :
  ascii_texts qry ps ->
  (fst (GET_products (stored mem ps) qry) = Threw <->
   (exists s p, q qry = Some s /\ s <> EmptyString /\
                p ∈ ps /\ in_category qry p /\ breaks_search s p) \/
   (exists items, filtered qry ps = Some items /\ 2 <= length items /\
                  exists p, p ∈ items /\
                            key (sort_field (default "newest" (sort qry))) p = None)).
Proof.
  intros _. rewrite GET_products_unfold.
  assert (B : filtered qry ps = None <->
              exists s p, q qry = Some s /\ s <> EmptyString /\
                          p ∈ ps /\ in_category qry p /\ breaks_search s p).
  { unfold filtered. rewrite by_text_None. split.
    - intros (s & p & Q & N & H & B).
      apply by_field_spec in H as [H S]. apply by_field_spec in H as [H C].
      exists s, p. repeat split; auto.
    - intros (s & p & Q & N & H & [C S] & B). exists s, p. repeat split; auto.
      apply by_field_spec. split; [apply by_field_spec; split; [exact H | exact C] | exact S]. }
  destruct (filtered qry ps) as [items |] eqn:F.
  - destruct (sort_by _ items) as [sorted |] eqn:S; cbn [fst].
    + split; [discriminate |]. intros [H | (items' & E & H)].
      * apply B in H. discriminate.
      * injection E as <-. apply sort_by_throws in H. congruence.
    + split; [intros _ | reflexivity]. right. exists items. split; [reflexivity |].
      apply sort_by_throws. exact S.
  - cbn [fst]. split; [intros _ | reflexivity]. left. apply B. reflexivity.
Qed.

(** Scenario for X4: two products, one with a time of creation that cannot
    be converted; the list in the default order throws. *)
Lemma GET_products_throws_witness :
  fst (GET_products (synced [ {[ "id" := VNum 1 ]};
                              {[ "id" := VNum 2; "createdAt" := no_number ]}%stdpp ])
                    {| q := None; category := None; subcategory := None; sort := None |})
  = Threw.
Proof.
  apply (GET_products_throws (Some _)).
  - intros s E. discriminate.
  - right. eexists. split; [vm_compute; reflexivity |]. split; [cbn; lia |].
    eexists. split; [apply list_elem_of_further, list_elem_of_here |]. vm_compute. reflexivity.
Defined.

(** X5. The text of a query is matched without regard to letter case: two
    texts that differ only in the case of their letters give the same
    answer. *)
Theorem GET_products_case (db : Low) (s s' : string) (c sc srt : option string) :
  Str.toLowerCase s = Str.toLowerCase s' ->
  GET_products db {| q := Some s; category := c; subcategory := sc; sort := srt |}
  = GET_products db {| q := Some s'; category := c; subcategory := sc; sort := srt |}.
Proof.
  intros E. rewrite !GET_products_any. unfold filtered, by_text. cbn [q category subcategory sort].
  rewrite E.
  assert (T : truthy (VStr s) = truthy (VStr s')).
  { cbn [truthy]. f_equal.
    destruct (String.eqb_spec s EmptyString) as [-> | N], (String.eqb_spec s' EmptyString) as [-> | N'];
      try reflexivity.
    - symmetry in E. apply (toLowerCase_empty s') in E. congruence.
    - apply (toLowerCase_empty s) in E. congruence. }
  rewrite T. reflexivity.
Qed.

(** Scenario for X5, the seeded store: [CHAIR] and [chair] give one answer. *)
Lemma GET_products_case_witness :
  GET_products seeded {| q := Some "CHAIR"; category := None; subcategory := None; sort := None |}
  = GET_products seeded {| q := Some "chair"; category := None; subcategory := None; sort := None |}.
Proof. apply GET_products_case. reflexivity. Defined.

(** * Order of a list *)

Section Order.

Local Open Scope Z_scope.

Variable r : obj -> Z.

Lemma StronglySorted_snoc (R : obj -> obj -> Prop) (l : list obj) (x : obj) :
  StronglySorted R l -> (forall y, y ∈ l -> R y x) -> StronglySorted R (l ++ [x]).
Proof.
  induction 1 as [| a l S IH F]; intros H; cbn [app].
  - constructor; constructor.
  - constructor.
    + apply IH. intros y Hy. apply H, list_elem_of_further, Hy.
    + apply Forall_app. split; [exact F |].
      constructor; [| constructor]. apply H, list_elem_of_here.
Qed.

Lemma StronglySorted_rev (R : obj -> obj -> Prop) (l : list obj) :
  StronglySorted R l -> StronglySorted (fun a b => R b a) (rev l).
Proof.
  induction 1 as [| a l S IH F]; cbn [rev]; [constructor |].
  apply StronglySorted_snoc; [exact IH |].
  intros y Hy. rewrite Forall_forall in F. apply F.
  apply list_elem_of_In. apply in_rev. apply list_elem_of_In. exact Hy.
Qed.

(** A list in descending order of distinct ranks is in strictly descending
    order. *)
Lemma sorted_strict (l : list obj) :
  NoDup l -> (forall p q, p ∈ l -> q ∈ l -> r p = r q -> p = q) ->
  StronglySorted (fun a b => r b <= r a) l -> StronglySorted (fun a b => r b < r a) l.
Proof.
  intros ND Inj S. induction S as [| a l S IH F]; [constructor |].
  apply NoDup_cons in ND as [Na ND]. constructor.
  - apply IH; [exact ND |]. intros p q Hp Hq. apply Inj; apply list_elem_of_further; assumption.
  - rewrite Forall_forall in F |- *. intros b Hb. specialize (F b Hb).
    destruct (Z.eq_dec (r b) (r a)) as [E |]; [| lia]. exfalso. apply Na.
    rewrite <- (Inj b a (list_elem_of_further _ _ _ Hb) (list_elem_of_here _ _) E). exact Hb.
Qed.

(** Two rearrangements of one list in strictly descending order are one
    list. *)
Lemma sorted_unique (l1 l2 : list obj) :
  Permutation l1 l2 ->
  StronglySorted (fun a b => r b < r a) l1 -> StronglySorted (fun a b => r b < r a) l2 ->
  l1 = l2.
Proof.
  intros P S1. revert l2 P. induction S1 as [| a l1 S1 IH F1]; intros l2 P S2.
  - apply Permutation_nil_l. exact P.
  - destruct S2 as [| b l2 S2 F2].
    + apply Permutation_nil_r in P. discriminate.
    + assert (E : a = b).
      { assert (Ha : a ∈ b :: l2) by (rewrite <- P; apply list_elem_of_here).
        assert (Hb : b ∈ a :: l1) by (rewrite P; apply list_elem_of_here).
        apply elem_of_cons in Ha as [Ha | Ha]; [exact Ha |].
        apply elem_of_cons in Hb as [Hb | Hb]; [symmetry; exact Hb |].
        rewrite Forall_forall in F1, F2. specialize (F1 b Hb). specialize (F2 a Ha). lia. }
      subst b. f_equal. apply IH; [apply (Permutation_cons_inv P) | exact S2].
Qed.

End Order.

(** X6. On a list whose prices are numbers and pairwise different, the order
    [price-desc] is the reverse of the order [price-asc]. *)
Theorem price_desc_reverses (l : list obj) :
  numbered "price" l -> distinct_keys "price" l ->
  exists sorted,
    sort_by price_asc l = Some sorted /\ sort_by price_desc l = Some (rev sorted).
Proof.
  intros Num Dis. exists (sorted_by (by_key "price") l).
  pose proof (sort_by_readable "price-asc" l (numbered_readable _ _ Num)) as Ea.
  pose proof (sort_by_readable "price-desc" l (numbered_readable _ _ Num)) as Ed.
  change (comparator "price-asc") with price_asc in Ea.
  change (comparator "price-desc") with price_desc in Ed.
  change (comparator_number "price-asc") with (by_key "price") in Ea.
  change (comparator_number "price-desc") with (fun a b => by_key "price" b a) in Ed.
  split; [exact Ea |]. rewrite Ed. f_equal.
  set (r := fun p => frank (key_number "price" p)).
  assert (ND : NoDup l).
  { apply NoDup_alt. intros i j x Hi Hj. apply (Dis i j x x Hi Hj).
    assert (N : is_nan (key_number "price" x) = false)
      by (apply Num; eapply list_elem_of_lookup_2; eauto).
    rewrite (eqb_frank _ _ N N). apply Z.eqb_refl. }
  assert (Inj : forall p q, p ∈ l -> q ∈ l -> r p = r q -> p = q).
  { intros p q Hp Hq E.
    pose proof (Num p Hp) as Np. pose proof (Num q Hq) as Nq.
    apply list_elem_of_lookup in Hp as [i Hi]. apply list_elem_of_lookup in Hq as [j Hj].
    assert (i = j).
    { apply (Dis i j p q Hi Hj). rewrite (eqb_frank _ _ Np Nq). apply Z.eqb_eq. exact E. }
    subst j. congruence. }
  apply (sorted_unique r).
  - rewrite sorted_by_perm, <- Permutation_rev. symmetry. apply sorted_by_perm.
  - apply sorted_strict.
    + rewrite sorted_by_perm. exact ND.
    + intros p q. rewrite !sorted_by_perm. apply Inj.
    + apply (StronglySorted_impl_elem (fun a b => (- r a <= - r b)%Z)); [intros; lia |].
      apply sorted_by_sorted. intros x y Hx Hy. unfold by_key.
      rewrite (sub_pos_frank _ _ (Num y Hy) (Num x Hx)). unfold r.
      destruct (Z.ltb_spec (frank (key_number "price" x)) (frank (key_number "price" y)));
        symmetry; [apply Z.ltb_lt | apply Z.ltb_ge]; lia.
  - apply sorted_strict.
    + rewrite <- Permutation_rev, sorted_by_perm. exact ND.
    + intros p q. rewrite <- !Permutation_rev, !sorted_by_perm. apply Inj.
    + apply (StronglySorted_rev (fun a b => (r a <= r b)%Z)).
      apply sorted_by_sorted. intros x y Hx Hy. unfold by_key.
      rewrite (sub_pos_frank _ _ (Num x Hx) (Num y Hy)). reflexivity.
Qed.

(** Scenario for X6: the prices 150, 50 and 800. *)
Lemma price_desc_reverses_witness :
  exists sorted,
    sort_by price_asc [ priced 150; priced 50; priced 800 ] = Some sorted /\
    sort_by price_desc [ priced 150; priced 50; priced 800 ] = Some (rev sorted).
Proof.
  apply price_desc_reverses.
  - intros p Hp. repeat (apply elem_of_cons in Hp as [-> | Hp]; [reflexivity |]). inversion Hp.
  - intros i j p q' Hi Hj.
    destruct i as [| [| [| i]]]; destruct j as [| [| [| j]]]; cbn in Hi, Hj;
      try discriminate; injection Hi as <-; injection Hj as <-;
      first [ reflexivity | vm_compute; discriminate ].
Defined.

(** * Updates, and what follows a create *)

Section Updates.

Lemma spread_without_properties (prev : obj) (body : value) :
  own_props body = ∅ -> prev !! "id" = Some (get prev "id") -> spread prev body = prev.
Proof.
  intros E H. unfold spread. rewrite E, (left_id_L ∅ (∪)). apply insert_id. exact H.
Qed.


Lemma answers_to_ext (id id' : float) (p : obj) :
  Num.strict_eq id id' = true -> answers_to id p = answers_to id' p.
Proof.
  intros E. apply strict_eq_true in E as (N & N' & F). unfold answers_to, Num.strict_eq.
  destruct (is_nan (numeric (get p "id"))) eqn:Np.
  - rewrite !(eqb_nan_l _ _ Np). reflexivity.
  - rewrite (eqb_frank _ _ Np N), (eqb_frank _ _ Np N'), F. reflexivity.
Qed.

Lemma has_id_ext (id id' : float) (p : obj) :
  Num.strict_eq id id' = true -> has_id id p = has_id id' p.
Proof. intros E. rewrite !has_id_unfold, (answers_to_ext _ _ p E). reflexivity. Qed.

Lemma has_id_record (id price : float) (body : value) (now : float) :
  is_nan id = false -> has_id id (record id price body now) = Some true.
Proof.
  intros N. apply has_id_true. unfold answers_to. rewrite record_id. cbn [numeric].
  apply strict_eq_true. auto.
Qed.

Lemma filter_throwing_ext (f g : obj -> option bool) (l : list obj) :
  (forall p, f p = g p) -> filter_throwing f l = filter_throwing g l.
Proof.
  intros E. induction l as [| p l IH]; cbn [filter_throwing]; [reflexivity |].
  rewrite E, IH. reflexivity.
Qed.

Lemma by_field_snoc (k : string) (v : option string) (l : list obj) (x : obj) :
  (forall c, v = Some c -> c <> EmptyString -> get x k = VStr c) ->
  by_field k v (l ++ [x]) = by_field k v l ++ [x].
Proof.
  intros H. unfold by_field. destruct (truthy (param v)) eqn:T; [| reflexivity].
  destruct v as [c |]; [| discriminate]. cbn [param] in *.
  rewrite List.filter_app. f_equal. cbn [List.filter].
  rewrite (H c eq_refl (proj1 (truthy_string c) T)). cbn [strict_eq].
  rewrite String.eqb_refl. reflexivity.
Qed.

(** An item that the comparator puts before every other one heads the sort
    when it was last in the list. *)
Lemma sort_by_snoc (cmp : obj -> obj -> option float) (l r : list obj) (x : obj) :
  sort_by cmp l = Some r ->
  (forall y, y ∈ l -> exists c, cmp y x = Some c /\ (0 <? c)%float = true) ->
  sort_by cmp (l ++ [x]) = Some (x :: r).
Proof.
  revert r. induction l as [| y l IH]; intros r S H; cbn [app sort_by] in *.
  - injection S as <-. reflexivity.
  - destruct (sort_by cmp l) as [r0 |] eqn:S0; [| discriminate]. cbn in S.
    rewrite (IH r0 eq_refl) by (intros z Hz; apply H, list_elem_of_further, Hz).
    cbn [mbind option_bind insert_sorted].
    destruct (H y (list_elem_of_here _ _)) as (c & Ec & Hc). rewrite Ec.
    cbn [mbind option_bind]. rewrite Hc, S. reflexivity.
Qed.

Lemma key_created (id price : float) (body : value) (now : float) :
  is_nan now = false ->
  key_number "createdAt" (record id price body now)
  = (if Num.falsy now then 0%float else now) /\
  is_nan (key_number "createdAt" (record id price body now)) = false /\
  frank (key_number "createdAt" (record id price body now)) = frank now.
Proof.
  intros N. unfold key_number.
  assert (E : get (record id price body now) "createdAt" = VNum now) by reflexivity.
  rewrite E. unfold js_or. cbn [truthy]. split; [destruct (Num.falsy now); reflexivity |].
  rewrite (falsy_frank now N).
  destruct (Z.eqb_spec (frank now) 0) as [Z |]; cbn [negb numeric]; auto.
Qed.

Lemma bootstrap_synced (db : Low) (now1 now2 : float) :
  exists p ps, bootstrap db now1 now2 = synced (p :: ps).
Proof.
  destruct db as [m [[| p l] |]]; unfold bootstrap, seed; cbn; eauto.
Qed.

Lemma handle_file (db : Low) (ps : list obj) (r : request) :
  file db = Some ps -> exists ps', file (snd (handle db r)) = Some ps'.
Proof.
  intros F. rewrite (Low_stored db ps F). destruct r as [qry | body now | id body | id];
    cbn [handle].
  - rewrite GET_products_store. eauto.
  - destruct (POST_file (data db) ps body now) as [-> | [-> | (prod & _ & ->)]]; eauto.
  - destruct (PUT_file (data db) ps id body) as [-> | (idx & prev & _ & ->)]; eauto.
  - destruct (DELETE_file (data db) ps id) as [-> | ->]; eauto.
Qed.

Lemma run_file (db : Low) (ps : list obj) (rs : list request) :
  file db = Some ps -> exists ps', file (run db rs) = Some ps'.
Proof.
  revert db ps. induction rs as [| r rs IH]; intros db ps F; [exists ps; exact F |].
  destruct (handle_file db ps r F) as [ps' E]. unfold run. cbn [fold_left].
  apply (IH _ ps' E).
Qed.

End Updates.

(** X7. An update whose body has no properties (no body, the empty object,
    the empty array) answers 200 with the stored record, the first of the
    path id, and leaves the collection as it was, where the collection
    holds what a JSON text holds. *)
Theorem PUT_without_properties (mem : option (list obj)) (ps : list obj)
    (id_param : string) (body : value) (idx : nat) (prev : obj) :
  request_body body -> own_props body = ∅ -> storable_products ps ->
  ps !! idx = Some prev -> has_id (Str.to_number id_param) prev = Some true ->
  (forall j q, j < idx -> ps !! j = Some q -> has_id (Str.to_number id_param) q = Some false) ->
  PUT_products_id (stored mem ps) id_param body = (Sent (Json 200 (VObj prev)), synced ps).
Proof.
  intros _ E _ L Hprev Hfirst.
  rewrite (PUT_found mem ps id_param body idx prev L Hprev Hfirst).
  rewrite (spread_without_properties prev body E (has_id_lookup _ _ Hprev)).
  rewrite (list_insert_id _ _ _ L). reflexivity.
Qed.

(** Scenario for X7, the seeded store: the empty object as the body of an
    update of the id 2. *)
Lemma PUT_without_properties_witness :
  PUT_products_id seeded "2" (VObj ∅) = (Sent (Json 200 (VObj (gaming_chair 0))), seeded).
Proof.
  apply (PUT_without_properties (Some (seed 0 0)) (seed 0 0) "2" (VObj ∅) 1 (gaming_chair 0)).
  - right. left. eexists. reflexivity.
  - reflexivity.
  - exact storable_seed.
  - reflexivity.
  - vm_compute. reflexivity.
  - intros j q' Hj Hq. destruct j as [| j]; [| lia]. injection Hq as <-.
    vm_compute. reflexivity.
Defined.


(** X9. A create followed by a delete of the id it assigned gives back the
    collection as it was, when every id is below 2^53 and the collection
    and the created record hold what a JSON text holds; the next create is
    then given that id again. *)
Theorem create_then_delete (mem : option (list obj)) (ps : list obj) (body : value)
    (now : float) (id_param : string) (n : float) (prod : obj) :
  request_body body -> safe_ids ps -> accepted body ->
  nextId ps = Some n -> new_product ps body now = Some prod ->
  storable_products (ps ++ [prod]) ->
  Num.strict_eq (Str.to_number id_param) n = true ->
  DELETE_products_id (snd (POST_products (stored mem ps) body now)) id_param
  = (Sent (End 204), synced ps).
Proof.
  intros _ Safe [T C] En P _ E. rewrite (POST_created _ _ _ _ _ T C P). cbn [snd].
  apply nextId_returns in En as [R ->].
  apply new_product_returns in P as (_ & _ & _ & _ & ->).
  set (prod := record (next_number ps) _ body now).
  change (synced (ps ++ [prod])) with (stored (Some (ps ++ [prod])) (ps ++ [prod])).
  assert (N : is_nan (next_number ps) = false) by (apply strict_eq_true in E; tauto).
  assert (Hprod : has_id (Str.to_number id_param) prod = Some true).
  { rewrite (has_id_ext _ _ _ E). apply has_id_record. exact N. }
  assert (Hin : prod ∈ ps ++ [prod]) by (apply elem_of_app; right; apply list_elem_of_here).
  rewrite (DELETE_found _ _ _ prod (readable_ids_snoc _ _ _ _ _ R) Hin Hprod).
  f_equal. f_equal. rewrite List.filter_app. cbn [List.filter].
  apply has_id_true in Hprod. fold prod. rewrite Hprod. cbn [negb].
  rewrite app_nil_r. apply filter_all. intros p Hp.
  rewrite (answers_to_ext _ _ _ E), (next_number_fresh ps p Safe Hp). reflexivity.
Qed.

(** Scenario for X9, the seeded store: the create is given the id 3, and the
    delete of 3 gives back the seeded store. *)
Lemma create_then_delete_witness :
  DELETE_products_id (snd (POST_products seeded foo_bar 5)) "3" = (Sent (End 204), seeded).
Proof.
  apply (create_then_delete (Some (seed 0 0)) (seed 0 0) foo_bar 5 "3" 3 (record 3 0 foo_bar 5)).
  - apply request_body_obj.
  - exact seed_safe.
  - split; reflexivity.
  - vm_compute. reflexivity.
  - vm_compute. reflexivity.
  - apply Forall_app. split; [exact storable_seed |]. constructor; [| constructor].
    exact storable_foo_bar.
  - vm_compute. reflexivity.
Defined.

(** X10. After a create, an update of the id it assigned answers 200 with the
    created record merged with the body, and replaces that record, the last
    of the collection; the records before it are as they were. Every id is
    below 2^53, and the records hold what a JSON text holds. *)
Theorem create_then_update (mem : option (list obj)) (ps : list obj) (body patch : value)
    (now : float) (id_param : string) (n : float) (prod : obj) :
  request_body body -> request_body patch -> safe_ids ps -> accepted body ->
  nextId ps = Some n -> new_product ps body now = Some prod ->
  storable_products (ps ++ [prod]) -> storable_products (ps ++ [spread prod patch]) ->
  Num.strict_eq (Str.to_number id_param) n = true ->
  PUT_products_id (snd (POST_products (stored mem ps) body now)) id_param patch
  = (Sent (Json 200 (VObj (spread prod patch))), synced (ps ++ [spread prod patch])).
Proof.
  intros _ _ Safe [T C] En P _ _ E. rewrite (POST_created _ _ _ _ _ T C P). cbn [snd].
  apply nextId_returns in En as [R ->].
  apply new_product_returns in P as (_ & _ & _ & _ & ->).
  set (prod := record (next_number ps) _ body now).
  change (synced (ps ++ [prod])) with (stored (Some (ps ++ [prod])) (ps ++ [prod])).
  assert (N : is_nan (next_number ps) = false) by (apply strict_eq_true in E; tauto).
  rewrite PUT_products_id_unfold, (findIndex_app _ ps prod).
  - rewrite list_lookup_middle by reflexivity. cbn zeta.
    replace (length ps) with (length ps + 0)%nat at 1 by lia.
    rewrite insert_app_r. reflexivity.
  - intros p Hp. rewrite (has_id_readable _ _ R p Hp), (answers_to_ext _ _ _ E).
    rewrite (next_number_fresh ps p Safe Hp). reflexivity.
  - rewrite (has_id_ext _ _ _ E). apply has_id_record. exact N.
Qed.

(** Scenario for X10, the seeded store: the created record, of id 3, is given
    a price. *)
Lemma create_then_update_witness :
  PUT_products_id (snd (POST_products seeded foo_bar 5)) "3" (VObj {[ "price" := VNum 10 ]})
  = (Sent (Json 200 (VObj (spread (record 3 0 foo_bar 5) (VObj {[ "price" := VNum 10 ]})))),
     synced (seed 0 0 ++ [spread (record 3 0 foo_bar 5) (VObj {[ "price" := VNum 10 ]})])).
Proof.
  apply (create_then_update (Some (seed 0 0)) (seed 0 0) foo_bar _ 5 "3" 3).
  - apply request_body_obj.
  - apply request_body_obj.
  - exact seed_safe.
  - split; reflexivity.
  - vm_compute. reflexivity.
  - vm_compute. reflexivity.
  - apply Forall_app. split; [exact storable_seed |]. constructor; [| constructor].
    exact storable_foo_bar.
  - apply Forall_app. split; [exact storable_seed |]. constructor; [| constructor].
    apply storable_spread; [exact storable_foo_bar | | eexists; reflexivity].
    apply storable_singleton, storable_num; reflexivity.
  - vm_compute. reflexivity.
Defined.

(** X11. A list by [newest], without a text, that follows a create shows the
    created product first and then the items that it showed before the
    create, when the product is of the category and subcategory asked for,
    its time of creation is later than that of every other product, and
    the records hold what a JSON text holds. *)
Theorem create_then_list (mem : option (list obj)) (ps : list obj) (body : value)
    (now : float) (qry : query) (prod : obj) :
  request_body body -> accepted body -> newest_first qry ->
  new_product ps body now = Some prod -> storable_products (ps ++ [prod]) ->
  in_category qry prod ->
  (forall p, p ∈ ps -> exists t, key "createdAt" p = Some t /\ (t <? now)%float = true) ->
  exists rest,
    fst (GET_products (stored mem ps) qry) = Sent (Json 200 (items_body rest)) /\
    fst (GET_products (snd (POST_products (stored mem ps) body now)) qry)
    = Sent (Json 200 (items_body (prod :: rest))).
Proof.
  intros _ [T C] [Q S] P _ [Hc Hs] Late. rewrite (POST_created _ _ _ _ _ T C P). cbn [snd].
  apply new_product_returns in P as (_ & _ & _ & _ & ->).
  set (prod := record (next_number ps) _ body now) in *.
  change (synced (ps ++ [prod])) with (stored (Some (ps ++ [prod])) (ps ++ [prod])).
  rewrite !GET_products_unfold. unfold filtered.
  rewrite (by_field_snoc "category" _ _ _ Hc), (by_field_snoc "subcategory" _ _ _ Hs), S.
  set (l := by_field "subcategory" (subcategory qry) (by_field "category" (category qry) ps)).
  assert (E : forall l', by_text (q qry) l' = Some l').
  { intros l'. destruct Q as [-> | ->]; reflexivity. }
  rewrite !E.
  assert (Hl : forall y, y ∈ l -> y ∈ ps).
  { intros y Hy. apply by_field_spec in Hy as [Hy _]. apply by_field_spec in Hy as [Hy _].
    exact Hy. }
  assert (Late' : forall y, y ∈ l ->
            unprintable (js_or (get y "createdAt") (VNum 0)) = false /\
            (key_number "createdAt" y <? now)%float = true).
  { intros y Hy. destruct (Late y (Hl y Hy)) as (t & K & Lt).
    rewrite key_unfold in K. destruct (unprintable _); [discriminate |].
    injection K as <-. auto. }
  assert (Sl : sort_by newest l = Some (sorted_by (fun a b => by_key "createdAt" b a) l)).
  { apply (sort_by_readable "newest" l). intros y Hy. apply Late', Hy. }
  rewrite Sl. cbn [fst]. eexists. split; [reflexivity |].
  rewrite (sort_by_snoc newest l _ prod Sl); [reflexivity |].
  intros y Hy. destruct (Late' y Hy) as [U Lt].
  destruct (ltb_numbers _ _ Lt) as [Ny Nn].
  destruct (key_created (next_number ps)
              (numeric_or_zero (prop (js_or body (VObj ∅)) "price")) body now Nn)
    as (_ & Nk & Fk).
  fold prod in Nk, Fk.
  exists (by_key "createdAt" prod y). split.
  - assert (Up : unprintable (js_or (get prod "createdAt") (VNum 0)) = false).
    { change (get prod "createdAt") with (VNum now). unfold js_or.
      destruct (truthy (VNum now)); reflexivity. }
    unfold newest. rewrite difference_unfold, U, Up. reflexivity.
  - unfold by_key. rewrite (sub_pos_frank _ _ Nk Ny), Fk, <- (ltb_frank _ _ Ny Nn). exact Lt.
Qed.

(** Scenario for X11, the seeded store, of time 0: a product created at time
    5 heads the list. *)
Lemma create_then_list_witness :
  exists rest,
    fst (GET_products seeded {| q := None; category := None; subcategory := None; sort := None |})
    = Sent (Json 200 (items_body rest)) /\
    fst (GET_products (snd (POST_products seeded foo_bar 5))
           {| q := None; category := None; subcategory := None; sort := None |})
    = Sent (Json 200 (items_body (record 3 0 foo_bar 5 :: rest))).
Proof.
  apply (create_then_list (Some (seed 0 0)) (seed 0 0) foo_bar 5).
  - apply request_body_obj.
  - split; reflexivity.
  - split; [left |]; reflexivity.
  - vm_compute. reflexivity.
  - apply Forall_app. split; [exact storable_seed |]. constructor; [| constructor].
    exact storable_foo_bar.
  - split; intros c H; discriminate.
  - apply seed_members; eexists; (split; [vm_compute; reflexivity | reflexivity]).
Defined.

(** X12. An update and a delete depend on the path id only through the
    number it reads as: two path ids that read as one number address the
    same record. *)
Theorem same_number_same_record (db : Low) (a b : string) (body : value) :
  Num.strict_eq (Str.to_number a) (Str.to_number b) = true ->
  PUT_products_id db a body = PUT_products_id db b body /\
  DELETE_products_id db a = DELETE_products_id db b.
Proof.
  intros E. split.
  - unfold PUT_products_id.
    rewrite (findIndex_ext _ (has_id (Str.to_number b)) _ (fun p => has_id_ext _ _ p E)).
    reflexivity.
  - unfold DELETE_products_id. cbv zeta. destruct (data (read db)) as [ps |]; [| reflexivity].
    rewrite (filter_throwing_ext (has_other_id (Str.to_number a))
               (has_other_id (Str.to_number b)) ps
               (fun p => f_equal (fmap negb) (has_id_ext _ _ p E))).
    reflexivity.
Qed.

(** Scenario for X12, the seeded store: the path ids [2] and [ 2.0]. *)
Lemma same_number_same_record_witness :
  PUT_products_id seeded "2" (VObj {[ "price" := VNum 10 ]})
  = PUT_products_id seeded " 2.0" (VObj {[ "price" := VNum 10 ]}) /\
  DELETE_products_id seeded "2" = DELETE_products_id seeded " 2.0".
Proof. apply same_number_same_record. vm_compute. reflexivity. Defined.


(** X14. After the start of the process, whatever requests follow, the file
    holds a products array. On a store that does, a request throws only for
    a cause that lies in the data: a list, when the query has a text that
    is not the empty string and a title or a description is truthy and no
    string, or when the key of the sort cannot be converted for a product;
    a create, when an id of the collection or the price of the body cannot
    be converted; an update and a delete, when an id of the collection
    cannot be converted. *)
Theorem served_store (db : Low) (now1 now2 : float) (rs : list request) :
  (exists ps, file (run (bootstrap db now1 now2) rs) = Some ps) /\
  forall mem ps r, fst (handle (stored mem ps) r) = Threw ->
    match r with
    | GET qry =>
        (exists s p, q qry = Some s /\ s <> EmptyString /\ p ∈ ps /\
                     (field_text (get p "title") = None \/
                      field_text (get p "description") = None)) \/
        (exists p, p ∈ ps /\ key (sort_field (default "newest" (sort qry))) p = None)
    | POST body now =>
        (exists p, p ∈ ps /\ unprintable (get p "id") = true) \/
        unprintable (prop (js_or body (VObj ∅)) "price") = true
    | PUT _ _ | DELETE _ => exists p, p ∈ ps /\ unprintable (get p "id") = true
    end.
Proof.
  split.
  { destruct (bootstrap_synced db now1 now2) as (p & ps & ->).
    apply (run_file _ (p :: ps)). reflexivity. }
  intros mem ps [qry | body now | id body | id]; cbn [handle].
  - intros H. rewrite GET_products_unfold in H.
    destruct (filtered qry ps) as [items |] eqn:F.
    + destruct (sort_by _ items) eqn:S; [discriminate |]. right.
      apply sort_by_throws in S as (_ & p & Hp & K). exists p. split; [| exact K].
      apply filtered_spec in F as [_ F]. apply F in Hp as [Hp _]. exact Hp.
    + left. unfold filtered in F. apply by_text_None in F as (s & p & Q & N & Hp & B).
      apply by_field_spec in Hp as [Hp _]. apply by_field_spec in Hp as [Hp _].
      exists s, p. repeat (split; [assumption |]).
      destruct B as [B | (t & _ & _ & B)]; auto.
  - intros H.
    destruct (truthy (prop (js_or body (VObj ∅)) "title")) eqn:T;
      [destruct (truthy (prop (js_or body (VObj ∅)) "category")) eqn:C |].
    + destruct (new_product ps body now) as [prod |] eqn:P.
      * rewrite (POST_created _ _ _ _ _ T C P) in H. discriminate.
      * apply (proj1 (new_product_None ps body now)). exact P.
    + rewrite POST_rejected in H by auto. discriminate.
    + rewrite POST_rejected in H by auto. discriminate.
  - intros H. rewrite PUT_products_id_unfold in H.
    destruct (findIndex _ ps) as [[idx |] |] eqn:F.
    + apply findIndex_found in F as (p & L & _). rewrite L in H. discriminate.
    + discriminate.
    + apply findIndex_throws in F as (i & p & L & Fp & _). exists p.
      split; [eapply list_elem_of_lookup_2; exact L | apply has_id_None in Fp; exact Fp].
  - intros H. pose proof (DELETE_products_id_unfold mem ps id) as E. cbn zeta in E.
    rewrite E in H. destruct (existsb _ ps) eqn:X.
    + apply existsb_exists in X as (p & Hp & U). exists p.
      split; [apply list_elem_of_In; exact Hp | exact U].
    + destruct (Nat.eqb _ _); discriminate.
Qed.

(** X15. The start of the process leaves a collection that is not empty, in
    memory and in the file alike, and a second start changes nothing:
    the seed is written at most once while products remain. *)
Theorem bootstrap_idempotent (db : Low) (now1 now2 now3 now4 : float) :
  (exists p ps, bootstrap db now1 now2 = synced (p :: ps)) /\
  bootstrap (bootstrap db now1 now2) now3 now4 = bootstrap db now1 now2.
Proof.
  split; [apply bootstrap_synced |].
  destruct (bootstrap_synced db now1 now2) as (p & ps & ->). reflexivity.
Qed.

(** X16. Every handler acts on what the file holds: what memory held before
    the request changes neither the answer nor what the file holds
    after it. *)
Theorem stale_memory_ignored (mem mem' : option (list obj)) (ps : list obj) (r : request) :
  fst (handle (stored mem ps) r) = fst (handle (stored mem' ps) r) /\
  file (snd (handle (stored mem ps) r)) = file (snd (handle (stored mem' ps) r)).
Proof.
  destruct r as [qry | body now | id body | id]; cbn [handle].
  - rewrite !GET_products_unfold. split; reflexivity.
  - destruct (truthy (prop (js_or body (VObj ∅)) "title")) eqn:T;
      [destruct (truthy (prop (js_or body (VObj ∅)) "category")) eqn:C |].
    + destruct (new_product ps body now) as [prod |] eqn:P.
      * rewrite !(POST_created _ _ _ _ _ T C P). split; reflexivity.
      * rewrite !(POST_threw _ _ _ _ T C P). split; reflexivity.
    + rewrite !POST_rejected by auto. split; reflexivity.
    + rewrite !POST_rejected by auto. split; reflexivity.
  - rewrite !PUT_products_id_unfold. split; reflexivity.
  - pose proof (DELETE_products_id_unfold mem ps id) as E.
    pose proof (DELETE_products_id_unfold mem' ps id) as E'. cbn zeta in E, E'.
    rewrite E, E'. destruct (existsb _ ps); [split; reflexivity |].
    destruct (Nat.eqb _ _); split; reflexivity.
Qed.



(** X18. The check of a create accepts a title that is truthy and no string
    (a number, say); where the create returns a record, and it and the
    collection hold what a JSON text holds, the answer is 201, and after it
    every list with a text that is not the empty string, for the category
    and subcategory of the created product or for none, throws. *)
Theorem create_breaks_search (mem : option (list obj)) (ps : list obj) (body : value)
    (now : float) (qry : query) (s : string) (prod : obj) :
  request_body body ->
  accepted body -> (forall t, prop (js_or body (VObj ∅)) "title" <> VStr t) ->
  new_product ps body now = Some prod -> storable_products (ps ++ [prod]) ->
  q qry = Some s -> s <> EmptyString -> in_category qry prod ->
  fst (POST_products (stored mem ps) body now) = Sent (Json 201 (VObj prod)) /\
  fst (GET_products (snd (POST_products (stored mem ps) body now)) qry) = Threw.
Proof.
  intros _ [T C] NS P _ Q N [Hc Hs]. rewrite (POST_created _ _ _ _ _ T C P). cbn [fst snd].
  split; [reflexivity |].
  apply new_product_returns in P as (_ & _ & _ & _ & ->).
  set (prod := record (next_number ps) _ body now) in *.
  change (synced (ps ++ [prod])) with (stored (Some (ps ++ [prod])) (ps ++ [prod])).
  rewrite GET_products_unfold. unfold filtered.
  assert (B : by_text (q qry) (by_field "subcategory" (subcategory qry)
                (by_field "category" (category qry) (ps ++ [prod]))) = None).
  { apply by_text_None. exists s, prod. split; [exact Q |]. split; [exact N |]. split.
    - apply by_field_spec. split; [| exact Hs]. apply by_field_spec. split; [| exact Hc].
      apply elem_of_app. right. apply list_elem_of_here.
    - left. assert (E : get prod "title" = prop (js_or body (VObj ∅)) "title") by reflexivity.
      rewrite E. unfold field_text. rewrite T.
      destruct (prop (js_or body (VObj ∅)) "title") eqn:P; try reflexivity.
      exfalso. exact (NS _ eq_refl). }
  rewrite B. reflexivity.
Qed.

(** Scenario for X18, the seeded store: a create with the title 5, and the
    text [chair]. *)
Lemma create_breaks_search_witness :
  fst (POST_products seeded (VObj (list_to_map [ ("title", VNum 5); ("category", VStr "Bar") ])) 5)
  = Sent (Json 201 (VObj (record 3 0
       (VObj (list_to_map [ ("title", VNum 5); ("category", VStr "Bar") ])) 5))) /\
  fst (GET_products
         (snd (POST_products seeded
                 (VObj (list_to_map [ ("title", VNum 5); ("category", VStr "Bar") ])) 5))
         {| q := Some "chair"; category := None; subcategory := None; sort := None |}) = Threw.
Proof.
  apply (create_breaks_search (Some (seed 0 0)) (seed 0 0) _ 5 _ "chair").
  - apply request_body_obj.
  - split; reflexivity.
  - intros t. vm_compute. discriminate.
  - vm_compute. reflexivity.
  - apply Forall_app. split; [exact storable_seed |]. constructor; [| constructor].
    apply storable_list_to_map.
    repeat (constructor;
            [cbn [snd]; first [ apply storable_str | apply storable_num; reflexivity
                              | apply storable_arr; constructor ] |]).
    constructor.
  - reflexivity.
  - discriminate.
  - split; intros c H; discriminate.
Defined.
